(** * CPU core power analyzer: benchmarks, derived metrics and rating

    A shallow embedding of [github_actions_core_power_analyzer.py]
    (class [CorePowerAnalyzer]): the four benchmark workloads, the
    theoretical-peak calculation and the performance rating, together with
    the properties the specification states about them.

    Modelling conventions.
    - Python [int] is [Z] (unbounded).
    - Python [float] is modelled by the rational number it denotes, as a
      canonical rational [Qc], and float arithmetic is exact: rounding,
      infinities and NaN are outside the model, so a stored float is the
      value of its formula, which Python rounds.  Comparisons and the test
      for zero are exact on floats as well, so the thresholds of the
      rating and the zero-duration properties do not depend on this.  An
      integer that is too large for a float where the metrics step or a
      probe needs one ([int * float], [int / int]) is an [OverflowError],
      as in Python ([to_float], [int_truediv]); the benchmarks are run on
      the sizes their callers pass, which are far from that.  For the
      places where rounding matters, module [Binary64] gives the IEEE 754
      binary64 computation ([SpecFloat]): the peak figures the
      specification names and their doubling, and [int(math.sqrt(n))] in
      [is_prime], which is shown to be within one of the integer square
      root below 2^53.
    - [self.results] is a [gmap string value]; [print] appends a line to
      the console; [time.time()] reads the next value of a clock stream.
      All three live in the state of the monad [M], which also carries
      Python exceptions.
    - The probes of the operating system ([get_system_info],
      [get_cpu_specs], [get_cpu_frequencies], [get_memory_info]) are
      functions of what they read: the output of a command, the text of a
      file, the files of a directory.  A [str] is the bytes of its UTF-8
      encoding (module [Str]); [int] and [float] on a string are
      parameters (class [Builtins]).  [export_json] and the whole of
      [run_all_tests] are not modelled; the benchmark and analysis steps
      of [run_all_tests] are ([run_benchmarks]). *)

From Stdlib Require Import ZArith QArith Qcanon Znumtheory Lia Ascii.
From Stdlib Require Import Floats.SpecFloat.
From Equations Require Import Equations.
From stdpp Require Import gmap strings list fin_maps sorting.

#[local] Open Scope Z_scope.

(** ** Python values *)

Module Py.

(** The exceptions the modelled code can raise. *)
Inductive exn : Type :=
| ZeroDivisionError
| TypeError
| ValueError
| KeyError
| OverflowError.

(** Values held by the result store: numbers, strings and sequences of
    numbers. *)
Inductive value : Type :=
| VInt (z : Z)
| VFloat (q : Qc)
| VStr (s : string)
| VList (l : list Qc).

(** The number [float(z)] denotes, rounding apart. *)
Definition float_of_int (z : Z) : Qc := Qc_of_Z z.

(** The least magnitude that no longer rounds to a finite double: halfway
    between the largest double, 2^1024 - 2^971, and 2^1024. *)
Definition double_limit : Z := 2 ^ 1024 - 2 ^ 970.

(** A number that an operation on integers would have to give as a float
    and cannot: Python raises [OverflowError]. *)
Definition too_large (q : Qc) : bool :=
  bool_decide (float_of_int double_limit ≤ q ∨ q ≤ float_of_int (- double_limit))%Qc.

(** [float(z)] as the arithmetic operators apply it to an [int] operand
    that meets a [float]: "int too large to convert to float" beyond the
    doubles. *)
Definition to_float (z : Z) : exn + Qc :=
  if too_large (float_of_int z) then inl OverflowError
  else inr (float_of_int z).

(** [bool(v)]: zero, the empty string and the empty list are false. *)
Definition truthy (v : value) : bool :=
  match v with
  | VInt z => bool_decide (z ≠ 0)
  | VFloat q => bool_decide (q ≠ 0%Qc)
  | VStr s => bool_decide (s ≠ "")
  | VList l => bool_decide (l ≠ [])
  end.

(** [bool(d.get(k))]: [None] is false. *)
Definition truthy_opt (o : option value) : bool :=
  match o with
  | None => false
  | Some v => truthy v
  end.

(** The number a numeric value denotes. *)
Definition as_number (v : value) : option Qc :=
  match v with
  | VInt z => Some (float_of_int z)
  | VFloat q => Some q
  | VStr _ | VList _ => None
  end.

(** [s * n] on strings *)
Fixpoint str_repeat (s : string) (n : nat) : string :=
  match n with
  | O => ""
  | S n' => s +:+ str_repeat s n'
  end.

(** [l * n] on lists *)
Fixpoint list_repeat {A} (l : list A) (n : nat) : list A :=
  match n with
  | O => []
  | S n' => l ++ list_repeat l n'
  end.

(** [a * b]: integers multiply exactly, and an integer that meets a float
    is converted first. *)
Definition mul (a b : value) : exn + value :=
  match a, b with
  | VInt x, VInt y => inr (VInt (x * y))
  | VInt x, VFloat y =>
      match to_float x with
      | inl e => inl e
      | inr fx => inr (VFloat (fx * y)%Qc)
      end
  | VFloat x, VInt y =>
      match to_float y with
      | inl e => inl e
      | inr fy => inr (VFloat (x * fy)%Qc)
      end
  | VFloat x, VFloat y => inr (VFloat (x * y)%Qc)
  | VStr s, VInt n | VInt n, VStr s => inr (VStr (str_repeat s (Z.to_nat n)))
  | VList l, VInt n | VInt n, VList l => inr (VList (list_repeat l (Z.to_nat n)))
  | _, _ => inl TypeError
  end.

(** [a / b] on floats *)
Definition float_div (a b : Qc) : exn + Qc :=
  if decide (b = 0%Qc) then inl ZeroDivisionError else inr (a / b)%Qc.

(** [x / y] on integers: the quotient as a float, "division by zero" or
    "integer division result too large for a float". *)
Definition int_truediv (x y : Z) : exn + Qc :=
  if decide (y = 0) then inl ZeroDivisionError
  else if too_large (float_of_int x / float_of_int y)%Qc then inl OverflowError
  else inr (float_of_int x / float_of_int y)%Qc.

(** [a / b] (true division): an integer that meets a float is converted
    before the divisor is tested. *)
Definition truediv (a b : value) : exn + value :=
  match a, b with
  | VInt x, VInt y =>
      match int_truediv x y with
      | inl e => inl e
      | inr q => inr (VFloat q)
      end
  | VInt x, VFloat y =>
      match to_float x with
      | inl e => inl e
      | inr fx =>
          match float_div fx y with
          | inl e => inl e
          | inr q => inr (VFloat q)
          end
      end
  | VFloat x, VInt y =>
      match to_float y with
      | inl e => inl e
      | inr fy =>
          match float_div x fy with
          | inl e => inl e
          | inr q => inr (VFloat q)
          end
      end
  | VFloat x, VFloat y =>
      match float_div x y with
      | inl e => inl e
      | inr q => inr (VFloat q)
      end
  | _, _ => inl TypeError
  end.

(** A value whose conversion to a float cannot overflow: a string, a
    list, a float, or an integer below [bound] in magnitude. *)
Definition within (bound : Z) (v : value) : Prop :=
  match v with
  | VInt z => Z.abs z < bound
  | _ => True
  end.

(** A number is moderate below 2^500 in magnitude, far beyond any count
    of cores or clock speed: no product of two or three moderate numbers
    leaves the range of a float. *)
Definition moderate (v : value) : Prop :=
  match v with
  | VInt z => Z.abs z < 2 ^ 500
  | VFloat q => (float_of_int (- 2 ^ 500) < q ∧ q < float_of_int (2 ^ 500))%Qc
  | _ => True
  end.

(** [a < z], [a >= z], [a > z] for an integer literal [z]: a number
    compares by value, anything else against an integer is a [TypeError]. *)
Definition cmp_lt (a : value) (z : Z) : exn + bool :=
  match as_number a with
  | Some x => inr (bool_decide (x < float_of_int z)%Qc)
  | None => inl TypeError
  end.

Definition cmp_ge (a : value) (z : Z) : exn + bool :=
  match as_number a with
  | Some x => inr (bool_decide (float_of_int z ≤ x)%Qc)
  | None => inl TypeError
  end.

Definition cmp_gt (a : value) (z : Z) : exn + bool :=
  match as_number a with
  | Some x => inr (bool_decide (float_of_int z < x)%Qc)
  | None => inl TypeError
  end.

(** [range(start, stop, step)].  A zero step is a [ValueError] in
    Python; every call in the source passes a non-zero literal. *)
Definition range_len (start stop step : Z) : Z :=
  if decide (0 < step) then (stop - start + step - 1) `div` step
  else if decide (step < 0) then (start - stop - step - 1) `div` (- step)
  else 0.

Fixpoint range_from (start step : Z) (count : nat) : list Z :=
  match count with
  | O => []
  | S count' => start :: range_from (start + step) step count'
  end.

Definition range3 (start stop step : Z) : list Z :=
  range_from start step (Z.to_nat (range_len start stop step)).

(** [range(start, stop)] and [range(stop)] *)
Definition range2 (start stop : Z) : list Z := range3 start stop 1.
Definition range (stop : Z) : list Z := range3 0 stop 1.

(** [lst.sort()] on a list of integers.  The built-in sort is a stable
    merge sort; it is modelled by the merge sort on [Z.le]. *)
Definition list_sort (l : list Z) : list Z := merge_sort Z.le l.

(** Pieces of an f-string: literal text and formatted values (the
    format specification is kept, the digits are not rendered). *)
Inductive piece : Type :=
| Lit (s : string)
| Fmt (spec : string) (v : value).

Definition line : Type := list piece.

(** [f"{v:.2f}"] and the like: only numbers accept a float format. *)
Definition format_float (spec : string) (v : value) : exn + piece :=
  match v with
  | VInt _ | VFloat _ => inr (Fmt spec v)
  | VStr _ => inl ValueError
  | VList _ => inl TypeError
  end.

Definition nl : string := String "010"%char "".

End Py.
Import Py.

(** ** The analyzer's state and its monad *)

(** [results] is [self.results]; [console] is what has been printed so
    far; [clock] gives the successive readings of [time.time()] (seconds)
    and [ticks] counts the readings already taken. *)
Record state : Type := mkState {
  results : gmap string value;
  console : list line;
  clock : nat → Qc;
  ticks : nat }.

(** A computation updates the state and either raises or returns.  The
    state survives an exception, as a mutated dict and printed lines do. *)
Definition M (A : Type) : Type := state → state * (exn + A).

#[export] Instance M_ret : MRet M := λ A x s, (s, inr x).

#[export] Instance M_bind : MBind M := λ A B f m s,
  match m s with
  | (s', inl e) => (s', inl e)
  | (s', inr a) => f a s'
  end.

(** An operation that may raise, run as a computation. *)
Definition lift {A} (r : exn + A) : M A := λ s, (s, r).

(** The three ways the state changes: a line is printed, an entry of
    the store is written, the clock is read. *)
Definition log (l : line) (s : state) : state :=
  mkState (results s) (console s ++ [l]) (clock s) (ticks s).

Definition store (k : string) (v : value) (s : state) : state :=
  mkState (<[k:=v]> (results s)) (console s) (clock s) (ticks s).

Definition tick (s : state) : state :=
  mkState (results s) (console s) (clock s) (S (ticks s)).

(** [print(...)] *)
Definition print (l : line) : M unit := λ s, (log l s, inr tt).

(** [time.time()] *)
Definition time_time : M Qc := λ s, (tick s, inr (clock s (ticks s))).

(** [self.results[k] = v] *)
Definition results_set (k : string) (v : value) : M unit := λ s,
  (store k v s, inr tt).

(** [self.results.get(k)] *)
Definition results_get (k : string) : M (option value) := λ s,
  (s, inr (results s !! k)).

(** [self.results[k]] *)
Definition results_item (k : string) : M value := λ s,
  match results s !! k with
  | Some v => (s, inr v)
  | None => (s, inl KeyError)
  end.

(** [k in self.results] *)
Definition results_contains (k : string) : M bool := λ s,
  (s, inr (bool_decide (is_Some (results s !! k)))).

(** [for x in l: body(x)] *)
Fixpoint for_each {A} (l : list A) (body : A → M unit) : M unit :=
  match l with
  | [] => mret tt
  | x :: l' => body x;; for_each l' body
  end.

(** ["="*70] *)
Definition rule : string := str_repeat "=" 70.

(** ** The benchmark workloads *)

(** The loop of [benchmark_single_core_arithmetic]:
    [total = 0; for i in range(iterations): total += i]. *)
Definition arithmetic_loop (iterations : Z) : Z :=
  foldl (λ total i, total + i) 0 (range iterations).

(** [fib], local to [benchmark_fibonacci_single_thread]. *)
Equations? fib (n : Z) : Z by wf (Z.to_nat n) lt :=
  fib n with Z_le_gt_dec n 1 := {
    | left _ => n
    | right _ => fib (n - 1) + fib (n - 2) }.
Proof. all: lia. Qed.

(** The loop of [is_prime]:
    [for i in ...: if n % i == 0: return False] followed by [return True]. *)
Fixpoint trial_division (n : Z) (candidates : list Z) : bool :=
  match candidates with
  | [] => true
  | i :: rest => if n `mod` i =? 0 then false else trial_division n rest
  end.

(** [is_prime], local to [benchmark_prime_finding], over the function that
    computes [int(math.sqrt(n))]. *)
Definition is_prime_with (int_sqrt : Z → Z) (n : Z) : bool :=
  if n <? 2 then false
  else if n =? 2 then true
  else if n `mod` 2 =? 0 then false
  else trial_division n (range3 3 (int_sqrt n + 1) 2).

(** [int(math.sqrt(n))] with the square root taken exactly. *)
Definition int_sqrt (n : Z) : Z := Z.sqrt n.

Definition is_prime (n : Z) : bool := is_prime_with int_sqrt n.

(** [primes = [n for n in range(2, limit) if is_prime(n)]] *)
Definition primes_with (isq : Z → Z) (limit : Z) : list Z :=
  filter (λ n, is_prime_with isq n = true) (range2 2 limit).

Definition primes (limit : Z) : list Z := primes_with int_sqrt limit.

(** [len(primes)] *)
Definition primes_found (limit : Z) : Z := Z.of_nat (length (primes limit)).

(** [lst = list(range(size, 0, -1))] *)
Definition descending (size : Z) : list Z := range3 size 0 (-1).

(** The list of [benchmark_memory_intensive] after [lst.sort()]. *)
Definition sorted_descending (size : Z) : list Z := list_sort (descending size).

(** ** The benchmarks as methods of the analyzer *)

Definition benchmark_single_core_arithmetic (iterations : Z) : M Qc :=
  print [Lit (nl +:+ rule)];;
  print [Lit "SINGLE-CORE ARITHMETIC BENCHMARK"];;
  print [Lit "("; Fmt "," (VInt iterations); Lit " operations)"];;
  print [Lit rule];;
  start ← time_time;
  let total := arithmetic_loop iterations in
  stop ← time_time;
  let duration := (stop - start)%Qc in
  let duration_ms := (duration * float_of_int 1000)%Qc in
  ops_per_sec ← lift (float_div (float_of_int iterations) duration);
  gops ← lift (float_div ops_per_sec (float_of_int 1000000000));
  print [Lit "Time: "; Fmt ".2f" (VFloat duration_ms); Lit " ms"];;
  print [Lit "Throughput: "; Fmt ",.0f" (VFloat ops_per_sec); Lit " ops/sec"];;
  print [Lit "Gigaops: "; Fmt ".3f" (VFloat gops); Lit " GOPS"];;
  results_set "arithmetic_benchmark_ms" (VFloat duration_ms);;
  results_set "arithmetic_gops" (VFloat gops);;
  mret duration_ms.

Definition benchmark_fibonacci_single_thread (n : Z) : M unit :=
  print [Lit (nl +:+ rule)];;
  print [Lit "FIBONACCI BENCHMARK (n="; Fmt "" (VInt n); Lit ")"];;
  print [Lit "(Recursive, CPU-bound)"];;
  print [Lit rule];;
  start ← time_time;
  let result := fib n in
  stop ← time_time;
  let duration := (stop - start)%Qc in
  let duration_ms := (duration * float_of_int 1000)%Qc in
  print [Lit "Fib("; Fmt "" (VInt n); Lit ") = "; Fmt "" (VInt result)];;
  print [Lit "Time: "; Fmt ".2f" (VFloat duration_ms); Lit " ms"];;
  results_set "fibonacci_ms" (VFloat duration_ms).

Definition benchmark_prime_finding (limit : Z) : M unit :=
  print [Lit (nl +:+ rule)];;
  print [Lit "PRIME NUMBER BENCHMARK"];;
  print [Lit "(Finding primes up to "; Fmt "," (VInt limit); Lit ")"];;
  print [Lit rule];;
  start ← time_time;
  let found := primes_found limit in
  stop ← time_time;
  let duration := (stop - start)%Qc in
  let duration_ms := (duration * float_of_int 1000)%Qc in
  numbers_per_sec ← lift (float_div (float_of_int limit) duration);
  print [Lit "Primes found: "; Fmt "" (VInt found)];;
  print [Lit "Time: "; Fmt ".2f" (VFloat duration_ms); Lit " ms"];;
  print [Lit "Numbers checked per sec: "; Fmt ",.0f" (VFloat numbers_per_sec)];;
  results_set "prime_finding_ms" (VFloat duration_ms);;
  results_set "primes_found" (VInt found).

Definition benchmark_memory_intensive (size : Z) : M unit :=
  print [Lit (nl +:+ rule)];;
  print [Lit "MEMORY-INTENSIVE BENCHMARK"];;
  print [Lit "(Sorting "; Fmt "," (VInt size); Lit " elements)"];;
  print [Lit rule];;
  print [Lit "Creating list..."];;
  let lst := descending size in
  print [Lit "Sorting..."];;
  start ← time_time;
  let lst := list_sort lst in
  stop ← time_time;
  let duration := (stop - start)%Qc in
  let duration_ms := (duration * float_of_int 1000)%Qc in
  elements_per_sec ← lift (float_div (float_of_int size) duration);
  print [Lit "Time: "; Fmt ".2f" (VFloat duration_ms); Lit " ms"];;
  print [Lit "Elements sorted per sec: "; Fmt ",.0f" (VFloat elements_per_sec)];;
  results_set "sort_benchmark_ms" (VFloat duration_ms).

(** ** Derived metrics *)

(** The body of the loop [for ipc in [1, 2, 3, 4]] of
    [calculate_core_power]. *)
Definition print_peak (cores clock_mhz : value) (ipc : Z) : M unit :=
  x ← lift (mul cores clock_mhz);
  y ← lift (mul x (VInt ipc));
  gflops ← lift (truediv y (VInt 1000));
  shown ← lift (format_float ".1f" gflops);
  print [Lit "  IPC="; Fmt "" (VInt ipc); Lit ": "; shown; Lit " GFLOPS"].

Definition calculate_core_power : M unit :=
  print [Lit (nl +:+ rule)];;
  print [Lit "CORE POWER CALCULATION"];;
  print [Lit rule];;
  has_count ← results_contains "cpu_count";
  has_clock ← results_contains "avg_clock_mhz";
  if negb has_count || negb has_clock then
    print [Lit "⚠️  Insufficient data for calculation"]
  else
    cores ← results_item "cpu_count";
    clock_mhz ← results_item "avg_clock_mhz";
    clock_ghz ← lift (truediv clock_mhz (VInt 1000));
    print [Lit (nl +:+ "Formula: Cores × Clock Speed × IPC (Instructions Per Cycle)")];;
    print [Lit "Cores: "; Fmt "" cores];;
    ghz2 ← lift (format_float ".2f" clock_ghz);
    print [Lit "Clock Speed: "; ghz2; Lit " GHz"];;
    print [Lit (nl +:+ "Theoretical Peak Performance:")];;
    for_each [1; 2; 3; 4] (print_peak cores clock_mhz);;
    let per_core_ghz := clock_ghz in
    print [Lit (nl +:+ "Per-Core Performance:")];;
    ghz1 ← lift (format_float ".1f" clock_ghz);
    print [Lit "  Per core @ "; ghz2; Lit " GHz: ~"; ghz1; Lit " GFLOPS (IPC=1)"];;
    twice ← lift (mul clock_ghz (VInt 2));
    twice1 ← lift (format_float ".1f" twice);
    print [Lit "  Per core @ "; ghz2; Lit " GHz: ~"; twice1; Lit " GFLOPS (IPC=2)"];;
    x1 ← lift (mul cores clock_mhz);
    peak1 ← lift (truediv x1 (VInt 1000));
    results_set "theoretical_peak_gflops_ipc1" peak1;;
    x2 ← lift (mul cores clock_mhz);
    y2 ← lift (mul x2 (VInt 2));
    peak2 ← lift (truediv y2 (VInt 1000));
    results_set "theoretical_peak_gflops_ipc2" peak2;;
    results_set "per_core_gflops" per_core_ghz.

(** ** Performance rating *)

(** The [if]/[elif] chain of [generate_performance_rating] that assigns
    [rating] and [reason]. *)
Definition arithmetic_tier (arithmetic_ms : value) : M (string * string) :=
  b80 ← lift (cmp_lt arithmetic_ms 80);
  if (b80 : bool) then mret ("🟢 EXCELLENT", "Well-provisioned, no throttling")
  else
    b150 ← lift (cmp_lt arithmetic_ms 150);
    if (b150 : bool) then mret ("🟢 GOOD", "Normal performance")
    else
      b250 ← lift (cmp_lt arithmetic_ms 250);
      if (b250 : bool) then mret ("🟡 ACCEPTABLE", "Some system load or throttling")
      else
        b400 ← lift (cmp_lt arithmetic_ms 400);
        if (b400 : bool) then mret ("🟠 DEGRADED", "Possible thermal throttling")
        else mret ("🔴 POOR", "Significant throttling or overload").

(** The branch taken when [arithmetic_ms] is truthy. *)
Definition rate_arithmetic (arithmetic_ms : value) : M unit :=
  shown ← lift (format_float ".2f" arithmetic_ms);
  print [Lit (nl +:+ "Arithmetic Performance: "); shown; Lit " ms (100M ops)"];;
  '(rating, reason) ← arithmetic_tier arithmetic_ms;
  print [Lit "Rating: "; Fmt "" (VStr rating)];;
  print [Lit "Reason: "; Fmt "" (VStr reason)].

(** The branch taken when [cores] is truthy. *)
Definition rate_cores (cores : value) : M unit :=
  print [Lit (nl +:+ "GitHub Actions Comparison:")];;
  b4 ← lift (cmp_ge cores 4);
  if (b4 : bool) then print [Lit "  ✓ Public Repo tier (4+ cores)"]
  else
    b2 ← lift (cmp_ge cores 2);
    if (b2 : bool) then print [Lit "  ✓ Private Repo tier (2+ cores)"]
    else
      plural ← lift (cmp_gt cores 1);
      print [Lit "  ⚠️  Limited tier ("; Fmt "" cores; Lit " core";
             Fmt "" (VStr (if (plural : bool) then "s" else "")); Lit ")"].

(** [arithmetic_ms = self.results.get("arithmetic_benchmark_ms")] and the
    [if arithmetic_ms:] block. *)
Definition rate_arithmetic_step : M unit :=
  arithmetic_ms ← results_get "arithmetic_benchmark_ms";
  match arithmetic_ms with
  | Some v => if truthy v then rate_arithmetic v else mret tt
  | None => mret tt
  end.

(** [cores = self.results.get("cpu_count")] and the [if cores:] block. *)
Definition rate_cores_step : M unit :=
  cores ← results_get "cpu_count";
  match cores with
  | Some v => if truthy v then rate_cores v else mret tt
  | None => mret tt
  end.

Definition generate_performance_rating : M unit :=
  print [Lit (nl +:+ rule)];;
  print [Lit "PERFORMANCE RATING"];;
  print [Lit rule];;
  rate_arithmetic_step;;
  rate_cores_step.

(** ** Reference definitions taken from the specification *)

(** The canonical Fibonacci sequence: Fib(0) = 0, Fib(1) = 1,
    Fib(n+2) = Fib(n+1) + Fib(n). *)
Fixpoint canonical_fib (n : nat) : Z :=
  match n with
  | O => 0
  | S m => match m with
           | O => 1
           | S k => canonical_fib m + canonical_fib k
           end
  end.

(** Two consecutive members of the sequence, computed in step. *)
Fixpoint fib_pair (n : nat) : Z * Z :=
  match n with
  | O => (0, 1)
  | S m => let '(a, b) := fib_pair m in (b, a + b)
  end.

(** The reference sieve (Eratosthenes): keep the head of the candidate
    list, strike its multiples from the rest, and go on with what is left. *)
Fixpoint sieve_steps (fuel : nat) (candidates : list Z) : list Z :=
  match fuel, candidates with
  | S fuel', p :: rest =>
      p :: sieve_steps fuel' (filter (λ m, m `mod` p ≠ 0) rest)
  | _, _ => []
  end.

(** The primes below [limit] according to the sieve: one step per
    candidate is always enough. *)
Definition sieve (limit : Z) : list Z :=
  sieve_steps (Z.to_nat limit) (seqZ 2 (limit - 2)).

(** The formula of the specification:
    theoretical_peak_gflops(ipc) = cores × clock_mhz × ipc / 1000. *)
Definition theoretical_peak_gflops (cores clock_mhz : Qc) (ipc : Z) : Qc :=
  (cores * clock_mhz * float_of_int ipc / float_of_int 1000)%Qc.

(** The duration a benchmark started in state [s] measures: the
    difference of the next two readings of the clock, in seconds. *)
Definition elapsed (s : state) : Qc :=
  (clock s (S (ticks s)) - clock s (ticks s))%Qc.

(** A state to start from: a given store, nothing printed yet, and a
    clock that reads [t0] first and [t1] from then on. *)
Definition fresh (r : gmap string value) (t0 t1 : Qc) : state :=
  mkState r [] (λ n, match n with O => t0 | S _ => t1 end) 0.

(** What [rate_arithmetic] prints for a value and its tier. *)
Definition rated (v : value) (rating reason : string) (s : state) : state :=
  log [Lit "Reason: "; Fmt "" (VStr reason)]
    (log [Lit "Rating: "; Fmt "" (VStr rating)]
       (log [Lit (nl +:+ "Arithmetic Performance: "); Fmt ".2f" v;
             Lit " ms (100M ops)"] s)).

(** Lines appended to the console. *)
Definition logs (ls : list line) (s : state) : state :=
  mkState (results s) (console s ++ ls) (clock s) (ticks s).

(** The state with one key removed from the store. *)
Definition without (k : string) (s : state) : state :=
  mkState (delete k (results s)) (console s) (clock s) (ticks s).

(** A computation that only prints: its lines and its outcome do not
    depend on the state it starts from. *)
Definition logger {A} (m : M A) : Prop :=
  ∃ (ls : list line) (r : exn + A), ∀ s, m s = (logs ls s, r).

(** ** IEEE 754 binary64

    The float operations of the source on concrete arguments, in the
    arithmetic of Python's [float]: 53 bits of precision, round to nearest
    even. *)

Module Binary64.

Definition prec : Z := 53.
Definition emax : Z := 1024.

(** [float(n)]: the nearest double.  An integer too large for a double is
    an [OverflowError], here [None]. *)
Definition of_int (n : Z) : option spec_float :=
  match binary_normalize prec emax n 0 false with
  | S754_infinity _ => None
  | f => Some f
  end.

(** [int(x)]: truncation towards zero, undefined on infinities and NaN. *)
Definition to_int (f : spec_float) : option Z :=
  match f with
  | S754_zero _ => Some 0
  | S754_finite s m e =>
      let a := if 0 <=? e then Z.pos m * 2 ^ e else Z.pos m `div` 2 ^ (- e) in
      Some (if s then - a else a)
  | S754_infinity _ | S754_nan => None
  end.

Definition mul (x y : spec_float) : spec_float := SFmul prec emax x y.
Definition div (x y : spec_float) : spec_float := SFdiv prec emax x y.
Definition sqrt (x : spec_float) : spec_float := SFsqrt prec emax x.

(** [int(math.sqrt(n))]; [None] where Python raises. *)
Definition int_sqrt (n : Z) : option Z :=
  f ← of_int n; to_int (sqrt f).

(** [(cores * clock_mhz * ipc) / 1000] on an integer core count and a
    clock given as a whole number of MHz. *)
Definition peak (cores clock_mhz ipc : Z) : option spec_float :=
  c ← of_int cores; m ← of_int clock_mhz; i ← of_int ipc; k ← of_int 1000;
  Some (div (mul (mul c m) i) k).

(** [float(2)] and [float(1000)] *)
Definition two : spec_float := binary_normalize prec emax 2 0 false.
Definition thousand : spec_float := binary_normalize prec emax 1000 0 false.

(** A double that is zero, or normal with a magnitude from 2^-1012 up to
    but not including 2^1023: twice it is still a double, and a thousandth
    of it is still normal. *)
Definition scales (t : spec_float) : Prop :=
  match t with
  | S754_zero _ => True
  | S754_finite _ m e => Z.pos (digits2_pos m) = 53 ∧ -1064 ≤ e ≤ 970
  | _ => False
  end.

(** What rounding does to a mantissa of more than 53 bits: the bits
    beyond the 53rd are shifted out, and the rest is rounded to nearest
    even by what they were. *)
Definition shifted (m : Z) (l : location) (n : Z) : shr_record :=
  fst (shr (shr_record_of_loc m l) 0 n).

Definition rounded (m : Z) (l : location) : Z :=
  let mrs := shifted m l (Zdigits2 m - 53) in
  round_nearest_even (shr_m mrs) (loc_of_shr_record mrs).

End Binary64.

(** [int(math.sqrt(n))] in binary64, with 0 where Python raises
    ([is_prime] only asks for [n] from 3 on). *)
Definition int_sqrt_binary64 (n : Z) : Z := default 0 (Binary64.int_sqrt n).

(** What the sieve maintains about its candidate list: it is strictly
    increasing, holds numbers from 2 on, and holds every prime divisor of
    each of its members. *)
Definition sieve_inv (l : list Z) : Prop :=
  StronglySorted Z.lt l
  ∧ Forall (λ m, 2 ≤ m) l
  ∧ ∀ m q, m ∈ l → Z.prime q → (q | m) → q ∈ l.

(** ** What the methods keep *)

(** What a method keeps of the state it starts from: the lines printed so
    far stay in place (new ones are appended), the clock is the same and
    is only read forwards, no entry of the store is deleted, and an entry
    under a key outside [keys] keeps its value. *)
Definition preserves (keys : gset string) (s s' : state) : Prop :=
  console s `prefix_of` console s'
  ∧ clock s' = clock s
  ∧ (ticks s ≤ ticks s')%nat
  ∧ dom (results s) ⊆ dom (results s')
  ∧ ∀ k, k ∉ keys → results s' !! k = results s !! k.

(** A computation that writes to the store under [keys] only, whatever
    state it starts from and whether it returns or raises. *)
Definition writes_only {A} (keys : gset string) (m : M A) : Prop :=
  ∀ s, preserves keys s (fst (m s)).

(** The benchmark and analysis steps of [run_all_tests], from the first
    benchmark to the rating. *)
Definition run_benchmarks : M unit :=
  arithmetic_time ← benchmark_single_core_arithmetic 100000000;
  benchmark_fibonacci_single_thread 35;;
  benchmark_prime_finding 100000;;
  benchmark_memory_intensive 5000000;;
  calculate_core_power;;
  generate_performance_rating.

(** The duration measured by the [i]-th benchmark started from [s], each
    benchmark reading the clock twice. *)
Definition elapsed_at (i : nat) (s : state) : Qc :=
  (clock s (S (2 * i + ticks s)) - clock s (2 * i + ticks s))%Qc.

(** The lines of the core-count comparison. *)
Definition compared (tier : line) (s : state) : state :=
  log tier (log [Lit (nl +:+ "GitHub Actions Comparison:")] s).


(** ** Text

    A Python [str] is kept as the bytes of its UTF-8 encoding.  The
    methods below are the ones the probes call; the separators and
    prefixes they are called with are ASCII, so working on the bytes gives
    the result Python computes on the characters. *)

Module Str.

(** [s.startswith(prefix)] *)
Fixpoint startswith (prefix s : string) : bool :=
  match prefix, s with
  | EmptyString, _ => true
  | String a prefix', String b s' => Ascii.eqb a b && startswith prefix' s'
  | String _ _, EmptyString => false
  end.

(** [needle in s] *)
Fixpoint contains (needle s : string) : bool :=
  startswith needle s
  || match s with
     | EmptyString => false
     | String _ s' => contains needle s'
     end.

(** [s.split(sep)] for a separator of one character: the pieces between
    the separators, always at least one. *)
Fixpoint split (sep : ascii) (s : string) : list string :=
  match s with
  | EmptyString => [EmptyString]
  | String c s' =>
      if Ascii.eqb c sep then EmptyString :: split sep s'
      else match split sep s' with
           | piece :: pieces => String c piece :: pieces
           | [] => [String c EmptyString]
           end
  end.

Definition bytes (codes : list N) : string :=
  foldr (λ code s, String (ascii_of_N code) s) EmptyString codes.

(** The characters [str.isspace] accepts, which [strip()] and [split()]
    remove: U+0009 to U+000D, U+001C to U+0020, U+0085, U+00A0, U+1680,
    U+2000 to U+200A, U+2028, U+2029, U+202F, U+205F and U+3000, each as
    its UTF-8 bytes. *)
Definition whitespace : list string :=
  map bytes
    [ [9]; [10]; [11]; [12]; [13]; [28]; [29]; [30]; [31]; [32];
      [194; 133]; [194; 160]; [225; 154; 128];
      [226; 128; 128]; [226; 128; 129]; [226; 128; 130]; [226; 128; 131];
      [226; 128; 132]; [226; 128; 133]; [226; 128; 134]; [226; 128; 135];
      [226; 128; 136]; [226; 128; 137]; [226; 128; 138];
      [226; 128; 168]; [226; 128; 169]; [226; 128; 175]; [226; 129; 159];
      [227; 128; 128] ]%N.

(** The number of bytes of the character from [table] that [s] starts
    with, 0 when it starts with none. *)
Definition width (table : list string) (s : string) : nat :=
  match list_find (λ w, startswith w s = true) table with
  | Some (_, w) => String.length w
  | None => 0
  end.

(** [s] without the characters of [table] it starts with; [skip] counts
    the bytes still to drop of the character being removed. *)
Fixpoint lstrip_table (table : list string) (skip : nat) (s : string) : string :=
  match s with
  | EmptyString => EmptyString
  | String c s' =>
      match skip with
      | S skip' => lstrip_table table skip' s'
      | O =>
          match width table s with
          | S skip' => lstrip_table table skip' s'
          | O => s
          end
      end
  end.

(** [s.lstrip()], [s.rstrip()] and [s.strip()] *)
Definition lstrip (s : string) : string := lstrip_table whitespace 0 s.

Definition rstrip (s : string) : string :=
  String.rev (lstrip_table (map String.rev whitespace) 0 (String.rev s)).

Definition strip (s : string) : string := rstrip (lstrip s).

(** [s.strip(c)] for one character [c] *)
Definition strip_char (c : ascii) (s : string) : string :=
  String.rev
    (lstrip_table [String c EmptyString] 0
       (String.rev (lstrip_table [String c EmptyString] 0 s))).

Definition word_end (word : string) : list string :=
  if decide (word = EmptyString) then [] else [word].

(** The words of [s] after the word [word] begun before it. *)
Fixpoint words (skip : nat) (word : string) (s : string) : list string :=
  match s with
  | EmptyString => word_end word
  | String c s' =>
      match skip with
      | S skip' => words skip' word s'
      | O =>
          match width whitespace s with
          | S skip' => word_end word ++ words skip' EmptyString s'
          | O => words 0 (word +:+ String c EmptyString) s'
          end
      end
  end.

(** [s.split()]: the words between runs of whitespace. *)
Definition split_whitespace (s : string) : list string := words 0 EmptyString s.

End Str.

(** ** Parsing numbers

    [int(s)] and [float(s)] on a string are not modelled: the probes are
    defined over any pair of functions that give the number read, or
    [None] where Python raises [ValueError]. *)
Class Builtins : Type := {
  py_int : string → option Z;
  py_float : string → option Qc }.

(** A reader of plain decimal numerals, to run the probes on examples: on
    the short strings of digits the examples hold it gives the number
    [int] and [float] give. *)
Fixpoint decimal_digits (acc : Z) (s : string) : option Z :=
  match s with
  | EmptyString => Some acc
  | String c s' =>
      let d := Z.of_N (N_of_ascii c) - 48 in
      if bool_decide (0 ≤ d ≤ 9) then decimal_digits (10 * acc + d) s' else None
  end.

Definition decimal (s : string) : option Z :=
  if decide (s = EmptyString) then None else decimal_digits 0 s.

Definition decimal_builtins : Builtins :=
  {| py_int := decimal; py_float := λ s, float_of_int <$> decimal s |}.

(** ** The probes of the operating system

    Each probe is a function of what it reads from the system: the output
    of a command, the text of a file, or the files a directory holds. *)

Section Probes.
Context {builtins : Builtins}.

(** The body of the loop of [get_cpu_specs] over the lines of the
    output.  The only statement outside an inner [try] that can raise is
    [line.split(":")[1]] on a line with "Model name" and no colon, an
    [IndexError]; the body returns [false] there and [true] where it
    completes. *)
Definition cpu_specs_line (line : string) : M bool :=
  if Str.contains "Model name" line then
    match Str.split ":" line !! 1%nat with
    | None => mret false
    | Some field =>
        let cpu_model := Str.strip field in
        results_set "cpu_model" (VStr cpu_model);;
        print [Lit (nl +:+ "→ CPU Model: "); Fmt "" (VStr cpu_model)];;
        mret true
    end
  else if Str.contains "CPU(s)" line && Str.contains ":" line then
    match Str.split ":" line !! 1%nat ≫= λ field, py_int (Str.strip field) with
    | Some cpus =>
        print [Lit "→ Total CPUs: "; Fmt "" (VInt cpus)];;
        results_set "cpu_count" (VInt cpus);;
        mret true
    | None => mret true
    end
  else if Str.contains "Thread(s) per core" line then
    match Str.split ":" line !! 1%nat ≫= λ field, py_int (Str.strip field) with
    | Some threads =>
        print [Lit "→ Threads per core: "; Fmt "" (VInt threads)];;
        mret true
    | None => mret true
    end
  else mret true.

(** The loop: it stops at the first line whose body raises. *)
Fixpoint cpu_specs_lines (lines : list string) : M bool :=
  match lines with
  | [] => mret true
  | line :: rest =>
      completed ← cpu_specs_line line;
      if (completed : bool) then cpu_specs_lines rest else mret false
  end.

(** [get_cpu_specs], given what [subprocess.check_output(["lscpu"]).decode()]
    gives: the text of the output, or the message of the exception it
    raises. *)
Definition get_cpu_specs (lscpu : string + string) : M unit :=
  print [Lit (nl +:+ rule)];;
  print [Lit "CPU SPECIFICATIONS"];;
  print [Lit rule];;
  match lscpu with
  | inl message => print [Lit "Error running lscpu: "; Fmt "" (VStr message)]
  | inr output =>
      print [Fmt "" (VStr output)];;
      completed ← cpu_specs_lines (Str.split "010" output);
      if (completed : bool) then mret tt
      else print [Lit "Error running lscpu: ";
                  Fmt "" (VStr "list index out of range")]
  end.

(** The first loop of [get_cpu_frequencies]: the values of the lines
    that start with "cpu MHz" and whose field after the first colon
    [float] accepts, in the order of the lines. *)
Definition mhz_values (content : string) : list Qc :=
  foldl (λ values line,
           if Str.startswith "cpu MHz" line then
             match Str.split ":" line !! 1%nat
                   ≫= λ field, py_float (Str.strip field) with
             | Some mhz => values ++ [mhz]
             | None => values
             end
           else values)
    [] (Str.split "010" content).

(** [sum(values)] *)
Definition sum (values : list Qc) : Qc := foldl Qcplus 0%Qc values.

(** The body of the loop over [enumerate(mhz_values[:8])]. *)
Definition print_core (core : nat * Qc) : M unit :=
  ghz ← lift (float_div core.2 (float_of_int 1000));
  print [Lit "  Core "; Fmt "" (VInt (Z.of_nat core.1)); Lit ": ";
         Fmt ".2f" (VFloat core.2); Lit " MHz ("; Fmt ".2f" (VFloat ghz);
         Lit " GHz)"].

(** The block under [if mhz_values:]. *)
Definition report_clocks (mhz_values : list Qc) : M unit :=
  if truthy (VList mhz_values) then
    print [Lit (nl +:+ "Clock speeds for each core:")];;
    for_each (imap pair (take 8 mhz_values)) print_core;;
    (if bool_decide (8 < length mhz_values)%nat then
       print [Lit "  ... and ";
              Fmt "" (VInt (Z.of_nat (length mhz_values) - 8));
              Lit " more cores"]
     else mret tt);;
    avg_mhz ← lift (float_div (sum mhz_values)
                      (float_of_int (Z.of_nat (length mhz_values))));
    avg_ghz ← lift (float_div avg_mhz (float_of_int 1000));
    print [Lit (nl +:+ "Average Clock Speed: "); Fmt ".2f" (VFloat avg_mhz);
           Lit " MHz ("; Fmt ".2f" (VFloat avg_ghz); Lit " GHz)"];;
    results_set "avg_clock_mhz" (VFloat avg_mhz);;
    results_set "all_clock_speeds" (VList mhz_values)
  else mret tt.

(** The loop over the [policy*] directories, each given by the text of
    its [cpuinfo_max_freq], [None] where the file does not exist: the
    first file that exists is read and the loop ends. *)
Fixpoint max_frequency (policies : list (option string)) : M unit :=
  match policies with
  | [] => mret tt
  | None :: rest => max_frequency rest
  | Some content :: _ =>
      max_freq_khz ← lift (match py_int (Str.strip content) with
                           | Some khz => inr khz
                           | None => inl ValueError
                           end);
      max_freq_mhz ← lift (int_truediv max_freq_khz 1000);
      print [Lit (nl +:+ "Max Frequency (sysfs): ");
             Fmt ".2f" (VFloat max_freq_mhz); Lit " MHz"];;
      results_set "max_freq_mhz" (VFloat max_freq_mhz)
  end.

(** [get_cpu_frequencies], given the text of [/proc/cpuinfo] ([None]
    where it does not exist) and the policy directories. *)
Definition get_cpu_frequencies
    (cpuinfo : option string) (policies : list (option string)) : M unit :=
  print [Lit (nl +:+ rule)];;
  print [Lit "CPU CLOCK SPEEDS"];;
  print [Lit rule];;
  match cpuinfo with
  | Some content => report_clocks (mhz_values content)
  | None => mret tt
  end;;
  max_frequency policies.

End Probes.

(** *** Probes that raise [IndexError]

    [get_memory_info] and [get_system_info] index a list outside any
    [try] and run commands; what they raise is not all in [exn]. *)
Inductive raised : Type :=
| Exn (e : exn)
| IndexError
| ProcessError.

Definition Probe (A : Type) : Type := state → state * (raised + A).

#[export] Instance Probe_ret : MRet Probe := λ A x s, (s, inr x).

#[export] Instance Probe_bind : MBind Probe := λ A B f m s,
  match m s with
  | (s', inl e) => (s', inl e)
  | (s', inr a) => f a s'
  end.

(** A computation of [M], run as a probe. *)
Definition io {A} (m : M A) : Probe A := λ s,
  match m s with
  | (s', inl e) => (s', inl (Exn e))
  | (s', inr a) => (s', inr a)
  end.

(** [l[i]] *)
Definition item {A} (l : list A) (i : nat) : Probe A := λ s,
  (s, match l !! i with
      | Some x => inr x
      | None => inl IndexError
      end).

(** [subprocess.check_output(...).decode()], given its text, [None]
    where the command cannot be run, fails or prints other than UTF-8. *)
Definition check_output (output : option string) : Probe string := λ s,
  (s, match output with
      | Some text => inr text
      | None => inl ProcessError
      end).

(** [for line in lines: body(line)], and the same loop with a body that
    can [break]: it returns [true] to go on. *)
Fixpoint for_lines (lines : list string) (body : string → Probe unit) : Probe unit :=
  match lines with
  | [] => mret tt
  | line :: rest => body line;; for_lines rest body
  end.

Fixpoint for_lines_break (lines : list string) (body : string → Probe bool) : Probe unit :=
  match lines with
  | [] => mret tt
  | line :: rest =>
      go_on ← body line;
      if (go_on : bool) then for_lines_break rest body else mret tt
  end.

Section MoreProbes.
Context {builtins : Builtins}.

(** [int(text)] *)
Definition int (text : string) : Probe Z := λ s,
  (s, match py_int text with
      | Some z => inr z
      | None => inl (Exn ValueError)
      end).

(** The body of the loop of [get_memory_info] over the lines of
    [/proc/meminfo]. *)
Definition memory_line (line : string) : Probe unit :=
  if Str.startswith "MemTotal" line then
    word ← item (Str.split_whitespace line) 1;
    total_kb ← int word;
    total_gb ← io (lift (int_truediv total_kb (1024 * 1024)));
    io (print [Lit "Total Memory: "; Fmt ".2f" (VFloat total_gb); Lit " GB"]);;
    io (results_set "total_mem_gb" (VFloat total_gb))
  else if Str.startswith "MemAvailable" line then
    word ← item (Str.split_whitespace line) 1;
    avail_kb ← int word;
    avail_gb ← io (lift (int_truediv avail_kb (1024 * 1024)));
    io (print [Lit "Available Memory: "; Fmt ".2f" (VFloat avail_gb); Lit " GB"]);;
    io (results_set "avail_mem_gb" (VFloat avail_gb))
  else mret tt.

(** [get_memory_info], given the lines of [/proc/meminfo], [None] where
    the file does not exist. *)
Definition get_memory_info (meminfo : option (list string)) : Probe unit :=
  io (print [Lit (nl +:+ rule)]);;
  io (print [Lit "MEMORY INFORMATION"]);;
  io (print [Lit rule]);;
  match meminfo with
  | Some lines => for_lines lines memory_line
  | None => mret tt
  end.

End MoreProbes.

(** The body of the loop of [get_system_info] over the lines of
    [/etc/os-release]; it breaks at the first "PRETTY_NAME" line. *)
Definition os_release_line (line : string) : Probe bool :=
  if Str.startswith "PRETTY_NAME" line then
    field ← item (Str.split "=" line) 1;
    let os_name := Str.strip_char "034" (Str.strip field) in
    io (print [Lit "OS: "; Fmt "" (VStr os_name)]);;
    mret false
  else mret true.

(** [get_system_info], given the lines of [/etc/os-release] ([None] where
    it does not exist) and the output of [uname -r] and [uname -m]. *)
Definition get_system_info
    (os_release : option (list string)) (uname_r uname_m : option string) : Probe unit :=
  io (print [Lit (nl +:+ rule)]);;
  io (print [Lit "SYSTEM INFORMATION"]);;
  io (print [Lit rule]);;
  match os_release with
  | Some lines => for_lines_break lines os_release_line
  | None => mret tt
  end;;
  output ← check_output uname_r;
  let kernel := Str.strip output in
  io (print [Lit "Kernel: "; Fmt "" (VStr kernel)]);;
  output ← check_output uname_m;
  let arch := Str.strip output in
  io (print [Lit "Architecture: "; Fmt "" (VStr arch)]);;
  io (results_set "arch" (VStr arch)).

(** *** What a line of the lscpu output or of /proc/meminfo gives *)

Section ProbeReadings.
Context {builtins : Builtins}.

(** A line on which the body of the loop of [get_cpu_specs] raises. *)
Definition model_name_without_colon (line : string) : bool :=
  Str.contains "Model name" line && negb (Str.contains ":" line).

(** The model name and the count a line of the lscpu output stores. *)
Definition cpu_model_of (line : string) : option string :=
  if Str.contains "Model name" line then
    Str.strip <$> Str.split ":" line !! 1%nat
  else None.

Definition cpu_count_of (line : string) : option Z :=
  if Str.contains "Model name" line then None
  else if Str.contains "CPU(s)" line && Str.contains ":" line then
    Str.split ":" line !! 1%nat ≫= λ field, py_int (Str.strip field)
  else None.

(** The mean of the clock speeds. *)
Definition mean (values : list Qc) : Qc :=
  (sum values / float_of_int (Z.of_nat (length values)))%Qc.

(** The kilobytes a line of /proc/meminfo gives for the total and for
    the available memory. *)
Definition total_kb_of (line : string) : option Z :=
  if Str.startswith "MemTotal" line then
    Str.split_whitespace line !! 1%nat ≫= py_int
  else None.

Definition avail_kb_of (line : string) : option Z :=
  if Str.startswith "MemTotal" line then None
  else if Str.startswith "MemAvailable" line then
    Str.split_whitespace line !! 1%nat ≫= py_int
  else None.

(** Kilobytes as gigabytes. *)
Definition gigabytes (kb : Z) : Qc :=
  (float_of_int kb / float_of_int (1024 * 1024))%Qc.

(** A line of /proc/meminfo the loop of [get_memory_info] gets past: if
    it starts with one of the two names, it has a second word, [int]
    accepts the word, and the gigabytes are within the range of a float. *)
Definition memory_line_ok (line : string) : Prop :=
  Str.startswith "MemTotal" line || Str.startswith "MemAvailable" line = true →
  ∃ word kb, Str.split_whitespace line !! 1%nat = Some word
             ∧ py_int word = Some kb
             ∧ too_large (gigabytes kb) = false.

End ProbeReadings.

(** The latest of the readings [reading] takes from [lines], as a value
    of the store; the entry [before] when no line gives one. *)
Definition latest {A} (reading : string → option A) (wrap : A → value)
    (lines : list string) (before : option value) : option value :=
  match last (omap reading lines) with
  | Some x => Some (wrap x)
  | None => before
  end.

(** A computation that returns, whatever state it starts from. *)
Definition never_raises {A} (m : M A) : Prop :=
  ∀ s, ∃ a, snd (m s) = inr a.

(** * Properties *)

(** ** Ranges *)

Lemma range_from_fmap (start step : Z) (count : nat) :
  range_from start step count
  = (λ k, start + k * step) <$> seqZ 0 (Z.of_nat count).
Proof.
  revert start. induction count as [|count IH]; intros start; [done|].
  rewrite seqZ_cons by lia. cbn [range_from fmap list_fmap]. f_equal; [lia|].
  rewrite IH. replace (Z.pred (Z.of_nat (S count))) with (Z.of_nat count) by lia.
  rewrite <- (fmap_add_seqZ 1 0). rewrite <- list_fmap_compose.
  apply list_fmap_ext. intros _ k _. simpl. lia.
Qed.

Lemma range3_fmap (start stop step : Z) :
  range3 start stop step
  = (λ k, start + k * step) <$> seqZ 0 (range_len start stop step).
Proof.
  unfold range3. rewrite range_from_fmap. f_equal.
  unfold seqZ. by rewrite Nat2Z.id.
Qed.

Lemma range2_seqZ (start stop : Z) : range2 start stop = seqZ start (stop - start).
Proof.
  unfold range2. rewrite range3_fmap. unfold range_len.
  rewrite decide_True by lia.
  rewrite Z.div_1_r.
  replace (stop - start + 1 - 1) with (stop - start) by lia.
  transitivity (Z.add start <$> seqZ 0 (stop - start)).
  - apply list_fmap_ext. intros _ k _. lia.
  - rewrite fmap_add_seqZ. f_equal. lia.
Qed.

Lemma range_seqZ (stop : Z) : range stop = seqZ 0 stop.
Proof. change (range stop) with (range2 0 stop). rewrite range2_seqZ. f_equal. lia. Qed.

Lemma elem_of_range2 (start stop k : Z) : k ∈ range2 start stop ↔ start ≤ k < stop.
Proof. rewrite range2_seqZ, elem_of_seqZ. lia. Qed.

(** ** Arithmetic accumulation *)

Lemma arithmetic_loop_nat (n : nat) :
  2 * foldl (λ total i, total + i) 0 (seqZ 0 (Z.of_nat n))
  = Z.of_nat n * (Z.of_nat n - 1).
Proof.
  induction n as [|n IH].
  - reflexivity.
  - rewrite seqZ_S, foldl_app. cbn [foldl]. lia.
Qed.

Lemma arithmetic_loop_twice (N : Z) :
  0 ≤ N → 2 * arithmetic_loop N = N * (N - 1).
Proof.
  intros HN. unfold arithmetic_loop. rewrite range_seqZ.
  pose proof (arithmetic_loop_nat (Z.to_nat N)) as H.
  by rewrite Z2Nat.id in H.
Qed.

(** The test value and the default run of one hundred million additions. *)
Lemma arithmetic_loop_values :
  arithmetic_loop 10 = 45 ∧ arithmetic_loop 100000000 = 4999999950000000.
Proof.
  pose proof (arithmetic_loop_twice 10). pose proof (arithmetic_loop_twice 100000000).
  lia.
Qed.

(** C1: for every N >= 0 the accumulator of the arithmetic benchmark,
    after summing 0, 1, ..., N-1 in order, is exactly N*(N-1)/2. *)
Theorem arithmetic_loop_closed_form (N : Z) :
  0 ≤ N →
  arithmetic_loop N = (N * (N - 1)) `div` 2
  ∧ arithmetic_loop 10 = 45
  ∧ arithmetic_loop 100000000 = 4999999950000000.
Proof.
  intros HN. split; [|exact arithmetic_loop_values].
  rewrite <- (arithmetic_loop_twice N HN).
  by rewrite Z.mul_comm, Z.div_mul.
Qed.

Lemma arithmetic_loop_closed_form_witness :
  0 ≤ 7 ∧ arithmetic_loop 7 = (7 * (7 - 1)) `div` 2.
Proof.
  split; [lia|].
  destruct (arithmetic_loop_closed_form 7) as [H _]; [lia | exact H].
Defined.

(** ** Recursive Fibonacci *)

Lemma fib_eqn (n : Z) :
  fib n = if decide (n ≤ 1) then n else fib (n - 1) + fib (n - 2).
Proof.
  rewrite fib_equation_1. destruct (Z_le_gt_dec n 1); simpl; case_decide; try lia; reflexivity.
Qed.

Lemma fib_base (n : Z) : n ≤ 1 → fib n = n.
Proof. intros H. rewrite fib_eqn. by rewrite decide_True. Qed.

Lemma fib_step (n : Z) : 2 ≤ n → fib n = fib (n - 1) + fib (n - 2).
Proof. intros H. rewrite fib_eqn. by rewrite decide_False by lia. Qed.

Lemma fib_canonical_nat (n : nat) :
  fib (Z.of_nat n) = canonical_fib n ∧ fib (Z.of_nat (S n)) = canonical_fib (S n).
Proof.
  induction n as [|n [IH1 IH2]].
  - split; rewrite fib_base by lia; reflexivity.
  - split; [exact IH2|].
    rewrite fib_step by lia.
    replace (Z.of_nat (S (S n)) - 1) with (Z.of_nat (S n)) by lia.
    replace (Z.of_nat (S (S n)) - 2) with (Z.of_nat n) by lia.
    rewrite IH1, IH2. reflexivity.
Qed.

Lemma fib_pair_canonical (n : nat) :
  fib_pair n = (canonical_fib n, canonical_fib (S n)).
Proof.
  induction n as [|n IH]; [done|].
  cbn [fib_pair]. rewrite IH. cbn [canonical_fib]. f_equal. lia.
Qed.

Lemma canonical_fib_fst (n : nat) : canonical_fib n = fst (fib_pair n).
Proof. by rewrite fib_pair_canonical. Qed.

(** The test value and the value printed by the default run. *)
Lemma fib_values : fib 10 = 55 ∧ fib 35 = 9227465.
Proof.
  change 10 with (Z.of_nat 10). change 35 with (Z.of_nat 35).
  rewrite (proj1 (fib_canonical_nat 10)), (proj1 (fib_canonical_nat 35)).
  rewrite !canonical_fib_fst. split; reflexivity.
Qed.

(** C2: for every N >= 0 the doubly recursive [fib] returns the canonical
    Fibonacci number, and it satisfies the defining equations
    Fib(0) = 0, Fib(1) = 1, Fib(N) = Fib(N-1) + Fib(N-2). *)
Theorem fib_canonical (N : Z) :
  0 ≤ N →
  fib N = canonical_fib (Z.to_nat N)
  ∧ fib 0 = 0 ∧ fib 1 = 1
  ∧ (2 ≤ N → fib N = fib (N - 1) + fib (N - 2))
  ∧ fib 10 = 55 ∧ fib 35 = 9227465.
Proof.
  intros HN. split; [|split; [|split; [|split]]].
  - rewrite <- (Z2Nat.id N) at 1 by done. apply fib_canonical_nat.
  - by rewrite fib_base.
  - by rewrite fib_base.
  - apply fib_step.
  - exact fib_values.
Qed.

Lemma fib_canonical_witness : 0 ≤ 12 ∧ fib 12 = 144.
Proof.
  split; [lia|].
  destruct (fib_canonical 12) as [H _]; [lia|].
  rewrite H. reflexivity.
Defined.

(** ** Lists *)

Section ListFacts.
Context {A : Type}.

Lemma filter_ext_elem (P1 P2 : A → Prop)
    `{!∀ x, Decision (P1 x), !∀ x, Decision (P2 x)} (l : list A) :
  (∀ x, x ∈ l → P1 x ↔ P2 x) → filter P1 l = filter P2 l.
Proof.
  induction l as [|a l IH]; intros Hext; [done|].
  rewrite !filter_cons.
  rewrite IH by (intros x Hx; apply Hext; by right).
  apply decide_ext, Hext. by left.
Qed.

Lemma StronglySorted_filter (R : relation A) (P : A → Prop)
    `{!∀ x, Decision (P x)} (l : list A) :
  StronglySorted R l → StronglySorted R (filter P l).
Proof.
  induction 1 as [|a l Hl IH Hall]; [constructor|].
  rewrite filter_cons. case_decide; [|done].
  constructor; [done|].
  rewrite Forall_forall in Hall |- *.
  intros x [_ Hx]%list_elem_of_filter. by apply Hall.
Qed.

End ListFacts.

(** ** Prime counting *)

Lemma elem_of_range3_up (start stop step k : Z) :
  0 < step →
  k ∈ range3 start stop step ↔ start ≤ k < stop ∧ (step | k - start).
Proof.
  intros Hs. rewrite range3_fmap. unfold range_len.
  rewrite decide_True by done.
  rewrite list_elem_of_fmap. setoid_rewrite elem_of_seqZ.
  split.
  - intros (j & -> & Hj0 & Hj).
    assert (j + 1 ≤ (stop - start + step - 1) `div` step) as Hle by lia.
    assert (step * (j + 1) ≤ stop - start + step - 1) as Hm.
    { etrans; [apply Z.mul_le_mono_nonneg_l; [lia | exact Hle]|].
      apply Z.mul_div_le. done. }
    split; [nia|]. exists j. lia.
  - intros ((Hlo & Hhi) & (j & Hj)).
    exists j. split; [lia|]. split; [nia|].
    assert (j + 1 ≤ (stop - start + step - 1) `div` step); [|lia].
    apply Z.div_le_lower_bound; [done | nia].
Qed.

Lemma trial_division_true (n : Z) (candidates : list Z) :
  trial_division n candidates = true ↔ ∀ i, i ∈ candidates → n `mod` i ≠ 0.
Proof.
  induction candidates as [|i rest IH]; simpl.
  - split; [|done]. intros _ i Hi. by apply elem_of_nil in Hi.
  - destruct (Z.eqb_spec (n `mod` i) 0) as [Heq|Hne].
    + split; [done|]. intros H. exfalso. apply (H i); [left | done].
    + rewrite IH. split.
      * intros H j [->|Hj]%elem_of_cons; auto.
      * intros H j Hj. apply H. by right.
Qed.

(** A number that has a proper divisor has one whose square does not
    exceed it. *)
Lemma small_divisor (n d : Z) :
  1 < d < n → (d | n) → ∃ m, 1 < m ∧ m * m ≤ n ∧ (m | n).
Proof.
  intros Hd [q Hq].
  assert (1 < q) by nia.
  destruct (Z.le_gt_cases d q).
  - exists d. split; [lia|]. split; [nia|]. by exists q.
  - exists q. split; [lia|]. split; [nia|]. exists d. lia.
Qed.

Section TrialDivision.
Variable isq : Z → Z.

(** [is_prime] decides primality at [n] as soon as the bound it is given
    for an odd [n] from 3 on is at least the integer square root of [n]
    and below [n]. *)
Lemma is_prime_with_spec (n : Z) :
  (3 ≤ n → n `mod` 2 ≠ 0 → Z.sqrt n ≤ isq n < n) →
  is_prime_with isq n = true ↔ Z.prime n.
Proof.
  intros Hsq. unfold is_prime_with.
  destruct (Z.ltb_spec n 2) as [Hlt|Hge].
  { split; [done|]. intros [H _]. lia. }
  destruct (Z.eqb_spec n 2) as [->|Hne].
  { split; [|done]. intros _. apply Z.prime_2. }
  destruct (Z.eqb_spec (n `mod` 2) 0) as [Heven|Hodd].
  { split; [done|]. intros [_ H]. exfalso. apply (H 2); [lia|].
    apply Z.mod_divide; [lia | done]. }
  specialize (Hsq ltac:(lia) Hodd).
  rewrite trial_division_true. split.
  - intros Hno. split; [lia|]. intros d Hd Hdiv.
    destruct (small_divisor n d Hd Hdiv) as (m & Hm1 & Hmm & Hmn).
    assert (m ≤ Z.sqrt n) as Hms.
    { apply Z.sqrt_le_square; lia. }
    assert (m `mod` 2 ≠ 0) as Hmodd.
    { intros Hm2. apply Hodd. apply Z.mod_divide in Hm2; [|lia].
      apply Z.mod_divide; [lia|]. by etrans. }
    assert (m ≠ 2) as Hm2 by (intros ->; by apply Hmodd).
    apply (Hno m).
    + apply elem_of_range3_up; [lia|]. split; [lia|].
      apply Z.mod_divide; [lia|].
      rewrite <- Zminus_mod_idemp_l.
      assert (m `mod` 2 = 1) as -> by (pose proof (Z.mod_pos_bound m 2); lia).
      reflexivity.
    + apply Z.mod_divide; [lia | done].
  - intros [_ Hp] i [Hi _]%elem_of_range3_up Hmod; [|lia].
    apply (Hp i); [lia|]. apply Z.mod_divide; [lia | done].
Qed.

End TrialDivision.

(** With such a bound on every candidate below [limit], the benchmark's
    list of primes is the one obtained with the exact square root. *)
Lemma primes_with_exact (isq : Z → Z) (limit : Z) :
  (∀ n, 3 ≤ n < limit → n `mod` 2 ≠ 0 → Z.sqrt n ≤ isq n < n) →
  primes_with isq limit = primes limit.
Proof.
  intros Hsq. unfold primes, primes_with.
  apply filter_ext_elem.
  intros n [Hn2 Hnl]%elem_of_range2.
  rewrite !is_prime_with_spec; [done | |].
  - intros Hn _. unfold int_sqrt. split; [done|].
    apply Z.sqrt_lt_lin. lia.
  - intros Hn Hodd. apply Hsq; [lia | done].
Qed.

Lemma is_prime_spec (n : Z) : is_prime n = true ↔ Z.prime n.
Proof.
  apply is_prime_with_spec. intros Hn _. unfold int_sqrt. split; [done|].
  apply Z.sqrt_lt_lin. lia.
Qed.

Lemma prime_divisor_exists (n : Z) : 2 ≤ n → ∃ q, Z.prime q ∧ (q | n).
Proof.
  intros Hn. assert (0 ≤ n) as Hn0 by lia. revert Hn.
  pattern n. apply Z_lt_induction; [|done]. clear n Hn0.
  intros n IH Hn.
  destruct (is_prime n) eqn:Hp.
  - exists n. split; [by apply is_prime_spec | done].
  - destruct (not_prime_divide n) as (d & Hd & Hdn); [lia| |].
    + intros Hprime%prime_alt%is_prime_spec. congruence.
    + destruct (IH d) as (q & Hq & Hqd); [lia | lia |].
      exists q. split; [done|]. by etrans.
Qed.

Lemma StronglySorted_seqZ (m n : Z) : StronglySorted Z.lt (seqZ m n).
Proof.
  remember (Z.to_nat n) as k eqn:Hk. revert m n Hk.
  induction k as [|k IH]; intros m n Hk.
  - rewrite seqZ_nil by lia. constructor.
  - rewrite seqZ_cons by lia. constructor.
    + apply IH. lia.
    + apply Forall_seqZ. lia.
Qed.

Lemma sieve_inv_seqZ (limit : Z) : sieve_inv (seqZ 2 (limit - 2)).
Proof.
  split; [apply StronglySorted_seqZ|]. split.
  - apply Forall_seqZ. lia.
  - intros m q Hm%elem_of_seqZ Hq Hqm. apply elem_of_seqZ.
    pose proof (Z.prime_ge_2 q Hq).
    assert (q ≤ m) by (apply Z.divide_pos_le; [lia | done]).
    lia.
Qed.

(** The head of a candidate list is prime, and striking its multiples
    keeps the invariant. *)
Lemma sieve_inv_head (p : Z) (rest : list Z) :
  sieve_inv (p :: rest) → Z.prime p.
Proof.
  intros (Hsort & Hall & Hclosed).
  apply StronglySorted_inv in Hsort as [_ Hlt].
  apply Forall_cons in Hall as [Hp2 _].
  destruct (prime_divisor_exists p Hp2) as (q & Hq & Hqp).
  assert (q ≤ p) by (apply Z.divide_pos_le; [lia | done]).
  assert (q ∈ p :: rest) as [->|Hin]%elem_of_cons
    by (apply (Hclosed p); [by left | done | done]); [done|].
  rewrite Forall_forall in Hlt. specialize (Hlt q Hin). lia.
Qed.

Lemma sieve_inv_strike (p : Z) (rest : list Z) :
  sieve_inv (p :: rest) → sieve_inv (filter (λ m, m `mod` p ≠ 0) rest).
Proof.
  intros Hinv. pose proof (sieve_inv_head p rest Hinv) as Hp.
  destruct Hinv as (Hsort & Hall & Hclosed).
  apply StronglySorted_inv in Hsort as [Hsort Hlt].
  apply Forall_cons in Hall as [Hp2 Hall].
  split; [by apply StronglySorted_filter|]. split.
  - rewrite Forall_forall in Hall |- *.
    intros x [_ Hx]%list_elem_of_filter. by apply Hall.
  - intros m q [Hmp Hm]%list_elem_of_filter Hq Hqm.
    apply list_elem_of_filter.
    assert (q ≠ p) as Hne.
    { intros ->. apply Hmp. by apply Z.mod0_divide. }
    split.
    + intros Hqp. apply Z.mod_divide in Hqp; [|lia].
      destruct Hq as [Hq1 Hq]. apply (Hq p); [|done].
      assert (p ≤ q) by (apply Z.divide_pos_le; [lia | done]). lia.
    + assert (q ∈ p :: rest) as [->|Hin]%elem_of_cons
        by (apply (Hclosed m); [by right | done | done]); done.
Qed.

Lemma sieve_steps_spec (fuel : nat) (l : list Z) :
  (length l ≤ fuel)%nat → sieve_inv l →
  sieve_steps fuel l = filter (λ n, is_prime n = true) l.
Proof.
  revert l. induction fuel as [|fuel IH]; intros l Hlen Hinv.
  - destruct l; [done | simpl in Hlen; lia].
  - destruct l as [|p rest]; [done|]. simpl in Hlen.
    pose proof (sieve_inv_head p rest Hinv) as Hp.
    cbn [sieve_steps].
    rewrite filter_cons_True by (by apply is_prime_spec). f_equal.
    rewrite IH.
    + rewrite list_filter_filter. apply filter_ext_elem.
      intros x Hx. split; [by intros [? _]|]. intros Hxp. split; [done|].
      intros Hmod. apply is_prime_spec in Hxp as [_ Hxp].
      destruct Hinv as (Hsort & _ & _).
      apply StronglySorted_inv in Hsort as [_ Hlt].
      rewrite Forall_forall in Hlt. specialize (Hlt x Hx).
      pose proof (Z.prime_ge_2 p Hp).
      apply (Hxp p); [lia|]. apply Z.mod_divide; [lia | done].
    + pose proof (length_filter (λ m, m `mod` p ≠ 0) rest). lia.
    + by apply sieve_inv_strike.
Qed.

(** The sieve and the benchmark produce the same list of primes. *)
Lemma sieve_primes (limit : Z) : sieve limit = primes limit.
Proof.
  unfold sieve, primes, primes_with. rewrite range2_seqZ.
  apply sieve_steps_spec; [|apply sieve_inv_seqZ].
  rewrite length_seqZ. lia.
Qed.

Lemma primes_found_values : primes_found 100 = 25 ∧ primes_found 100000 = 9592.
Proof. split; vm_compute; reflexivity. Qed.

(** ** Sorting *)

Lemma descending_nat (n : nat) :
  range_from (Z.of_nat n) (-1) n = reverse (seqZ 1 (Z.of_nat n)).
Proof.
  induction n as [|n IH]; [done|].
  rewrite seqZ_S, reverse_app. cbn [range_from reverse app].
  replace (Z.of_nat (S n) + -1) with (Z.of_nat n) by lia.
  rewrite IH. simpl. f_equal. lia.
Qed.

(** The list the sort benchmark builds is [size, size-1, ..., 1]. *)
Lemma descending_reverse (size : Z) : descending size = reverse (seqZ 1 size).
Proof.
  unfold descending, range3, range_len.
  rewrite decide_False, decide_True by lia.
  replace (size - 0 - -1 - 1) with size by lia.
  change (- -1) with 1. rewrite Z.div_1_r.
  destruct (Z.le_gt_cases size 0) as [Hle|Hgt].
  - rewrite seqZ_nil by done. by rewrite Z2Nat.nonpos.
  - rewrite <- (Z2Nat.id size) at 1 3 by lia. apply descending_nat.
Qed.

Lemma StronglySorted_le_seqZ (m n : Z) : StronglySorted Z.le (seqZ m n).
Proof.
  pose proof (StronglySorted_seqZ m n) as H.
  induction H as [|a l Hl IH Hall]; constructor; [done|].
  eapply Forall_impl; [exact Hall|]. simpl. lia.
Qed.

(** C9: the sort benchmark builds the descending list of [size] integers
    and sorts it in place; whatever list is sorted, the result is
    non-decreasing and a permutation of the input, and for the list the
    benchmark builds the result is 1, 2, ..., size. *)
Theorem list_sort_sorted_permutation (l : list Z) (size : Z) :
  StronglySorted Z.le (list_sort l)
  ∧ list_sort l ≡ₚ l
  ∧ descending size = reverse (seqZ 1 size)
  ∧ sorted_descending size = seqZ 1 size.
Proof.
  split; [|split; [|split]].
  - apply (StronglySorted_merge_sort Z.le).
  - apply merge_sort_Permutation.
  - apply descending_reverse.
  - unfold sorted_descending, list_sort.
    apply (StronglySorted_unique Z.le).
    + apply (StronglySorted_merge_sort Z.le).
    + apply StronglySorted_le_seqZ.
    + rewrite merge_sort_Permutation, descending_reverse.
      apply reverse_Permutation.
Qed.

(** Sorted, reverse-sorted and empty inputs. *)
Example list_sort_examples :
  list_sort [1; 2; 3; 4] = [1; 2; 3; 4]
  ∧ list_sort [4; 3; 2; 1] = [1; 2; 3; 4]
  ∧ list_sort [] = []
  ∧ list_sort [3; 1; 2; 3; 1] = [1; 1; 2; 3; 3]
  ∧ sorted_descending 0 = [].
Proof. repeat split. Qed.

(** ** Float arithmetic and comparisons *)

Lemma float_of_int_nonzero (z : Z) : z ≠ 0 → float_of_int z ≠ 0%Qc.
Proof.
  intros Hz H. apply Hz. apply Z2Qc_inj. by rewrite Z2Qc_inj_0.
Qed.

Lemma float_div_nonzero (a b : Qc) : b ≠ 0%Qc → float_div a b = inr (a / b)%Qc.
Proof. intros H. unfold float_div. by rewrite decide_False. Qed.

Lemma float_div_zero (a : Qc) : float_div a 0%Qc = inl ZeroDivisionError.
Proof. reflexivity. Qed.

(** An integer below [double_limit] in magnitude converts to a float. *)
Lemma too_large_int (z : Z) :
  Z.abs z < double_limit → too_large (float_of_int z) = false.
Proof.
  intros Hz. unfold too_large, float_of_int. apply bool_decide_eq_false_2.
  rewrite <- !Z2Qc_inj_le. lia.
Qed.

Lemma to_float_fits (z : Z) :
  Z.abs z < double_limit → to_float z = inr (float_of_int z).
Proof. intros Hz. unfold to_float. by rewrite too_large_int. Qed.

(** The quotient of two integers is no larger than the dividend. *)
Lemma too_large_quotient (x y : Z) :
  y ≠ 0 → Z.abs x < double_limit →
  too_large (float_of_int x / float_of_int y)%Qc = false.
Proof.
  intros Hy. unfold too_large, float_of_int. generalize double_limit.
  intros L Hx. apply bool_decide_eq_false_2.
  unfold Qcle, Qcdiv, Qcmult, Qcinv, Qc_of_Z, Q2Qc, this.
  rewrite !Qred_correct.
  destruct y as [|p|p]; [done| |]; unfold Qle, Qmult, Qinv, inject_Z, Qnum, Qden;
    cbn [Z.mul Pos.mul]; rewrite ?Z.mul_1_r, ?Pos.mul_1_l; nia.
Qed.

Lemma int_truediv_run (x y : Z) :
  y ≠ 0 → too_large (float_of_int x / float_of_int y)%Qc = false →
  int_truediv x y = inr (float_of_int x / float_of_int y)%Qc.
Proof. intros Hy Hq. unfold int_truediv. by rewrite decide_False, Hq. Qed.

Lemma int_truediv_overflow (x y : Z) :
  y ≠ 0 → too_large (float_of_int x / float_of_int y)%Qc = true →
  int_truediv x y = inl OverflowError.
Proof. intros Hy Hq. unfold int_truediv. by rewrite decide_False, Hq. Qed.

Lemma int_truediv_fits (x y : Z) :
  y ≠ 0 → Z.abs x < double_limit →
  int_truediv x y = inr (float_of_int x / float_of_int y)%Qc.
Proof.
  intros Hy Hx. unfold int_truediv.
  by rewrite decide_False, too_large_quotient.
Qed.

Lemma moderate_fits : 2 ^ 500 ≤ double_limit.
Proof. by vm_compute. Qed.

Lemma moderate_square_fits : 2 ^ 500 * 2 ^ 500 ≤ double_limit.
Proof. by vm_compute. Qed.

Lemma moderate_limit : 2 ^ 500 * 2 ^ 500 * 5 ≤ double_limit.
Proof. by vm_compute. Qed.

Lemma small_fits : 5 ≤ double_limit.
Proof. by vm_compute. Qed.

Lemma within_le (b b' : Z) (v : value) : b ≤ b' → within b v → within b' v.
Proof. destruct v; simpl; lia. Qed.

Lemma moderate_within (v : value) : moderate v → within (2 ^ 500) v.
Proof. by destruct v. Qed.

(** The product of two numbers within the range of a float. *)
Lemma mul_number (a b : value) (x y : Qc) (bound_a bound_b : Z) :
  as_number a = Some x → as_number b = Some y →
  within bound_a a → within bound_b b →
  bound_a ≤ double_limit → bound_b ≤ double_limit →
  ∃ v, mul a b = inr v ∧ as_number v = Some (x * y)%Qc
       ∧ within (bound_a * bound_b) v.
Proof.
  destruct a as [p|p| |], b as [q|q| |]; cbn [as_number mul within];
    intros [= <-] [= <-] Ha Hb Hla Hlb;
    rewrite ?to_float_fits by lia;
    eexists; (split; [reflexivity|]); cbn [as_number within];
    (split; [|done || nia]);
    unfold float_of_int; by rewrite ?Z2Qc_inj_mul.
Qed.

(** A number within the range of a float, divided by 1000. *)
Lemma truediv_number (a : value) (x : Qc) :
  as_number a = Some x → within double_limit a →
  truediv a (VInt 1000) = inr (VFloat (x / float_of_int 1000)%Qc).
Proof.
  destruct a as [p|p| |]; cbn [as_number truediv within]; intros [= <-] Ha.
  - by rewrite int_truediv_fits.
  - rewrite to_float_fits by (by vm_compute).
    rewrite float_div_nonzero; [done|]. by apply float_of_int_nonzero.
Qed.

(** ** Running computations *)

Lemma bind_run {A B} (m : M A) (k : A → M B) (s s' : state) (a : A) :
  m s = (s', inr a) → (m ≫= k) s = k a s'.
Proof. intros H. unfold mbind, M_bind. by rewrite H. Qed.

Lemma bind_raise {A B} (m : M A) (k : A → M B) (s s' : state) (e : exn) :
  m s = (s', inl e) → (m ≫= k) s = (s', inl e).
Proof. intros H. unfold mbind, M_bind. by rewrite H. Qed.

Lemma bind_print {B} (l : line) (k : unit → M B) (s : state) :
  (print l ≫= k) s = k tt (log l s).
Proof. reflexivity. Qed.

Lemma bind_lift {A B} (a : A) (k : A → M B) (s : state) :
  (lift (inr a) ≫= k) s = k a s.
Proof. reflexivity. Qed.

Lemma bind_lift_raise {A B} (e : exn) (k : A → M B) (s : state) :
  (lift (inl e) ≫= k) s = (s, inl e).
Proof. reflexivity. Qed.

Lemma bind_time {B} (k : Qc → M B) (s : state) :
  (time_time ≫= k) s = k (clock s (ticks s)) (tick s).
Proof. reflexivity. Qed.

Lemma bind_set {B} (key : string) (v : value) (k : unit → M B) (s : state) :
  (results_set key v ≫= k) s = k tt (store key v s).
Proof. reflexivity. Qed.

Lemma bind_get {B} (key : string) (k : option value → M B) (s : state) :
  (results_get key ≫= k) s = k (results s !! key) s.
Proof. reflexivity. Qed.

Lemma bind_contains {B} (key : string) (k : bool → M B) (s : state) :
  (results_contains key ≫= k) s = k (bool_decide (is_Some (results s !! key))) s.
Proof. reflexivity. Qed.

Lemma bind_item {B} (key : string) (v : value) (k : value → M B) (s : state) :
  results s !! key = Some v → (results_item key ≫= k) s = k v s.
Proof. intros H. unfold mbind, M_bind, results_item. by rewrite H. Qed.

(** One step of a computation: the effect of its first operation. *)
Ltac mstep :=
  first
    [ rewrite bind_print
    | rewrite bind_time
    | rewrite bind_set
    | rewrite bind_get
    | rewrite bind_contains
    | rewrite bind_lift
    | rewrite bind_lift_raise ];
  cbv beta.

Ltac mrun := repeat mstep; cbn [results console clock ticks log store tick].

(** ** Derived metrics *)

Lemma thousand_nonzero : float_of_int 1000 ≠ 0%Qc.
Proof. by apply float_of_int_nonzero. Qed.

(** The product [cores * clock_mhz * ipc] of two moderate numbers and a
    small factor, divided by 1000. *)
Lemma peak_number (c m : value) (x y : Qc) (ipc : Z) :
  as_number c = Some x → as_number m = Some y → within (2 ^ 500) c → within (2 ^ 500) m →
  Z.abs ipc < 5 →
  ∃ v w, mul c m = inr v ∧ mul v (VInt ipc) = inr w
         ∧ truediv v (VInt 1000) = inr (VFloat (x * y / float_of_int 1000)%Qc)
         ∧ truediv w (VInt 1000)
           = inr (VFloat (x * y * float_of_int ipc / float_of_int 1000)%Qc).
Proof.
  intros Hc Hm Mc Mm Hipc.
  destruct (mul_number c m x y _ _ Hc Hm Mc Mm moderate_fits moderate_fits)
    as (v & Ev & Hv & Wv).
  destruct (mul_number v (VInt ipc) _ _ _ 5 Hv eq_refl Wv Hipc
              moderate_square_fits small_fits) as (w & Ew & Hw & Ww).
  exists v, w. split_and!; [done | done | |].
  - apply truediv_number; [done|].
    by apply (within_le _ _ _ moderate_square_fits).
  - apply truediv_number; [done|].
    by apply (within_le _ _ _ moderate_limit).
Qed.

Lemma print_peak_run (c m : value) (x y : Qc) (ipc : Z) (s : state) :
  as_number c = Some x → as_number m = Some y → within (2 ^ 500) c → within (2 ^ 500) m →
  Z.abs ipc < 5 →
  print_peak c m ipc s
  = (log [Lit "  IPC="; Fmt "" (VInt ipc); Lit ": ";
          Fmt ".1f" (VFloat (theoretical_peak_gflops x y ipc)); Lit " GFLOPS"] s,
     inr tt).
Proof.
  intros Hc Hm Mc Mm Hipc. unfold print_peak.
  destruct (peak_number c m x y ipc Hc Hm Mc Mm Hipc) as (v & w & -> & Ew & _ & Ed).
  mstep. rewrite Ew. mstep. rewrite Ed. mstep.
  cbn [format_float]. mstep. reflexivity.
Qed.

Lemma peak_table_run (c m : value) (x y : Qc) (s : state) :
  as_number c = Some x → as_number m = Some y → within (2 ^ 500) c → within (2 ^ 500) m →
  ∃ s', for_each [1; 2; 3; 4] (print_peak c m) s = (s', inr tt)
        ∧ results s' = results s.
Proof.
  intros Hc Hm Mc Mm. cbn [for_each].
  rewrite (bind_run (print_peak c m 1) _ _ _ _
             (print_peak_run c m x y 1 _ Hc Hm Mc Mm eq_refl)).
  rewrite (bind_run (print_peak c m 2) _ _ _ _
             (print_peak_run c m x y 2 _ Hc Hm Mc Mm eq_refl)).
  rewrite (bind_run (print_peak c m 3) _ _ _ _
             (print_peak_run c m x y 3 _ Hc Hm Mc Mm eq_refl)).
  rewrite (bind_run (print_peak c m 4) _ _ _ _
             (print_peak_run c m x y 4 _ Hc Hm Mc Mm eq_refl)).
  eexists. split; reflexivity.
Qed.

(** C6: when [cpu_count] or [avg_clock_mhz] is missing from the store,
    the metrics step prints its heading and a warning, returns normally
    and leaves the store as it was: no derived key is added. *)
Theorem calculate_core_power_missing (s : state) :
  results s !! "cpu_count" = None ∨ results s !! "avg_clock_mhz" = None →
  calculate_core_power s
  = (log [Lit "⚠️  Insufficient data for calculation"]
       (log [Lit rule]
          (log [Lit "CORE POWER CALCULATION"] (log [Lit (nl +:+ rule)] s))),
     inr tt)
  ∧ results (fst (calculate_core_power s)) = results s.
Proof.
  intros Hmissing.
  assert (calculate_core_power s
    = (log [Lit "⚠️  Insufficient data for calculation"]
         (log [Lit rule]
            (log [Lit "CORE POWER CALCULATION"] (log [Lit (nl +:+ rule)] s))),
       inr tt)) as Hrun.
  { unfold calculate_core_power. mrun.
    assert (negb (bool_decide (is_Some (results s !! "cpu_count")))
            || negb (bool_decide (is_Some (results s !! "avg_clock_mhz")))
            = true) as ->; [|reflexivity].
    destruct Hmissing as [-> | ->];
      rewrite (bool_decide_eq_false_2 (is_Some None)) by apply is_Some_None;
      [reflexivity | apply orb_true_r]. }
  split; [exact Hrun|]. by rewrite Hrun.
Qed.

Lemma calculate_core_power_missing_witness :
  results (fst (calculate_core_power
                  (mkState {[ "avg_clock_mhz" := VFloat (Qc_of_Z 3000) ]} []
                     (λ _, 0%Qc) 0)))
  = {[ "avg_clock_mhz" := VFloat (Qc_of_Z 3000) ]}.
Proof.
  refine (proj2 (calculate_core_power_missing
                   (mkState {[ "avg_clock_mhz" := VFloat (Qc_of_Z 3000) ]} []
                      (λ _, 0%Qc) 0) _)).
  left. vm_compute. reflexivity.
Defined.

Lemma calculate_core_power_run (s : state) (c m : value) (cores clock_mhz : Qc) :
  results s !! "cpu_count" = Some c → as_number c = Some cores →
  results s !! "avg_clock_mhz" = Some m → as_number m = Some clock_mhz →
  within (2 ^ 500) c → within (2 ^ 500) m →
  ∃ s', calculate_core_power s
        = (store "per_core_gflops" (VFloat (clock_mhz / float_of_int 1000)%Qc)
             (store "theoretical_peak_gflops_ipc2"
                (VFloat (cores * clock_mhz * float_of_int 2 / float_of_int 1000)%Qc)
                (store "theoretical_peak_gflops_ipc1"
                   (VFloat (cores * clock_mhz / float_of_int 1000)%Qc) s')),
           inr tt)
        ∧ results s' = results s.
Proof.
  intros Hc Hcn Hm Hmn Mc Mm.
  destruct (peak_table_run c m cores clock_mhz
    (log [Lit (nl +:+ "Theoretical Peak Performance:")]
       (log [Lit "Clock Speed: "; Fmt ".2f" (VFloat (clock_mhz / float_of_int 1000)%Qc);
             Lit " GHz"]
          (log [Lit "Cores: "; Fmt "" c]
             (log [Lit (nl +:+ "Formula: Cores × Clock Speed × IPC (Instructions Per Cycle)")]
                (log [Lit rule]
                   (log [Lit "CORE POWER CALCULATION"] (log [Lit (nl +:+ rule)] s)))))))
    Hcn Hmn Mc Mm) as (s1 & Htable & Hs1).
  destruct (peak_number c m cores clock_mhz 2 Hcn Hmn Mc Mm eq_refl)
    as (v & w & Ev & Ew & Ed1 & Ed2).
  unfold calculate_core_power. mrun.
  rewrite Hc, Hm.
  rewrite !(bool_decide_eq_true_2 (is_Some (Some _))) by done. cbn [negb orb].
  rewrite (bind_item "cpu_count" c) by done.
  rewrite (bind_item "avg_clock_mhz" m) by done.
  rewrite (truediv_number m _ Hmn (within_le _ _ _ moderate_fits Mm)).
  mrun. cbn [format_float]. mrun.
  rewrite (bind_run (for_each _ _) _ _ _ _ Htable).
  mrun. cbn [mul]. rewrite to_float_fits by (by vm_compute).
  mrun. cbn [format_float]. mrun.
  rewrite Ev. mrun. rewrite Ed1. mrun. rewrite Ew. mrun. rewrite Ed2. mrun.
  eexists. split; [reflexivity|]. cbn [results log]. by rewrite Hs1.
Qed.

(** A core count too large for a float: the product [cores * clock_mhz]
    raises before anything is stored. *)
Lemma calculate_core_power_raises (s : state) (cores : Z) (clock_mhz : Qc) :
  results s !! "cpu_count" = Some (VInt cores) →
  results s !! "avg_clock_mhz" = Some (VFloat clock_mhz) →
  double_limit ≤ Z.abs cores →
  snd (calculate_core_power s) = inl OverflowError
  ∧ results (fst (calculate_core_power s)) = results s.
Proof.
  intros Hc Hm Hlarge.
  assert (to_float cores = inl OverflowError) as Hraise.
  { unfold to_float, too_large, float_of_int.
    rewrite bool_decide_eq_true_2; [done|]. rewrite <- !Z2Qc_inj_le. lia. }
  unfold calculate_core_power. mrun.
  rewrite Hc, Hm.
  rewrite !(bool_decide_eq_true_2 (is_Some (Some _))) by done. cbn [negb orb].
  rewrite (bind_item "cpu_count" (VInt cores)) by done.
  rewrite (bind_item "avg_clock_mhz" (VFloat clock_mhz)) by done.
  rewrite (truediv_number (VFloat clock_mhz) clock_mhz eq_refl I).
  mrun. cbn [format_float]. mrun.
  match goal with
  | |- context [(for_each ?l ?body ≫= ?k) ?st] =>
      assert (for_each l body st = (st, inl OverflowError)) as Htable
  end.
  { cbn [for_each]. apply bind_raise. unfold print_peak. cbn [mul].
    rewrite Hraise. apply bind_lift_raise. }
  rewrite (bind_raise _ _ _ _ _ Htable). done.
Qed.

Lemma theoretical_peak_gflops_1 (cores clock_mhz : Qc) :
  theoretical_peak_gflops cores clock_mhz 1
  = (cores * clock_mhz / float_of_int 1000)%Qc.
Proof.
  unfold theoretical_peak_gflops, float_of_int.
  by rewrite Z2Qc_inj_1, Qcmult_1_r.
Qed.

(** As numbers, the IPC 2 formula is twice the IPC 1 formula; what
    binary64 makes of it is [double_peak]. *)
Lemma theoretical_peak_gflops_double (cores clock_mhz : Qc) :
  theoretical_peak_gflops cores clock_mhz 2
  = (2 * theoretical_peak_gflops cores clock_mhz 1)%Qc.
Proof.
  rewrite theoretical_peak_gflops_1.
  unfold theoretical_peak_gflops, float_of_int. rewrite Z2Qc_inj_2.
  unfold Qcdiv. ring.
Qed.

(** ** What the benchmarks leave behind *)

Lemma billion_nonzero : float_of_int 1000000000 ≠ 0%Qc.
Proof. by apply float_of_int_nonzero. Qed.

Lemma benchmark_single_core_arithmetic_run (iterations : Z) (s : state) :
  elapsed s ≠ 0%Qc →
  benchmark_single_core_arithmetic iterations s
  = (store "arithmetic_gops"
       (VFloat (float_of_int iterations / elapsed s / float_of_int 1000000000)%Qc)
       (store "arithmetic_benchmark_ms" (VFloat (elapsed s * float_of_int 1000)%Qc)
          (log [Lit "Gigaops: ";
                Fmt ".3f" (VFloat (float_of_int iterations / elapsed s
                                   / float_of_int 1000000000)%Qc);
                Lit " GOPS"]
             (log [Lit "Throughput: ";
                   Fmt ",.0f" (VFloat (float_of_int iterations / elapsed s)%Qc);
                   Lit " ops/sec"]
                (log [Lit "Time: ";
                      Fmt ".2f" (VFloat (elapsed s * float_of_int 1000)%Qc);
                      Lit " ms"]
                   (tick (tick
                      (log [Lit rule]
                         (log [Lit "("; Fmt "," (VInt iterations); Lit " operations)"]
                            (log [Lit "SINGLE-CORE ARITHMETIC BENCHMARK"]
                               (log [Lit (nl +:+ rule)] s)))))))))),
     inr (elapsed s * float_of_int 1000)%Qc).
Proof.
  intros Hd. unfold benchmark_single_core_arithmetic, elapsed in *. mrun.
  rewrite float_div_nonzero by done. mrun.
  rewrite float_div_nonzero by apply billion_nonzero. mrun.
  reflexivity.
Qed.

Lemma benchmark_prime_finding_run (limit : Z) (s : state) :
  elapsed s ≠ 0%Qc →
  benchmark_prime_finding limit s
  = (store "primes_found" (VInt (primes_found limit))
       (store "prime_finding_ms" (VFloat (elapsed s * float_of_int 1000)%Qc)
          (log [Lit "Numbers checked per sec: ";
                Fmt ",.0f" (VFloat (float_of_int limit / elapsed s)%Qc)]
             (log [Lit "Time: ";
                   Fmt ".2f" (VFloat (elapsed s * float_of_int 1000)%Qc);
                   Lit " ms"]
                (log [Lit "Primes found: "; Fmt "" (VInt (primes_found limit))]
                   (tick (tick
                      (log [Lit rule]
                         (log [Lit "(Finding primes up to "; Fmt "," (VInt limit);
                               Lit ")"]
                            (log [Lit "PRIME NUMBER BENCHMARK"]
                               (log [Lit (nl +:+ rule)] s)))))))))),
     inr tt).
Proof.
  intros Hd. unfold benchmark_prime_finding, elapsed in *. mrun.
  rewrite float_div_nonzero by done. mrun.
  reflexivity.
Qed.

Lemma benchmark_memory_intensive_run (size : Z) (s : state) :
  elapsed s ≠ 0%Qc →
  benchmark_memory_intensive size s
  = (store "sort_benchmark_ms" (VFloat (elapsed s * float_of_int 1000)%Qc)
       (log [Lit "Elements sorted per sec: ";
             Fmt ",.0f" (VFloat (float_of_int size / elapsed s)%Qc)]
          (log [Lit "Time: ";
                Fmt ".2f" (VFloat (elapsed s * float_of_int 1000)%Qc);
                Lit " ms"]
             (tick (tick
                (log [Lit "Sorting..."]
                   (log [Lit "Creating list..."]
                      (log [Lit rule]
                         (log [Lit "(Sorting "; Fmt "," (VInt size);
                               Lit " elements)"]
                            (log [Lit "MEMORY-INTENSIVE BENCHMARK"]
                               (log [Lit (nl +:+ rule)] s)))))))))),
     inr tt).
Proof.
  intros Hd. unfold benchmark_memory_intensive, elapsed in *. mrun.
  rewrite float_div_nonzero by done. mrun.
  reflexivity.
Qed.

Lemma benchmark_fibonacci_single_thread_run (n : Z) (s : state) :
  benchmark_fibonacci_single_thread n s
  = (store "fibonacci_ms" (VFloat (elapsed s * float_of_int 1000)%Qc)
       (log [Lit "Time: ";
             Fmt ".2f" (VFloat (elapsed s * float_of_int 1000)%Qc);
             Lit " ms"]
          (log [Lit "Fib("; Fmt "" (VInt n); Lit ") = "; Fmt "" (VInt (fib n))]
             (tick (tick
                (log [Lit rule]
                   (log [Lit "(Recursive, CPU-bound)"]
                      (log [Lit "FIBONACCI BENCHMARK (n="; Fmt "" (VInt n); Lit ")"]
                         (log [Lit (nl +:+ rule)] s)))))))),
     inr tt).
Proof. reflexivity. Qed.

(** With a zero duration the division raises before anything is printed
    or stored. *)
Lemma benchmark_single_core_arithmetic_zero (iterations : Z) (s : state) :
  elapsed s = 0%Qc →
  benchmark_single_core_arithmetic iterations s
  = (tick (tick
       (log [Lit rule]
          (log [Lit "("; Fmt "," (VInt iterations); Lit " operations)"]
             (log [Lit "SINGLE-CORE ARITHMETIC BENCHMARK"]
                (log [Lit (nl +:+ rule)] s))))),
     inl ZeroDivisionError).
Proof.
  intros Hd. unfold benchmark_single_core_arithmetic, elapsed in *. mrun.
  rewrite Hd, float_div_zero. mrun. reflexivity.
Qed.

Lemma benchmark_prime_finding_zero (limit : Z) (s : state) :
  elapsed s = 0%Qc →
  benchmark_prime_finding limit s
  = (tick (tick
       (log [Lit rule]
          (log [Lit "(Finding primes up to "; Fmt "," (VInt limit); Lit ")"]
             (log [Lit "PRIME NUMBER BENCHMARK"]
                (log [Lit (nl +:+ rule)] s))))),
     inl ZeroDivisionError).
Proof.
  intros Hd. unfold benchmark_prime_finding, elapsed in *. mrun.
  rewrite Hd, float_div_zero. mrun. reflexivity.
Qed.

Lemma benchmark_memory_intensive_zero (size : Z) (s : state) :
  elapsed s = 0%Qc →
  benchmark_memory_intensive size s
  = (tick (tick
       (log [Lit "Sorting..."]
          (log [Lit "Creating list..."]
             (log [Lit rule]
                (log [Lit "(Sorting "; Fmt "," (VInt size); Lit " elements)"]
                   (log [Lit "MEMORY-INTENSIVE BENCHMARK"]
                      (log [Lit (nl +:+ rule)] s))))))),
     inl ZeroDivisionError).
Proof.
  intros Hd. unfold benchmark_memory_intensive, elapsed in *. mrun.
  rewrite Hd, float_div_zero. mrun. reflexivity.
Qed.

Lemma elapsed_fresh (r : gmap string value) (t0 t1 : Qc) :
  elapsed (fresh r t0 t1) = (t1 - t0)%Qc.
Proof. reflexivity. Qed.

Lemma one_second : elapsed (fresh ∅ 0%Qc 1%Qc) ≠ 0%Qc.
Proof. rewrite elapsed_fresh. intros H. apply (f_equal this) in H. discriminate H. Qed.

Lemma no_time : elapsed (fresh ∅ 0%Qc 0%Qc) = 0%Qc.
Proof. rewrite elapsed_fresh. apply Qc_is_canon. reflexivity. Qed.

(** C7, as the claim states it, fails: after the sort benchmark has run
    for one second on four elements from an empty store, the store holds
    the elapsed milliseconds and nothing else; the elements-per-second
    figure is not recorded. *)
Lemma sort_throughput_not_recorded :
  snd (benchmark_memory_intensive 4 (fresh ∅ 0%Qc 1%Qc)) = inr tt
  ∧ dom (results (fst (benchmark_memory_intensive 4 (fresh ∅ 0%Qc 1%Qc))))
    = ({[ "sort_benchmark_ms" ]} : gset string).
Proof.
  rewrite (benchmark_memory_intensive_run 4 _ one_second).
  split; [reflexivity|]. cbn [fst results store log tick].
  rewrite dom_insert_L. change (results (fresh ∅ 0%Qc 1%Qc)) with (∅ : gmap string value).
  rewrite dom_empty_L. apply (right_id_L ∅ (∪)).
Qed.

(** C7 (amended): a benchmark whose measured duration is not zero stores
    its elapsed milliseconds; the arithmetic benchmark also stores
    gigaops = (N / elapsed_seconds) / 1e9 and the prime benchmark the
    number of primes found.  The throughput figures N / elapsed_seconds,
    limit / elapsed_seconds and size / elapsed_seconds are computed and
    printed, and the store gets no other entry.  The Fibonacci benchmark
    does not divide by its duration and stores its elapsed milliseconds
    at any duration, zero included; what the other three do at a duration
    of zero is C8. *)
Theorem benchmarks_record (s : state) (n : Z) :
  (snd (benchmark_fibonacci_single_thread n s) = inr tt
   ∧ results (fst (benchmark_fibonacci_single_thread n s))
     = <["fibonacci_ms" := VFloat (elapsed s * float_of_int 1000)%Qc]> (results s))
  ∧ (elapsed s ≠ 0%Qc →
     (snd (benchmark_single_core_arithmetic n s)
      = inr (elapsed s * float_of_int 1000)%Qc
      ∧ results (fst (benchmark_single_core_arithmetic n s))
        = <["arithmetic_gops" :=
              VFloat (float_of_int n / elapsed s / float_of_int 1000000000)%Qc]>
            (<["arithmetic_benchmark_ms" :=
                 VFloat (elapsed s * float_of_int 1000)%Qc]>
               (results s))
      ∧ [Lit "Throughput: "; Fmt ",.0f" (VFloat (float_of_int n / elapsed s)%Qc);
         Lit " ops/sec"] ∈ console (fst (benchmark_single_core_arithmetic n s)))
     ∧ (snd (benchmark_prime_finding n s) = inr tt
        ∧ results (fst (benchmark_prime_finding n s))
          = <["primes_found" := VInt (primes_found n)]>
              (<["prime_finding_ms" := VFloat (elapsed s * float_of_int 1000)%Qc]>
                 (results s))
        ∧ [Lit "Numbers checked per sec: ";
           Fmt ",.0f" (VFloat (float_of_int n / elapsed s)%Qc)]
          ∈ console (fst (benchmark_prime_finding n s)))
     ∧ (snd (benchmark_memory_intensive n s) = inr tt
        ∧ results (fst (benchmark_memory_intensive n s))
          = <["sort_benchmark_ms" := VFloat (elapsed s * float_of_int 1000)%Qc]>
              (results s)
        ∧ [Lit "Elements sorted per sec: ";
           Fmt ",.0f" (VFloat (float_of_int n / elapsed s)%Qc)]
          ∈ console (fst (benchmark_memory_intensive n s)))).
Proof.
  split.
  - by rewrite benchmark_fibonacci_single_thread_run.
  - intros Hd.
    rewrite benchmark_single_core_arithmetic_run, benchmark_prime_finding_run,
      benchmark_memory_intensive_run by done.
    cbn [fst snd results console store log tick].
    repeat split; rewrite ?elem_of_app, ?list_elem_of_singleton; auto.
Qed.

Lemma benchmarks_record_witness :
  results (fst (benchmark_memory_intensive 4 (fresh ∅ 0%Qc 1%Qc)))
  = <["sort_benchmark_ms" :=
        VFloat (elapsed (fresh ∅ 0%Qc 1%Qc) * float_of_int 1000)%Qc]> ∅.
Proof.
  destruct (benchmarks_record (fresh ∅ 0%Qc 1%Qc) 4) as (_ & H).
  destruct H as (_ & _ & _ & H & _).
  - rewrite elapsed_fresh. intros H. apply (f_equal this) in H. discriminate H.
  - exact H.
Defined.

(** C8, as the claim states it, fails: when the two clock readings are
    equal, the arithmetic benchmark does not fall back to anything; the
    division raises [ZeroDivisionError]. *)
Lemma zero_elapsed_unguarded :
  elapsed (fresh ∅ 0%Qc 0%Qc) = 0%Qc
  ∧ snd (benchmark_single_core_arithmetic 100 (fresh ∅ 0%Qc 0%Qc))
    = inl ZeroDivisionError.
Proof.
  split; [apply no_time|].
  by rewrite (benchmark_single_core_arithmetic_zero 100 _ no_time).
Qed.

(** C8 (amended): in each benchmark that divides by the elapsed time, an
    elapsed time of exactly zero makes the division raise
    [ZeroDivisionError]; nothing has been stored at that point, so the
    store is left as it was. *)
Theorem zero_elapsed_raises (s : state) (n : Z) :
  elapsed s = 0%Qc →
  (snd (benchmark_single_core_arithmetic n s) = inl ZeroDivisionError
   ∧ results (fst (benchmark_single_core_arithmetic n s)) = results s)
  ∧ (snd (benchmark_prime_finding n s) = inl ZeroDivisionError
     ∧ results (fst (benchmark_prime_finding n s)) = results s)
  ∧ (snd (benchmark_memory_intensive n s) = inl ZeroDivisionError
     ∧ results (fst (benchmark_memory_intensive n s)) = results s).
Proof.
  intros Hd.
  rewrite benchmark_single_core_arithmetic_zero, benchmark_prime_finding_zero,
    benchmark_memory_intensive_zero by done.
  repeat split.
Qed.

Lemma zero_elapsed_raises_witness :
  snd (benchmark_prime_finding 100 (fresh ∅ 0%Qc 0%Qc)) = inl ZeroDivisionError.
Proof.
  destruct (zero_elapsed_raises (fresh ∅ 0%Qc 0%Qc) 100) as (_ & [H _] & _).
  - rewrite elapsed_fresh. apply Qc_is_canon. reflexivity.
  - exact H.
Defined.

(** ** Performance rating *)

Lemma logs_nil (s : state) : logs [] s = s.
Proof. destruct s. unfold logs. simpl. by rewrite app_nil_r. Qed.

Lemma logs_logs (ls1 ls2 : list line) (s : state) :
  logs ls2 (logs ls1 s) = logs (ls1 ++ ls2) s.
Proof. unfold logs. simpl. by rewrite app_assoc. Qed.

Lemma logger_ret {A} (a : A) : logger (mret a : M A).
Proof. exists [], (inr a). intros s. by rewrite logs_nil. Qed.

Lemma logger_lift {A} (r : exn + A) : logger (lift r).
Proof. exists [], r. intros s. by rewrite logs_nil. Qed.

Lemma logger_print (l : line) : logger (print l).
Proof. by exists [l], (inr tt). Qed.

Lemma logger_bind {A B} (m : M A) (k : A → M B) :
  logger m → (∀ a, logger (k a)) → logger (m ≫= k).
Proof.
  intros (ls & [e|a] & Hm) Hk.
  - exists ls, (inl e). intros s. by rewrite (bind_raise m k s _ e (Hm s)).
  - destruct (Hk a) as (ls' & r & Hka). exists (ls ++ ls'), r. intros s.
    by rewrite (bind_run m k s _ a (Hm s)), Hka, logs_logs.
Qed.

Ltac logger_steps :=
  repeat first
    [ apply logger_print
    | apply logger_lift
    | apply logger_ret
    | apply logger_bind; [|intros ?]
    | match goal with
      | |- logger (if ?b then _ else _) => destruct b
      | |- logger (match ?x with _ => _ end) => destruct x
      end ].

Lemma logger_rate_arithmetic (v : value) : logger (rate_arithmetic v).
Proof. unfold rate_arithmetic, arithmetic_tier. logger_steps. Qed.

Lemma logger_rate_cores (v : value) : logger (rate_cores v).
Proof. unfold rate_cores. logger_steps. Qed.

Lemma rate_arithmetic_step_skip (s : state) :
  truthy_opt (results s !! "arithmetic_benchmark_ms") = false →
  rate_arithmetic_step s = (s, inr tt).
Proof.
  intros H. unfold rate_arithmetic_step. rewrite bind_get.
  destruct (results s !! "arithmetic_benchmark_ms"); [|done].
  simpl in H. by rewrite H.
Qed.

Lemma rate_cores_step_skip (s : state) :
  truthy_opt (results s !! "cpu_count") = false →
  rate_cores_step s = (s, inr tt).
Proof.
  intros H. unfold rate_cores_step. rewrite bind_get.
  destruct (results s !! "cpu_count"); [|done].
  simpl in H. by rewrite H.
Qed.

(** The two steps see the store through one lookup each. *)
Lemma rate_arithmetic_step_frame (s1 s2 : state) :
  results s1 !! "arithmetic_benchmark_ms" = results s2 !! "arithmetic_benchmark_ms" →
  ∃ ls r, rate_arithmetic_step s1 = (logs ls s1, r)
          ∧ rate_arithmetic_step s2 = (logs ls s2, r).
Proof.
  intros H. unfold rate_arithmetic_step. rewrite !bind_get, H.
  destruct (results s2 !! "arithmetic_benchmark_ms") as [v|].
  - destruct (truthy v).
    + destruct (logger_rate_arithmetic v) as (ls & r & Hv).
      exists ls, r. by rewrite !Hv.
    + exists [], (inr tt). by rewrite !logs_nil.
  - exists [], (inr tt). by rewrite !logs_nil.
Qed.

Lemma rate_cores_step_frame (s1 s2 : state) :
  results s1 !! "cpu_count" = results s2 !! "cpu_count" →
  ∃ ls r, rate_cores_step s1 = (logs ls s1, r)
          ∧ rate_cores_step s2 = (logs ls s2, r).
Proof.
  intros H. unfold rate_cores_step. rewrite !bind_get, H.
  destruct (results s2 !! "cpu_count") as [v|].
  - destruct (truthy v).
    + destruct (logger_rate_cores v) as (ls & r & Hv).
      exists ls, r. by rewrite !Hv.
    + exists [], (inr tt). by rewrite !logs_nil.
  - exists [], (inr tt). by rewrite !logs_nil.
Qed.

Lemma truthy_zero (v : value) : v = VInt 0 ∨ v = VFloat 0%Qc → truthy v = false.
Proof. by intros [-> | ->]. Qed.

Lemma generate_performance_rating_unfold (s : state) :
  generate_performance_rating s
  = (rate_arithmetic_step ≫= λ _, rate_cores_step)
      (log [Lit rule] (log [Lit "PERFORMANCE RATING"] (log [Lit (nl +:+ rule)] s))).
Proof. reflexivity. Qed.

(** C10: the rating step tests its inputs by truthiness.  A stored
    [arithmetic_benchmark_ms] of 0 or 0.0 produces no arithmetic tier and
    a stored [cpu_count] of 0 produces no core-count tier; in both cases
    the whole step prints and returns exactly what it does on the store
    without that key. *)
Theorem rating_tests_truthiness (s : state) (k : string) (v : value) :
  k = "arithmetic_benchmark_ms" ∨ k = "cpu_count" →
  results s !! k = Some v →
  v = VInt 0 ∨ v = VFloat 0%Qc →
  generate_performance_rating s
  = (mkState (results s)
       (console (fst (generate_performance_rating (without k s))))
       (clock s) (ticks s),
     snd (generate_performance_rating (without k s)))
  ∧ (k = "arithmetic_benchmark_ms" → rate_arithmetic_step s = (s, inr tt))
  ∧ (k = "cpu_count" → rate_cores_step s = (s, inr tt)).
Proof.
  intros Hk Hv Hzero. apply truthy_zero in Hzero.
  rewrite !generate_performance_rating_unfold.
  set (s3 := log [Lit rule] (log [Lit "PERFORMANCE RATING"] (log [Lit (nl +:+ rule)] s))).
  set (s3' := log [Lit rule] (log [Lit "PERFORMANCE RATING"]
                                (log [Lit (nl +:+ rule)] (without k s)))).
  destruct Hk as [-> | ->].
  - split; [|split; [intros _|done]].
    + rewrite (bind_run _ _ s3 s3 tt), (bind_run _ _ s3' s3' tt).
      * destruct (rate_cores_step_frame s3 s3') as (ls & r & -> & ->).
        { subst s3 s3'. cbn [results log without]. by rewrite lookup_delete_ne. }
        reflexivity.
      * apply rate_arithmetic_step_skip. subst s3'. cbn [results log without].
        by rewrite lookup_delete_eq.
      * apply rate_arithmetic_step_skip. subst s3. cbn [results log].
        by rewrite Hv.
    + apply rate_arithmetic_step_skip. by rewrite Hv.
  - split; [|split; [done|intros _]].
    + destruct (rate_arithmetic_step_frame s3 s3') as (ls & r & H3 & H3').
      { subst s3 s3'. cbn [results log without]. by rewrite lookup_delete_ne. }
      destruct r as [e|[]].
      * by rewrite (bind_raise _ _ _ _ _ H3), (bind_raise _ _ _ _ _ H3').
      * rewrite (bind_run _ _ _ _ _ H3), (bind_run _ _ _ _ _ H3').
        rewrite !rate_cores_step_skip; [reflexivity | |].
        -- subst s3'. cbn [results logs log without]. by rewrite lookup_delete_eq.
        -- subst s3. cbn [results logs log]. by rewrite Hv.
    + apply rate_cores_step_skip. by rewrite Hv.
Qed.

Lemma rating_tests_truthiness_witness :
  rate_cores_step (fresh {[ "cpu_count" := VInt 0 ]} 0%Qc 1%Qc)
  = (fresh {[ "cpu_count" := VInt 0 ]} 0%Qc 1%Qc, inr tt).
Proof.
  destruct (rating_tests_truthiness
              (fresh {[ "cpu_count" := VInt 0 ]} 0%Qc 1%Qc) "cpu_count" (VInt 0))
    as (_ & _ & H).
  - right. reflexivity.
  - vm_compute. reflexivity.
  - left. reflexivity.
  - apply H. reflexivity.
Defined.

(** The comparisons of the tier chain, by the position of the value. *)
Lemma cmp_lt_number (v : value) (q : Qc) (z : Z) :
  as_number v = Some q →
  cmp_lt v z = inr (bool_decide (q < float_of_int z)%Qc).
Proof. intros H. unfold cmp_lt. by rewrite H. Qed.

Lemma format_float_number (spec : string) (v : value) (q : Qc) :
  as_number v = Some q → format_float spec v = inr (Fmt spec v).
Proof. by destruct v. Qed.

Lemma truthy_number (v : value) (q : Qc) :
  as_number v = Some q → q ≠ 0%Qc → truthy v = true.
Proof.
  destruct v as [z|q'| |]; simpl; intros [= <-] Hq;
    apply bool_decide_eq_true_2; [|done].
  intros ->. apply Hq. apply Z2Qc_inj_0.
Qed.

Lemma float_of_int_le (a b : Z) : a ≤ b → (float_of_int a ≤ float_of_int b)%Qc.
Proof. intros H. exact (proj1 (Z2Qc_inj_le a b) H). Qed.

Lemma below (q : Qc) (a b : Z) :
  a ≤ b → (q < float_of_int a)%Qc → bool_decide (q < float_of_int b)%Qc = true.
Proof.
  intros Hab Hq. apply bool_decide_eq_true_2.
  eapply Qclt_le_trans; [exact Hq | by apply float_of_int_le].
Qed.

Lemma not_below (q : Qc) (a b : Z) :
  a ≤ b → (float_of_int b ≤ q)%Qc → bool_decide (q < float_of_int a)%Qc = false.
Proof.
  intros Hab Hq. apply bool_decide_eq_false_2. apply Qcle_not_lt.
  etrans; [by apply float_of_int_le | exact Hq].
Qed.

Lemma rate_arithmetic_run
    (v : value) (q : Qc) (rating reason : string) (s : state) :
  as_number v = Some q →
  (∀ s', arithmetic_tier v s' = (s', inr (rating, reason))) →
  rate_arithmetic v s = (rated v rating reason s, inr tt).
Proof.
  intros Hv Htier. unfold rate_arithmetic.
  rewrite (format_float_number _ v q Hv). mrun.
  rewrite (bind_run _ _ _ _ _ (Htier _)). mrun. reflexivity.
Qed.

Lemma rate_arithmetic_step_run
    (v : value) (q : Qc) (rating reason : string) (s : state) :
  results s !! "arithmetic_benchmark_ms" = Some v →
  as_number v = Some q → q ≠ 0%Qc →
  (∀ s', arithmetic_tier v s' = (s', inr (rating, reason))) →
  rate_arithmetic_step s = (rated v rating reason s, inr tt).
Proof.
  intros Hs Hv Hnz Htier. unfold rate_arithmetic_step. rewrite bind_get, Hs.
  rewrite (truthy_number v q Hv Hnz).
  by apply (rate_arithmetic_run v q).
Qed.

Ltac tier_chain :=
  unfold arithmetic_tier; erewrite !cmp_lt_number by eassumption;
  repeat first
    [ rewrite (below _ 80 80) by done
    | rewrite (below _ 150 150) by done
    | rewrite (below _ 250 250) by done
    | rewrite (below _ 400 400) by done
    | rewrite (not_below _ 80 80) by done
    | rewrite (not_below _ 80 150) by done
    | rewrite (not_below _ 80 250) by done
    | rewrite (not_below _ 80 400) by done
    | rewrite (not_below _ 150 150) by done
    | rewrite (not_below _ 150 250) by done
    | rewrite (not_below _ 150 400) by done
    | rewrite (not_below _ 250 250) by done
    | rewrite (not_below _ 250 400) by done
    | rewrite (not_below _ 400 400) by done ];
  reflexivity.

(** The five ranges leave no number out. *)
Lemma tier_ranges_cover (q : Qc) :
  (q < float_of_int 80)%Qc
  ∨ (float_of_int 80 ≤ q)%Qc ∧ (q < float_of_int 150)%Qc
  ∨ (float_of_int 150 ≤ q)%Qc ∧ (q < float_of_int 250)%Qc
  ∨ (float_of_int 250 ≤ q)%Qc ∧ (q < float_of_int 400)%Qc
  ∨ (float_of_int 400 ≤ q)%Qc.
Proof.
  destruct (Qclt_le_dec q (float_of_int 80)); [by left|right].
  destruct (Qclt_le_dec q (float_of_int 150)); [by left|right].
  destruct (Qclt_le_dec q (float_of_int 250)); [by left|right].
  destruct (Qclt_le_dec q (float_of_int 400)); [by left|by right].
Qed.

(** C4, as the claim states it, fails at the lower end of the range: an
    elapsed time of exactly 0 ms is below 80, yet the rating step prints
    its heading and no tier at all. *)
Lemma zero_elapsed_not_rated :
  generate_performance_rating
    (fresh {[ "arithmetic_benchmark_ms" := VFloat 0%Qc ]} 0%Qc 0%Qc)
  = (log [Lit rule]
       (log [Lit "PERFORMANCE RATING"]
          (log [Lit (nl +:+ rule)]
             (fresh {[ "arithmetic_benchmark_ms" := VFloat 0%Qc ]} 0%Qc 0%Qc))),
     inr tt).
Proof.
  rewrite generate_performance_rating_unfold.
  erewrite bind_run by (apply rate_arithmetic_step_skip; vm_compute; reflexivity).
  apply rate_cores_step_skip. vm_compute. reflexivity.
Qed.

(** C4 (amended): for every stored elapsed time other than zero the rating
    step prints exactly one tier with its fixed cause, chosen by the
    thresholds: below 80 Excellent, from 80 below 150 Good, from 150 below
    250 Acceptable, from 250 below 400 Degraded, from 400 on Poor; the
    values 80, 150, 250 and 400 fall into the worse tier.  The five ranges
    cover the line and exclude one another; at exactly zero no tier is
    printed. *)
Theorem arithmetic_tier_thresholds (s : state) (v : value) (q : Qc) :
  results s !! "arithmetic_benchmark_ms" = Some v →
  as_number v = Some q →
  q ≠ 0%Qc →
  ((q < float_of_int 80)%Qc
   ∨ (float_of_int 80 ≤ q)%Qc ∧ (q < float_of_int 150)%Qc
   ∨ (float_of_int 150 ≤ q)%Qc ∧ (q < float_of_int 250)%Qc
   ∨ (float_of_int 250 ≤ q)%Qc ∧ (q < float_of_int 400)%Qc
   ∨ (float_of_int 400 ≤ q)%Qc)
  ∧ ((q < float_of_int 80)%Qc →
     rate_arithmetic_step s
     = (rated v "🟢 EXCELLENT" "Well-provisioned, no throttling" s, inr tt))
  ∧ ((float_of_int 80 ≤ q)%Qc → (q < float_of_int 150)%Qc →
     rate_arithmetic_step s
     = (rated v "🟢 GOOD" "Normal performance" s, inr tt))
  ∧ ((float_of_int 150 ≤ q)%Qc → (q < float_of_int 250)%Qc →
     rate_arithmetic_step s
     = (rated v "🟡 ACCEPTABLE" "Some system load or throttling" s, inr tt))
  ∧ ((float_of_int 250 ≤ q)%Qc → (q < float_of_int 400)%Qc →
     rate_arithmetic_step s
     = (rated v "🟠 DEGRADED" "Possible thermal throttling" s, inr tt))
  ∧ ((float_of_int 400 ≤ q)%Qc →
     rate_arithmetic_step s
     = (rated v "🔴 POOR" "Significant throttling or overload" s, inr tt)).
Proof.
  intros Hs Hv Hnz. split; [apply tier_ranges_cover|].
  repeat split; intros; apply (rate_arithmetic_step_run v q); try done;
    intros s'; tier_chain.
Qed.

Lemma arithmetic_tier_thresholds_witness :
  rate_arithmetic_step
    (fresh {[ "arithmetic_benchmark_ms" := VFloat (float_of_int 80) ]} 0%Qc 1%Qc)
  = (rated (VFloat (float_of_int 80)) "🟢 GOOD" "Normal performance"
       (fresh {[ "arithmetic_benchmark_ms" := VFloat (float_of_int 80) ]} 0%Qc 1%Qc),
     inr tt).
Proof.
  destruct (arithmetic_tier_thresholds
              (fresh {[ "arithmetic_benchmark_ms" := VFloat (float_of_int 80) ]}
                 0%Qc 1%Qc)
              (VFloat (float_of_int 80)) (float_of_int 80)) as (_ & _ & H & _).
  - vm_compute. reflexivity.
  - reflexivity.
  - intros H. apply (f_equal this) in H. discriminate H.
  - apply H; vm_compute; [discriminate | reflexivity].
Defined.

(** The boundary values of the specification, each in its tier. *)
Example arithmetic_tier_boundaries (s : state) :
  arithmetic_tier (VFloat (Q2Qc (799 # 10))) s
  = (s, inr ("🟢 EXCELLENT", "Well-provisioned, no throttling"))
  ∧ arithmetic_tier (VFloat (float_of_int 80)) s
    = (s, inr ("🟢 GOOD", "Normal performance"))
  ∧ arithmetic_tier (VFloat (Q2Qc (1499 # 10))) s
    = (s, inr ("🟢 GOOD", "Normal performance"))
  ∧ arithmetic_tier (VFloat (float_of_int 150)) s
    = (s, inr ("🟡 ACCEPTABLE", "Some system load or throttling"))
  ∧ arithmetic_tier (VFloat (Q2Qc (2499 # 10))) s
    = (s, inr ("🟡 ACCEPTABLE", "Some system load or throttling"))
  ∧ arithmetic_tier (VFloat (float_of_int 250)) s
    = (s, inr ("🟠 DEGRADED", "Possible thermal throttling"))
  ∧ arithmetic_tier (VFloat (Q2Qc (3999 # 10))) s
    = (s, inr ("🟠 DEGRADED", "Possible thermal throttling"))
  ∧ arithmetic_tier (VFloat (float_of_int 400)) s
    = (s, inr ("🔴 POOR", "Significant throttling or overload")).
Proof. repeat split. Qed.

(** ** Binary64 and the prime count *)

(** In binary64, 4 cores at 3000 MHz give exactly 12.0 at IPC 1 and
    exactly 24.0, twice as much, at IPC 2. *)
Lemma binary64_peak :
  Binary64.peak 4 3000 1 = Binary64.of_int 12
  ∧ Binary64.peak 4 3000 2 = Binary64.of_int 24
  ∧ (two ← Binary64.of_int 2; p ← Binary64.peak 4 3000 1;
     Some (Binary64.mul two p)) = Binary64.peak 4 3000 2.
Proof. repeat split. Qed.

(** *** The square root in binary64 *)

(** The number of binary digits of a mantissa. *)
Lemma digits2_pos_bounds (p : positive) :
  2 ^ (Z.pos (digits2_pos p) - 1) ≤ Z.pos p < 2 ^ Z.pos (digits2_pos p).
Proof.
  induction p as [p IH|p IH|]; cbn [digits2_pos].
  - rewrite Pos2Z.inj_succ.
    replace (Z.succ (Z.pos (digits2_pos p)) - 1) with (Z.succ (Z.pos (digits2_pos p) - 1)) by lia.
    rewrite !Z.pow_succ_r by lia. lia.
  - rewrite Pos2Z.inj_succ.
    replace (Z.succ (Z.pos (digits2_pos p)) - 1) with (Z.succ (Z.pos (digits2_pos p) - 1)) by lia.
    rewrite !Z.pow_succ_r by lia. lia.
  - simpl. lia.
Qed.

Lemma digits2_pos_unique (p : positive) (k : Z) :
  2 ^ (k - 1) ≤ Z.pos p < 2 ^ k → Z.pos (digits2_pos p) = k.
Proof.
  intros [Hlo Hhi]. pose proof (digits2_pos_bounds p) as [Hlo' Hhi'].
  assert (0 < k).
  { destruct (Z.lt_ge_cases 0 k); [done|].
    assert (2 ^ k ≤ 2 ^ 0) by (destruct (Z.eq_dec k 0) as [->|]; [done|rewrite Z.pow_neg_r by lia; done]).
    simpl in *. lia. }
  destruct (Z.lt_trichotomy (Z.pos (digits2_pos p)) k) as [Hlt|[Heq|Hgt]]; [|done|].
  - assert (2 ^ Z.pos (digits2_pos p) ≤ 2 ^ (k - 1)) by (apply Z.pow_le_mono_r; lia). lia.
  - assert (2 ^ k ≤ 2 ^ (Z.pos (digits2_pos p) - 1)) by (apply Z.pow_le_mono_r; lia). lia.
Qed.

Lemma shr_fexp_canonical (m : positive) (e : Z) (l : location) :
  Z.pos (digits2_pos m) = 53 → -1074 ≤ e →
  shr_fexp 53 1024 (Z.pos m) e l = (shr_record_of_loc (Z.pos m) l, e).
Proof.
  intros Hd He. unfold shr_fexp, Zdigits2, fexp, emin. rewrite Hd.
  replace (Z.max (53 + e - 53) (3 - 1024 - 53) - e) with 0 by lia.
  reflexivity.
Qed.

Lemma shr_fexp_carry (e : Z) :
  -1074 ≤ e →
  shr_fexp 53 1024 (2 ^ 53) e loc_Exact
  = ({| shr_m := 2 ^ 52; shr_r := false; shr_s := false |}, e + 1).
Proof.
  intros He. unfold shr_fexp, fexp, emin.
  change (Zdigits2 (2 ^ 53)) with 54.
  replace (Z.max (54 + e - 53) (3 - 1024 - 53) - e) with 1 by lia.
  reflexivity.
Qed.

(** Rounding a 53-bit mantissa that carries the location of its discarded
    part: the mantissa stays or moves up by one. *)
Lemma binary_round_aux_canonical (m : positive) (e : Z) (l : location) :
  Z.pos (digits2_pos m) = 53 → -1074 ≤ e ≤ 970 → l ≠ loc_Inexact Eq →
  ∃ m' e', binary_round_aux 53 1024 false (Z.pos m) e l = S754_finite false m' e'
    ∧ e ≤ e' ≤ e + 1
    ∧ Z.pos m ≤ Z.pos m' * 2 ^ (e' - e) ≤ Z.pos m + 1.
Proof.
  intros Hd He Hl. unfold binary_round_aux.
  rewrite shr_fexp_canonical by (done || lia).
  assert (round_nearest_even (shr_m (shr_record_of_loc (Z.pos m) l))
            (loc_of_shr_record (shr_record_of_loc (Z.pos m) l))
          = Z.pos m
          ∨ round_nearest_even (shr_m (shr_record_of_loc (Z.pos m) l))
              (loc_of_shr_record (shr_record_of_loc (Z.pos m) l))
            = Z.pos m + 1) as [-> | ->].
  { destruct l as [|[| |]]; try done; simpl; auto. }
  - rewrite shr_fexp_canonical by (done || lia).
    cbn [shr_m shr_record_of_loc].
    rewrite (proj2 (Z.leb_le e (1024 - 53))) by lia.
    exists m, e. split; [reflexivity|].
    replace (e - e) with 0 by lia. simpl. lia.
  - pose proof (digits2_pos_bounds m) as Hb. rewrite Hd in Hb.
    destruct (Z.eq_dec (Z.pos m + 1) (2 ^ 53)) as [Heq|Hne].
    + rewrite Heq, shr_fexp_carry by lia. cbn [shr_m].
      change (2 ^ 52) with (Z.pos (2 ^ 52)%positive).
      rewrite (proj2 (Z.leb_le (e + 1) (1024 - 53))) by lia.
      exists (2 ^ 52)%positive, (e + 1). split; [reflexivity|].
      replace (e + 1 - e) with 1 by lia.
      change (2 ^ 1) with 2. change (Z.pos (2 ^ 52)) with (2 ^ 52).
      change (2 ^ 53) with (2 ^ 52 * 2) in Heq. lia.
    + assert (Z.pos m + 1 = Z.pos (m + 1)) as -> by lia.
      rewrite shr_fexp_canonical; [| |lia].
      * cbn [shr_m shr_record_of_loc].
        rewrite (proj2 (Z.leb_le e (1024 - 53))) by lia.
        exists (m + 1)%positive, e. split; [reflexivity|].
        replace (e - e) with 0 by lia. simpl. lia.
      * apply digits2_pos_unique. simpl in *. lia.
Qed.

Lemma binary_round_aux_exact (m : positive) (e : Z) :
  Z.pos (digits2_pos m) = 53 → -1074 ≤ e ≤ 970 →
  binary_round_aux 53 1024 false (Z.pos m) e loc_Exact = S754_finite false m e.
Proof.
  intros Hd He. unfold binary_round_aux.
  rewrite shr_fexp_canonical by (done || lia).
  cbn [shr_m shr_record_of_loc loc_of_shr_record round_nearest_even].
  rewrite shr_fexp_canonical by (done || lia).
  cbn [shr_m shr_record_of_loc].
  by rewrite (proj2 (Z.leb_le e (1024 - 53))) by lia.
Qed.

Lemma iter_xO_spec (p q : positive) :
  Z.pos (Pos.iter xO p q) = Z.pos p * 2 ^ Z.pos q
  ∧ Z.pos (digits2_pos (Pos.iter xO p q)) = Z.pos (digits2_pos p) + Z.pos q.
Proof.
  induction q as [|q [IH1 IH2]] using Pos.peano_ind.
  - simpl. lia.
  - rewrite Pos.iter_succ. cbn [digits2_pos].
    rewrite !Pos2Z.inj_succ, Pos2Z.inj_xO, IH1, IH2, Z.pow_succ_r by lia. lia.
Qed.

(** [float(n)] is exact below 2^53: the mantissa is [n] shifted to 53 bits. *)
Lemma of_int_exact (p : positive) :
  Z.pos p < 2 ^ 53 →
  ∃ mz ez, Binary64.of_int (Z.pos p) = Some (S754_finite false mz ez)
    ∧ Z.pos (digits2_pos mz) = 53
    ∧ ez = Z.pos (digits2_pos p) - 53
    ∧ Z.pos mz = Z.pos p * 2 ^ (- ez).
Proof.
  intros Hp. pose proof (digits2_pos_bounds p) as [Hlo _].
  assert (Z.pos (digits2_pos p) ≤ 53) as Hd.
  { destruct (Z.le_gt_cases (Z.pos (digits2_pos p)) 53); [done|].
    assert (2 ^ 53 ≤ 2 ^ (Z.pos (digits2_pos p) - 1)) by (apply Z.pow_le_mono_r; lia).
    lia. }
  unfold Binary64.of_int, binary_normalize, binary_round, shl_align, fexp, emin, Binary64.prec, Binary64.emax.
  replace (Z.max (Z.pos (digits2_pos p) + 0 - 53) (3 - 1024 - 53) - 0)
    with (Z.pos (digits2_pos p) - 53) by lia.
  replace (Z.max (Z.pos (digits2_pos p) + 0 - 53) (3 - 1024 - 53))
    with (Z.pos (digits2_pos p) - 53) by lia.
  destruct (Z.pos (digits2_pos p) - 53) as [|q|q] eqn:Hk; [|lia|].
  - cbv beta iota.
    rewrite (binary_round_aux_exact p 0) by lia.
    exists p, 0. split; [done|]. split; [lia|]. split; [lia|]. simpl. lia.
  - destruct (iter_xO_spec p q) as [Hv Hdig].
    cbv beta iota.
    rewrite (binary_round_aux_exact (Pos.iter xO p q) (Z.neg q)) by lia.
    exists (Pos.iter xO p q), (Z.neg q). split; [done|]. split; [lia|].
    split; [done|]. rewrite Hv. reflexivity.
Qed.

(** The integer part of the square root computation: on a 53-bit mantissa
    with an exponent between -52 and 0 it yields the integer square root of
    the mantissa scaled by an even power of two, again with 53 bits. *)
Lemma sqrt_core (mz : positive) (ez : Z) :
  Z.pos (digits2_pos mz) = 53 → -52 ≤ ez ≤ 0 →
  ∃ q e' l, SFsqrt_core_binary 53 1024 (Z.pos mz) ez = (Z.pos q, e', l)
    ∧ Z.pos (digits2_pos q) = 53 ∧ -52 ≤ e' ≤ -26 ∧ l ≠ loc_Inexact Eq
    ∧ 0 ≤ ez - 2 * e'
    ∧ Z.pos q * Z.pos q ≤ Z.pos mz * 2 ^ (ez - 2 * e')
      < (Z.pos q + 1) * (Z.pos q + 1).
Proof.
  intros Hd He. pose proof (digits2_pos_bounds mz) as Hb. rewrite Hd in Hb.
  change (2 ^ (53 - 1)) with 4503599627370496 in Hb.
  change (2 ^ 53) with 9007199254740992 in Hb.
  unfold SFsqrt_core_binary, Zdigits2, fexp, emin. rewrite Hd, !Z.div2_div.
  set (e' := Z.min (Z.max ((53 + ez + 1) `div` 2 - 53) (3 - 1024 - 53)) (ez `div` 2)).
  assert (e' = (ez + 54) `div` 2 - 53) as He'
    by (subst e'; Z.div_mod_to_equations; lia).
  assert (ez - 2 * e' = 52 ∨ ez - 2 * e' = 53) as Hs
    by (Z.div_mod_to_equations; lia).
  assert (-52 ≤ e' ≤ -26) as Hrange by (Z.div_mod_to_equations; lia).
  clearbody e'.
  destruct (ez - 2 * e') as [|sp|sp] eqn:Hsp; [lia| |lia].
  rewrite Z.shiftl_mul_pow2 by lia.
  destruct (Z.sqrtrem (Z.pos mz * 2 ^ Z.pos sp)) as [q r] eqn:Hqr.
  pose proof (Z.sqrtrem_spec (Z.pos mz * 2 ^ Z.pos sp)) as Hspec.
  rewrite Hqr in Hspec. destruct Hspec as [Hsq Hr]; [lia|].
  assert (4503599627370496 ≤ q < 9007199254740992) as Hq.
  { destruct Hs as [Hs|Hs]; rewrite Hs in Hsq; simpl in Hsq; nia. }
  destruct q as [|q|q]; [lia| |lia].
  exists q, e', (if r =? 0 then loc_Exact
                 else loc_Inexact (if r <=? Z.pos q then Lt else Gt)).
  split; [reflexivity|]. split; [apply digits2_pos_unique; simpl; lia|].
  split; [done|]. split; [by destruct (r =? 0), (r <=? Z.pos q)|].
  rewrite Hsp. split; [done|]. lia.
Qed.

(** [int(math.sqrt(n))] in binary64 is the integer square root of [n] or
    one more, for every [n] from 1 below 2^53. *)
Lemma int_sqrt_binary64_bounds (n : Z) :
  1 ≤ n < 2 ^ 53 →
  ∃ r, Binary64.int_sqrt n = Some r ∧ Z.sqrt n ≤ r ≤ Z.sqrt n + 1.
Proof.
  intros Hn. destruct n as [|p|p]; [lia| |lia].
  destruct (of_int_exact p) as (mz & ez & Hof & Hdm & Hez & Hmz); [lia|].
  pose proof (digits2_pos_bounds p) as [Hplo _].
  assert (-52 ≤ ez ≤ 0) as Hezr.
  { split; [lia|]. destruct (Z.le_gt_cases ez 0); [done|].
    assert (2 ^ 53 ≤ 2 ^ (Z.pos (digits2_pos p) - 1)) by (apply Z.pow_le_mono_r; lia).
    lia. }
  destruct (sqrt_core mz ez Hdm Hezr)
    as (q & e' & l & Hcore & Hdq & He' & Hl & Hs & Hq).
  destruct (binary_round_aux_canonical q e' l Hdq ltac:(lia) Hl)
    as (m'' & e'' & Hround & He'' & Hm'').
  unfold Binary64.int_sqrt. rewrite Hof. cbn [mbind option_bind].
  unfold Binary64.sqrt, SFsqrt, Binary64.prec, Binary64.emax.
  rewrite Hcore, Hround. unfold Binary64.to_int.
  rewrite (proj2 (Z.leb_gt 0 e'')) by lia.
  eexists. split; [reflexivity|].
  set (k := Z.sqrt (Z.pos p)).
  pose proof (Z.sqrt_spec (Z.pos p) ltac:(lia)) as Hk. fold k in Hk.
  cbv zeta in Hk.
  assert (0 ≤ k) as Hk0 by apply Z.sqrt_nonneg.
  set (t := 2 ^ (- e')). set (v := 2 ^ (- e'')). set (u := 2 ^ (e'' - e')) in *.
  assert (0 < t) as Ht by (apply Z.pow_pos_nonneg; lia).
  assert (0 < v) as Hv by (apply Z.pow_pos_nonneg; lia).
  assert (0 < u) as Hu by (apply Z.pow_pos_nonneg; lia).
  assert (t = u * v) as Htuv.
  { unfold t, u, v. rewrite <- Z.pow_add_r by lia. f_equal. lia. }
  assert (Z.pos mz * 2 ^ (ez - 2 * e') = Z.pos p * (t * t)) as Hm'.
  { rewrite Hmz. unfold t. rewrite <- Z.mul_assoc, <- !Z.pow_add_r by lia.
    f_equal. f_equal. lia. }
  rewrite Hm' in Hq. clearbody t u v k.
  assert (0 < t * t) as Htt by (by apply Z.mul_pos_pos).
  assert (k * t ≤ Z.pos q) as Hlow.
  { destruct (Z.le_gt_cases (k * t) (Z.pos q)) as [|Hgt]; [done|exfalso].
    assert ((Z.pos q + 1) * (Z.pos q + 1) ≤ (k * t) * (k * t))
      by (apply Z.mul_le_mono_nonneg; lia).
    assert (k * k * (t * t) ≤ Z.pos p * (t * t))
      by (apply Z.mul_le_mono_nonneg_r; lia).
    replace ((k * t) * (k * t)) with (k * k * (t * t)) in * by ring. lia. }
  assert (Z.pos q + 1 ≤ (k + 1) * t) as Hup.
  { destruct (Z.le_gt_cases (Z.pos q + 1) ((k + 1) * t)) as [|Hgt]; [done|exfalso].
    assert (((k + 1) * t) * ((k + 1) * t) ≤ Z.pos q * Z.pos q)
      by (apply Z.mul_le_mono_nonneg; lia).
    assert (Z.pos p * (t * t) < Z.succ k * Z.succ k * (t * t))
      by (apply Z.mul_lt_mono_pos_r; lia).
    replace (((k + 1) * t) * ((k + 1) * t))
      with (Z.succ k * Z.succ k * (t * t)) in * by ring. lia. }
  split.
  - apply Z.div_le_lower_bound; [done|]. nia.
  - assert (Z.pos m'' `div` v < k + 2); [|lia].
    apply Z.div_lt_upper_bound; [done|]. nia.
Qed.

Lemma int_sqrt_binary64_spec (n : Z) :
  3 ≤ n < 2 ^ 53 → Z.sqrt n ≤ int_sqrt_binary64 n < n.
Proof.
  intros Hn. unfold int_sqrt_binary64.
  destruct (int_sqrt_binary64_bounds n) as (r & -> & Hr); [lia|]. simpl.
  pose proof (Z.sqrt_spec n ltac:(lia)) as Hk. cbv zeta in Hk.
  pose proof (Z.sqrt_nonneg n). nia.
Qed.

(** So for every limit up to 2^53 the benchmark run with binary64 square
    roots finds the same primes as with exact ones. *)
Lemma primes_binary64 (limit : Z) :
  limit ≤ 2 ^ 53 → primes_with int_sqrt_binary64 limit = primes limit.
Proof.
  intros Hlimit. apply primes_with_exact. intros n Hn _.
  apply int_sqrt_binary64_spec. lia.
Qed.

(** C3: for every limit the number of primes the benchmark finds below it
    by trial division is the number of primes the reference sieve finds;
    below 100 there are 25 and below 100000 there are 9592.  This holds
    with the square root taken exactly, for every limit, and with the
    square root computed in binary64, for every limit up to 2^53. *)
Theorem primes_found_sieve :
  (∀ limit, primes_found limit = Z.of_nat (length (sieve limit)))
  ∧ (∀ limit, limit ≤ 2 ^ 53 →
       Z.of_nat (length (primes_with int_sqrt_binary64 limit))
       = Z.of_nat (length (sieve limit)))
  ∧ primes_found 100 = 25
  ∧ primes_found 100000 = 9592.
Proof.
  split; [|split; [|exact primes_found_values]].
  - intros limit. unfold primes_found. by rewrite sieve_primes.
  - intros limit Hlimit. by rewrite primes_binary64, sieve_primes.
Qed.

(** *** The peak figures in binary64

    Doubling commutes with the division by 1000 as long as nothing
    overflows and the quotient is normal: the rounding sees the same
    mantissa, one exponent higher. *)

Lemma iter_pos_iter {A} (f : A → A) (p : positive) (x : A) :
  SpecFloat.iter_pos f p x = Pos.iter f x p.
Proof.
  revert x. induction p as [p IH|p IH|]; intros x; simpl.
  - by rewrite !IH, !Pos.iter_swap.
  - by rewrite !IH.
  - done.
Qed.

Lemma shr_1_m (mrs : shr_record) :
  0 ≤ shr_m mrs → shr_m (shr_1 mrs) = shr_m mrs `div` 2.
Proof.
  destruct mrs as [[|[p|p|]|p] r s]; cbn [shr_1 shr_m]; intros H;
    try done; try lia.
  - apply (Z.div_unique _ _ _ 1); lia.
  - apply (Z.div_unique _ _ _ 0); lia.
Qed.

Lemma shr_m_iter (p : positive) (mrs : shr_record) :
  0 ≤ shr_m mrs →
  shr_m (SpecFloat.iter_pos shr_1 p mrs) = shr_m mrs `div` 2 ^ Z.pos p.
Proof.
  intros Hm. rewrite iter_pos_iter.
  induction p as [|p IH] using Pos.peano_ind.
  - simpl. by rewrite shr_1_m.
  - rewrite Pos.iter_succ, shr_1_m, IH.
    + rewrite Pos2Z.inj_succ, Z.pow_succ_r by lia.
      rewrite Z.div_div by lia. f_equal. lia.
    + rewrite IH. apply Z.div_pos; lia.
Qed.

Lemma shifted_m (m : Z) (l : location) (n : Z) :
  0 ≤ m → 0 ≤ n → shr_m (Binary64.shifted m l n) = m `div` 2 ^ n.
Proof.
  intros Hm Hn. unfold Binary64.shifted, shr.
  assert (shr_m (shr_record_of_loc m l) = m) as Hrec by (by destruct l as [|[| |]]).
  destruct n as [|p|p]; [| |lia]; cbn [fst].
  - rewrite Hrec. by rewrite Z.div_1_r.
  - rewrite shr_m_iter; rewrite Hrec; [done|lia].
Qed.

Lemma shr_fexp_normal (m : positive) (e : Z) (l : location) :
  53 ≤ Z.pos (digits2_pos m) → -1074 ≤ Z.pos (digits2_pos m) + e - 53 →
  shr_fexp 53 1024 (Z.pos m) e l
  = (Binary64.shifted (Z.pos m) l (Z.pos (digits2_pos m) - 53),
     e + (Z.pos (digits2_pos m) - 53)).
Proof.
  intros Hd He. unfold shr_fexp, fexp, emin, Binary64.shifted. cbn [Zdigits2].
  replace (Z.max (Z.pos (digits2_pos m) + e - 53) (3 - 1024 - 53) - e)
    with (Z.pos (digits2_pos m) - 53) by lia.
  unfold shr. destruct (Z.pos (digits2_pos m) - 53) eqn:Hn; cbn [fst]; f_equal; lia.
Qed.

Lemma rounded_bounds (m : positive) (l : location) :
  53 ≤ Z.pos (digits2_pos m) →
  2 ^ 52 ≤ Binary64.rounded (Z.pos m) l ≤ 2 ^ 53.
Proof.
  intros Hd. unfold Binary64.rounded. cbn [Zdigits2].
  set (mrs := Binary64.shifted _ _ _).
  assert (2 ^ 52 ≤ shr_m mrs < 2 ^ 53) as Hm.
  { subst mrs. rewrite shifted_m by lia.
    pose proof (digits2_pos_bounds m) as [Hlo Hhi].
    set (d := Z.pos (digits2_pos m)) in *.
    assert (2 ^ (d - 1) = 2 ^ 52 * 2 ^ (d - 53)) as Hlo'
      by (rewrite <- Z.pow_add_r by lia; f_equal; lia).
    assert (2 ^ d = 2 ^ 53 * 2 ^ (d - 53)) as Hhi'
      by (rewrite <- Z.pow_add_r by lia; f_equal; lia).
    assert (0 < 2 ^ (d - 53)) by (apply Z.pow_pos_nonneg; lia).
    split.
    - apply Z.div_le_lower_bound; lia.
    - apply Z.div_lt_upper_bound; lia. }
  destruct mrs as [m0 [|] [|]]; cbn [loc_of_shr_record round_nearest_even shr_m] in *;
    try destruct (Z.even m0); lia.
Qed.

(** Rounding in the normal range: the exponent passes through. *)
Lemma binary_round_aux_normal (s : bool) (m : positive) (e : Z) (l : location) :
  53 ≤ Z.pos (digits2_pos m) →
  -1074 ≤ Z.pos (digits2_pos m) + e - 53 ≤ 971 →
  (Binary64.rounded (Z.pos m) l = 2 ^ 53 → Z.pos (digits2_pos m) + e - 53 ≤ 970) →
  binary_round_aux 53 1024 s (Z.pos m) e l
  = if decide (Binary64.rounded (Z.pos m) l = 2 ^ 53)
    then S754_finite s (2 ^ 52) (e + (Z.pos (digits2_pos m) - 53) + 1)
    else S754_finite s (Z.to_pos (Binary64.rounded (Z.pos m) l))
           (e + (Z.pos (digits2_pos m) - 53)).
Proof.
  intros Hd He Hcarry. pose proof (rounded_bounds m l Hd) as Hr.
  unfold binary_round_aux. rewrite shr_fexp_normal by lia.
  fold (Binary64.rounded (Z.pos m) l) in *.
  unfold Binary64.rounded in *. cbn [Zdigits2] in *.
  set (r := round_nearest_even _ _) in *.
  set (e' := e + (Z.pos (digits2_pos m) - 53)) in *.
  case_decide as Hc.
  - specialize (Hcarry Hc).
    rewrite Hc. change (2 ^ 53) with (Z.pos (2 ^ 53)%positive).
    rewrite shr_fexp_normal by (change (Z.pos (digits2_pos (2 ^ 53))) with 54; lia).
    change (Z.pos (digits2_pos (2 ^ 53))) with 54.
    change (Binary64.shifted (Z.pos (2 ^ 53)) loc_Exact (54 - 53))
      with {| shr_m := Z.pos (2 ^ 52); shr_r := false; shr_s := false |}.
    cbn [shr_m]. rewrite (proj2 (Z.leb_le _ _)) by lia. f_equal; lia.
  - destruct r as [|p|p]; [lia| |lia].
    assert (Z.pos (digits2_pos p) = 53) as Hp by (apply digits2_pos_unique; lia).
    rewrite shr_fexp_normal by lia. rewrite Hp.
    change (Binary64.shifted (Z.pos p) loc_Exact (53 - 53))
      with {| shr_m := Z.pos p; shr_r := false; shr_s := false |}.
    cbn [shr_m]. rewrite (proj2 (Z.leb_le _ _)) by lia.
    rewrite Z.add_0_r. reflexivity.
Qed.

Lemma shifted_exact (m p : positive) :
  Binary64.shifted (Z.pos m * 2 ^ Z.pos p) loc_Exact (Z.pos p)
  = {| shr_m := Z.pos m; shr_r := false; shr_s := false |}.
Proof.
  unfold Binary64.shifted, shr. cbn [fst shr_record_of_loc].
  rewrite iter_pos_iter. revert m.
  induction p as [|p IH] using Pos.peano_ind; intros m.
  - change (2 ^ 1) with 2. replace (Z.pos m * 2) with (Z.pos m~0) by lia. reflexivity.
  - rewrite Pos.iter_succ, Pos2Z.inj_succ, Z.pow_succ_r by lia.
    replace (Z.pos m * (2 * 2 ^ Z.pos p)) with (Z.pos m~0 * 2 ^ Z.pos p) by lia.
    by rewrite IH.
Qed.

Lemma two_eq : Binary64.two = S754_finite false (2 ^ 52) (-51).
Proof. reflexivity. Qed.

Lemma thousand_eq : Binary64.thousand = S754_finite false (1000 * 2 ^ 43) (-43).
Proof. reflexivity. Qed.

(** Doubling a normal double adds one to its exponent. *)
Lemma mul_two (s : bool) (m : positive) (e : Z) :
  Z.pos (digits2_pos m) = 53 → -1074 ≤ e ≤ 970 →
  Binary64.mul (S754_finite s m e) Binary64.two = S754_finite s m (e + 1).
Proof.
  intros Hd He. rewrite two_eq. unfold Binary64.mul, SFmul, Binary64.prec, Binary64.emax.
  pose proof (digits2_pos_bounds m) as Hm. rewrite Hd in Hm.
  assert (Z.pos (digits2_pos (m * 2 ^ 52)) = 105) as Hd'.
  { apply digits2_pos_unique. rewrite Pos2Z.inj_mul.
    change (Z.pos (2 ^ 52)) with (2 ^ 52).
    change (2 ^ (105 - 1)) with (2 ^ 52 * 2 ^ 52).
    change (2 ^ 105) with (2 ^ 53 * 2 ^ 52).
    change (53 - 1) with 52 in Hm. lia. }
  assert (Binary64.rounded (Z.pos (m * 2 ^ 52)) loc_Exact = Z.pos m) as Hr.
  { unfold Binary64.rounded. cbn [Zdigits2]. rewrite Hd'.
    rewrite Pos2Z.inj_mul. change (Z.pos (2 ^ 52)) with (2 ^ Z.pos 52).
    change (105 - 53) with (Z.pos 52). by rewrite shifted_exact. }
  rewrite binary_round_aux_normal by (rewrite ?Hr; lia).
  rewrite Hr, decide_False by lia.
  rewrite Pos2Z.id. destruct s; cbn [xorb]; f_equal; lia.
Qed.

(** The quotient of a normal double by 1000, before rounding. *)
Lemma div_thousand_core (m : positive) (e : Z) :
  Z.pos (digits2_pos m) = 53 → -1064 ≤ e →
  SFdiv_core_binary 53 1024 (Z.pos m) e (Z.pos (1000 * 2 ^ 43)) (-43)
  = ((Z.pos m * 2 ^ 53) `div` Z.pos (1000 * 2 ^ 43), e - 10,
     new_location (Z.pos (1000 * 2 ^ 43))
       ((Z.pos m * 2 ^ 53) `mod` Z.pos (1000 * 2 ^ 43))).
Proof.
  intros Hd He. unfold SFdiv_core_binary, fexp, emin. cbn [Zdigits2]. rewrite Hd.
  change (Z.pos (digits2_pos (1000 * 2 ^ 43))) with 53.
  replace (Z.min (Z.max (53 + e - (53 + -43) - 53) (3 - 1024 - 53)) (e - -43))
    with (e - 10) by lia.
  replace (e - -43 - (e - 10)) with 53 by lia.
  rewrite Z.shiftl_mul_pow2 by lia.
  unfold Z.div, Z.modulo.
  by destruct (Z.div_eucl _ _).
Qed.

Lemma div_thousand (s : bool) (m : positive) (e : Z) :
  Z.pos (digits2_pos m) = 53 → -1064 ≤ e ≤ 971 →
  ∃ m', Z.pos (digits2_pos m') = 53 ∧ ∃ c, 0 ≤ c ≤ 2 ∧ ∀ e', -1064 ≤ e' ≤ 971 →
    Binary64.div (S754_finite s m e') Binary64.thousand
    = S754_finite s m' (e' - 10 + c).
Proof.
  intros Hd He. pose proof (digits2_pos_bounds m) as Hm. rewrite Hd in Hm.
  change (53 - 1) with 52 in Hm.
  set (k := Z.pos (1000 * 2 ^ 43)).
  remember ((Z.pos m * 2 ^ 53) `div` k) as qz eqn:Hqz.
  set (l := new_location k ((Z.pos m * 2 ^ 53) `mod` k)).
  assert (2 ^ 52 ≤ qz < 2 ^ 54) as Hq.
  { subst qz k. split.
    - apply Z.div_le_lower_bound; [done|].
      change (Z.pos (1000 * 2 ^ 43)) with 8796093022208000.
      change (2 ^ 52) with 4503599627370496 in *.
      change (2 ^ 53) with 9007199254740992 in *. lia.
    - apply Z.div_lt_upper_bound; [done|].
      change (Z.pos (1000 * 2 ^ 43)) with 8796093022208000.
      change (2 ^ 54) with 18014398509481984.
      change (2 ^ 53) with 9007199254740992 in *. lia. }
  destruct qz as [|q|q]; [lia| |lia].
  assert (53 ≤ Z.pos (digits2_pos q) ≤ 54) as Hdq.
  { pose proof (digits2_pos_bounds q) as [Hlo Hhi].
    destruct (Z.le_gt_cases 53 (Z.pos (digits2_pos q))) as [H53|H53].
    - split; [done|]. destruct (Z.le_gt_cases (Z.pos (digits2_pos q)) 54); [done|].
      assert (2 ^ 54 ≤ 2 ^ (Z.pos (digits2_pos q) - 1)) by (apply Z.pow_le_mono_r; lia).
      lia.
    - assert (2 ^ Z.pos (digits2_pos q) ≤ 2 ^ 52) by (apply Z.pow_le_mono_r; lia).
      lia. }
  pose proof (rounded_bounds q l (proj1 Hdq)) as Hr.
  assert (∀ e', -1064 ≤ e' ≤ 971 →
    Binary64.div (S754_finite s m e') Binary64.thousand
    = binary_round_aux 53 1024 s (Z.pos q) (e' - 10) l) as Hdiv.
  { intros e' He'. rewrite thousand_eq.
    unfold Binary64.div, SFdiv, Binary64.prec, Binary64.emax.
    rewrite div_thousand_core by lia. fold k. fold l. rewrite <- Hqz.
    by destruct s. }
  destruct (decide (Binary64.rounded (Z.pos q) l = 2 ^ 53)) as [Hc|Hc].
  - exists (2 ^ 52)%positive. split; [reflexivity|].
    exists (Z.pos (digits2_pos q) - 53 + 1). split; [lia|].
    intros e' He'. rewrite Hdiv by done.
    rewrite binary_round_aux_normal by lia. rewrite decide_True by done.
    f_equal; lia.
  - destruct (Binary64.rounded (Z.pos q) l) as [|r|r] eqn:Hre; [lia| |lia].
    exists r. split; [apply digits2_pos_unique; lia|].
    exists (Z.pos (digits2_pos q) - 53). split; [lia|].
    intros e' He'. rewrite Hdiv by done.
    rewrite binary_round_aux_normal by lia. rewrite Hre, decide_False by done.
    f_equal; lia.
Qed.

Lemma double_peak (t : spec_float) :
  Binary64.scales t →
  Binary64.div (Binary64.mul t Binary64.two) Binary64.thousand
  = Binary64.mul (Binary64.div t Binary64.thousand) Binary64.two.
Proof.
  destruct t as [s|s| |s mt e]; [by destruct s | done | done |].
  intros [Hd He].
  destruct (div_thousand s mt e Hd) as (m' & Hd' & k & Hk & Hdiv); [lia|].
  rewrite mul_two by lia.
  rewrite !Hdiv by lia.
  rewrite mul_two by lia. f_equal; lia.
Qed.

Lemma two_thousand_of_int :
  Binary64.of_int 2 = Some Binary64.two
  ∧ Binary64.of_int 1000 = Some Binary64.thousand.
Proof. done. Qed.

(** The limit of [to_float] is the one of binary64: the integer just
    below it converts to the largest double, the limit itself does not
    convert. *)
Lemma double_limit_binary64 :
  Binary64.of_int (double_limit - 1) = Some (S754_finite false (2 ^ 53 - 1) 971)
  ∧ Binary64.of_int double_limit = None
  ∧ Binary64.of_int (- double_limit) = None.
Proof. by vm_compute. Qed.

(** C5, corrected: with [cpu_count] and [avg_clock_mhz] present, numeric
    and moderate (below 2^500 in magnitude), the metrics step returns
    normally and adds exactly three entries: the theoretical peaks for
    IPC 1 and IPC 2 under their two keys, each
    cores × clock_mhz × ipc / 1000, and the per-core estimate
    clock_mhz / 1000.  An integer core count too large for a float, with
    a float clock speed, makes the product raise [OverflowError], and
    nothing is stored.  4 cores at 3000 MHz give 12 at IPC 1, exactly 12.0
    in binary64, and 24.0 at IPC 2.  In binary64 the IPC 2 figure
    [(cores * clock_mhz * 2) / 1000] is exactly twice the IPC 1 figure
    [(cores * clock_mhz) / 1000] whenever the product [cores * clock_mhz]
    is zero or a normal double from 2^-1012 up to 2^1023. *)
Theorem calculate_core_power_stores
    (s : state) (c m : value) (cores clock_mhz : Qc) :
  results s !! "cpu_count" = Some c → as_number c = Some cores →
  results s !! "avg_clock_mhz" = Some m → as_number m = Some clock_mhz →
  (moderate c → moderate m →
   snd (calculate_core_power s) = inr tt
   ∧ results (fst (calculate_core_power s))
     = <["per_core_gflops" := VFloat (clock_mhz / float_of_int 1000)%Qc]>
         (<["theoretical_peak_gflops_ipc2" :=
              VFloat (theoretical_peak_gflops cores clock_mhz 2)]>
            (<["theoretical_peak_gflops_ipc1" :=
                 VFloat (theoretical_peak_gflops cores clock_mhz 1)]>
               (results s))))
  ∧ (∀ z, c = VInt z → m = VFloat clock_mhz → double_limit ≤ Z.abs z →
       snd (calculate_core_power s) = inl OverflowError
       ∧ results (fst (calculate_core_power s)) = results s)
  ∧ theoretical_peak_gflops (float_of_int 4) (float_of_int 3000) 1
    = float_of_int 12
  ∧ Binary64.peak 4 3000 1 = Binary64.of_int 12
  ∧ Binary64.peak 4 3000 2 = Binary64.of_int 24
  ∧ ∀ x y : spec_float,
      Binary64.scales (Binary64.mul x y) →
      Binary64.div (Binary64.mul (Binary64.mul x y) Binary64.two) Binary64.thousand
      = Binary64.mul (Binary64.div (Binary64.mul x y) Binary64.thousand)
          Binary64.two.
Proof.
  intros Hc Hcn Hm Hmn. split_and!.
  - intros Mc Mm.
    destruct (calculate_core_power_run s c m cores clock_mhz Hc Hcn Hm Hmn
                (moderate_within c Mc) (moderate_within m Mm))
      as (s' & -> & Hs').
    split; [reflexivity|].
    cbn [fst results store]. rewrite Hs', theoretical_peak_gflops_1. reflexivity.
  - intros z -> -> Hz. by apply (calculate_core_power_raises s z clock_mhz).
  - apply Qc_is_canon. reflexivity.
  - reflexivity.
  - reflexivity.
  - intros x y. apply double_peak.
Qed.

Lemma calculate_core_power_stores_witness :
  results (fst (calculate_core_power
                  (mkState {[ "cpu_count" := VInt 4;
                              "avg_clock_mhz" := VFloat (float_of_int 3000) ]}
                     [] (λ _, 0%Qc) 0)))
    !! "theoretical_peak_gflops_ipc1"
  = Some (VFloat (float_of_int 12)).
Proof.
  destruct (calculate_core_power_stores
              (mkState {[ "cpu_count" := VInt 4;
                          "avg_clock_mhz" := VFloat (float_of_int 3000) ]}
                 [] (λ _, 0%Qc) 0)
              (VInt 4) (VFloat (float_of_int 3000))
              (float_of_int 4) (float_of_int 3000))
    as (Hstores & _ & Hval & _); [vm_compute; reflexivity | reflexivity
                                 | vm_compute; reflexivity | reflexivity |].
  destruct Hstores as (_ & Hres);
    [vm_compute; reflexivity | split; vm_compute; reflexivity |].
  rewrite Hres, <- Hval.
  rewrite lookup_insert_ne, lookup_insert_ne by done.
  apply lookup_insert_eq.
Defined.

(** C5, as the claim states it, fails: with a core count of 10^400, which
    [int] reads from a line of the lscpu output, and a clock speed both
    present, the metrics step raises [OverflowError] and stores nothing;
    and for one core at a clock speed of 10^308 MHz the IPC 2 figure is
    infinite in binary64 while the IPC 1 figure is finite. *)
Lemma calculate_core_power_overflows :
  snd (calculate_core_power
         (fresh {[ "cpu_count" := VInt (10 ^ 400);
                   "avg_clock_mhz" := VFloat (float_of_int 3000) ]} 0%Qc 0%Qc))
  = inl OverflowError
  ∧ results (fst (calculate_core_power
                    (fresh {[ "cpu_count" := VInt (10 ^ 400);
                              "avg_clock_mhz" := VFloat (float_of_int 3000) ]}
                       0%Qc 0%Qc)))
    = {[ "cpu_count" := VInt (10 ^ 400);
         "avg_clock_mhz" := VFloat (float_of_int 3000) ]}
  ∧ Binary64.of_int (10 ^ 400) = None
  ∧ Binary64.peak 1 (10 ^ 308) 2 = Some (S754_infinity false)
  ∧ ∃ m e, Binary64.peak 1 (10 ^ 308) 1 = Some (S754_finite false m e).
Proof.
  split_and!.
  - refine (proj1 (calculate_core_power_raises _ (10 ^ 400) (float_of_int 3000) _ _ _));
      by vm_compute.
  - refine (proj2 (calculate_core_power_raises _ (10 ^ 400) (float_of_int 3000) _ _ _));
      by vm_compute.
  - by vm_compute.
  - by vm_compute.
  - eexists _, _. vm_compute. reflexivity.
Qed.

(** * Further properties of the workloads *)

(** With the square root computed in binary64, as Python does, [is_prime]
    gives the same answer as with the exact square root, and so decides
    primality, for every argument below 2^53. *)
Theorem is_prime_binary64 (n : Z) :
  n < 2 ^ 53 →
  is_prime_with int_sqrt_binary64 n = is_prime n
  ∧ (is_prime_with int_sqrt_binary64 n = true ↔ Z.prime n).
Proof.
  intros Hn.
  assert (is_prime_with int_sqrt_binary64 n = true ↔ Z.prime n) as H.
  { apply is_prime_with_spec. intros H3 _. apply int_sqrt_binary64_spec. lia. }
  split; [|exact H].
  pose proof (is_prime_spec n) as H'.
  destruct (is_prime_with int_sqrt_binary64 n), (is_prime n); try done.
  - symmetry. apply H', H. done.
  - apply H, H'. done.
Qed.

Lemma is_prime_binary64_witness :
  97 < 2 ^ 53 ∧ is_prime_with int_sqrt_binary64 97 = is_prime 97.
Proof.
  split; [reflexivity|]. exact (proj1 (is_prime_binary64 97 eq_refl)).
Defined.

(** The list the prime benchmark builds holds exactly the primes from 2
    below [limit], in increasing order and each once. *)
Theorem primes_in_order (limit : Z) :
  (∀ n, n ∈ primes limit ↔ 2 ≤ n < limit ∧ Z.prime n)
  ∧ StronglySorted Z.lt (primes limit)
  ∧ NoDup (primes limit).
Proof.
  unfold primes, primes_with. split; [|split].
  - intros n. rewrite list_elem_of_filter, elem_of_range2.
    change (is_prime_with int_sqrt n) with (is_prime n).
    rewrite is_prime_spec. tauto.
  - apply StronglySorted_filter. rewrite range2_seqZ. apply StronglySorted_seqZ.
  - apply NoDup_filter. rewrite range2_seqZ. apply NoDup_seqZ.
Qed.

Lemma range2_app (a b c : Z) :
  a ≤ b ≤ c → range2 a c = range2 a b ++ range2 b c.
Proof.
  intros H. rewrite !range2_seqZ.
  replace (c - a) with ((b - a) + (c - b)) by lia.
  rewrite seqZ_app by lia. do 3 f_equal. lia.
Qed.

Lemma range2_empty (a b : Z) : b ≤ a → range2 a b = [].
Proof. intros H. rewrite range2_seqZ. apply seqZ_nil. lia. Qed.

(** Raising the limit only appends primes: the list for a smaller limit
    is a prefix of the list for a larger one, so the count never drops. *)
Theorem primes_found_monotone (limit limit' : Z) :
  limit ≤ limit' →
  primes limit `prefix_of` primes limit'
  ∧ primes_found limit ≤ primes_found limit'.
Proof.
  intros H.
  assert (primes limit `prefix_of` primes limit') as Hp.
  { unfold primes, primes_with.
    destruct (Z.le_gt_cases 2 limit) as [H2|H2].
    - rewrite (range2_app 2 limit limit') by lia. rewrite filter_app.
      by eexists.
    - rewrite (range2_empty 2 limit) by lia. apply prefix_nil. }
  split; [done|]. unfold primes_found.
  apply prefix_length in Hp. lia.
Qed.

Lemma primes_found_monotone_witness :
  primes_found 10 ≤ primes_found 20.
Proof. refine (proj2 (primes_found_monotone 10 20 _)). lia. Defined.

(** On an empty range the workloads do nothing: a non-positive iteration
    count sums to 0, a limit of at most 2 finds no prime, and a
    non-positive size gives the empty list, which sorts to itself. *)
Theorem workloads_on_empty_ranges (n limit : Z) :
  n ≤ 0 → limit ≤ 2 →
  arithmetic_loop n = 0
  ∧ primes limit = [] ∧ primes_found limit = 0
  ∧ descending n = [] ∧ sorted_descending n = [].
Proof.
  intros Hn Hl.
  assert (primes limit = []) as Hp.
  { unfold primes, primes_with. by rewrite range2_empty. }
  assert (descending n = []) as Hd.
  { rewrite descending_reverse, seqZ_nil by done. done. }
  repeat split.
  - unfold arithmetic_loop. rewrite range_seqZ, seqZ_nil by done. done.
  - done.
  - unfold primes_found. by rewrite Hp.
  - done.
  - unfold sorted_descending. by rewrite Hd.
Qed.

Lemma workloads_on_empty_ranges_witness :
  arithmetic_loop (-3) = 0 ∧ primes_found 2 = 0.
Proof.
  destruct (workloads_on_empty_ranges (-3) 2) as (H1 & _ & H2 & _); [lia | lia |].
  by split.
Defined.

Lemma fib_nonneg_step (n : nat) :
  0 ≤ fib (Z.of_nat n) ∧ fib (Z.of_nat n) ≤ fib (Z.of_nat n + 1).
Proof.
  induction n as [|n [IH1 IH2]].
  - rewrite !fib_base by lia. lia.
  - replace (Z.of_nat (S n)) with (Z.of_nat n + 1) by lia.
    split; [lia|].
    rewrite (fib_step (Z.of_nat n + 1 + 1)) by lia.
    replace (Z.of_nat n + 1 + 1 - 1) with (Z.of_nat n + 1) by lia.
    replace (Z.of_nat n + 1 + 1 - 2) with (Z.of_nat n) by lia.
    lia.
Qed.

Lemma fib_le_nat (m k : nat) :
  fib (Z.of_nat m) ≤ fib (Z.of_nat m + Z.of_nat k).
Proof.
  induction k as [|k IH].
  - rewrite Z.add_0_r. lia.
  - etrans; [exact IH|].
    replace (Z.of_nat m + Z.of_nat (S k)) with (Z.of_nat (m + k) + 1) by lia.
    replace (Z.of_nat m + Z.of_nat k) with (Z.of_nat (m + k)) by lia.
    apply fib_nonneg_step.
Qed.

(** [fib] is non-negative and non-decreasing from 0 on; below 0 it
    returns its argument unchanged, without recursing. *)
Theorem fib_monotone (m n : Z) :
  0 ≤ m ≤ n →
  0 ≤ fib m ≤ fib n ∧ fib (- n - 1) = - n - 1.
Proof.
  intros [Hm Hn]. split; [split|].
  - rewrite <- (Z2Nat.id m) by done. apply fib_nonneg_step.
  - replace n with (Z.of_nat (Z.to_nat m) + Z.of_nat (Z.to_nat (n - m))) by lia.
    rewrite <- (Z2Nat.id m) at 1 by done. apply fib_le_nat.
  - apply fib_base. lia.
Qed.

Lemma fib_monotone_witness : fib 5 ≤ fib 9.
Proof.
  destruct (fib_monotone 5 9) as [[_ H] _]; [lia | exact H].
Defined.

(** * What the methods keep *)

Lemma preserves_refl (keys : gset string) (s : state) : preserves keys s s.
Proof. by repeat split. Qed.

Lemma preserves_trans (keys : gset string) (s1 s2 s3 : state) :
  preserves keys s1 s2 → preserves keys s2 s3 → preserves keys s1 s3.
Proof.
  intros (Hc & Hk & Ht & Hd & Hr) (Hc' & Hk' & Ht' & Hd' & Hr').
  repeat split.
  - by etrans.
  - congruence.
  - lia.
  - by etrans.
  - intros k Hin. by rewrite Hr', Hr.
Qed.

Lemma preserves_log (keys : gset string) (l : line) (s : state) :
  preserves keys s (log l s).
Proof. repeat split; try done. by apply prefix_app_r. Qed.

Lemma preserves_tick (keys : gset string) (s : state) :
  preserves keys s (tick s).
Proof. repeat split; try done. simpl. lia. Qed.

Lemma preserves_store (keys : gset string) (k : string) (v : value) (s : state) :
  k ∈ keys → preserves keys s (store k v s).
Proof.
  intros Hk. repeat split; try done; simpl.
  - rewrite dom_insert_L. set_solver.
  - intros k' Hk'. apply lookup_insert_ne. by intros ->.
Qed.

Section WritesOnly.
Context (keys : gset string).

Lemma writes_only_ret {A} (a : A) : writes_only keys (mret a : M A).
Proof. intros s. apply preserves_refl. Qed.

Lemma writes_only_lift {A} (r : exn + A) : writes_only keys (lift r).
Proof. intros s. apply preserves_refl. Qed.

Lemma writes_only_print (l : line) : writes_only keys (print l).
Proof. intros s. apply preserves_log. Qed.

Lemma writes_only_time : writes_only keys time_time.
Proof. intros s. apply preserves_tick. Qed.

Lemma writes_only_set (k : string) (v : value) :
  k ∈ keys → writes_only keys (results_set k v).
Proof. intros Hk s. by apply preserves_store. Qed.

Lemma writes_only_get (k : string) : writes_only keys (results_get k).
Proof. intros s. apply preserves_refl. Qed.

Lemma writes_only_contains (k : string) : writes_only keys (results_contains k).
Proof. intros s. apply preserves_refl. Qed.

Lemma writes_only_item (k : string) : writes_only keys (results_item k).
Proof.
  intros s. unfold results_item. destruct (results s !! k); apply preserves_refl.
Qed.

Lemma writes_only_bind {A B} (m : M A) (k : A → M B) :
  writes_only keys m → (∀ a, writes_only keys (k a)) →
  writes_only keys (m ≫= k).
Proof.
  intros Hm Hk s. unfold mbind, M_bind. specialize (Hm s).
  destruct (m s) as [s' [e|a]]; [done|].
  eapply preserves_trans; [exact Hm | apply Hk].
Qed.

Lemma writes_only_for_each {A} (l : list A) (body : A → M unit) :
  (∀ x, writes_only keys (body x)) → writes_only keys (for_each l body).
Proof.
  intros Hbody. induction l as [|x l IH]; simpl.
  - apply writes_only_ret.
  - apply writes_only_bind; [apply Hbody | by intros _].
Qed.

End WritesOnly.

Ltac writes_steps :=
  repeat first
    [ apply writes_only_print
    | apply writes_only_lift
    | apply writes_only_ret
    | apply writes_only_time
    | apply writes_only_get
    | apply writes_only_contains
    | apply writes_only_item
    | apply writes_only_set; set_solver
    | apply writes_only_for_each; intros ?
    | apply writes_only_bind; [|intros ?]
    | match goal with
      | |- writes_only _ (if ?b then _ else _) => destruct b
      | |- writes_only _ (match ?x with _ => _ end) => destruct x
      end ].

(** Every benchmark and both analysis steps only add to the state: what
    was printed stays, nothing is deleted from the store, and each method
    writes under its own keys only, whether it returns or raises.  The
    rating step writes under no key at all, so it leaves the store as it
    found it. *)
Theorem methods_write_their_own_keys (n : Z) :
  writes_only {[ "arithmetic_benchmark_ms"; "arithmetic_gops" ]}
    (benchmark_single_core_arithmetic n)
  ∧ writes_only {[ "fibonacci_ms" ]} (benchmark_fibonacci_single_thread n)
  ∧ writes_only {[ "prime_finding_ms"; "primes_found" ]}
      (benchmark_prime_finding n)
  ∧ writes_only {[ "sort_benchmark_ms" ]} (benchmark_memory_intensive n)
  ∧ writes_only {[ "theoretical_peak_gflops_ipc1";
                   "theoretical_peak_gflops_ipc2"; "per_core_gflops" ]}
      calculate_core_power
  ∧ writes_only ∅ generate_performance_rating
  ∧ ∀ s, results (fst (generate_performance_rating s)) = results s.
Proof.
  assert (writes_only ∅ generate_performance_rating) as Hrating.
  { unfold generate_performance_rating, rate_arithmetic_step, rate_cores_step,
      rate_arithmetic, rate_cores, arithmetic_tier.
    writes_steps. }
  split_and!.
  - unfold benchmark_single_core_arithmetic. cbv zeta. writes_steps.
  - unfold benchmark_fibonacci_single_thread. cbv zeta. writes_steps.
  - unfold benchmark_prime_finding. cbv zeta. writes_steps.
  - unfold benchmark_memory_intensive. cbv zeta. writes_steps.
  - unfold calculate_core_power, print_peak. cbv zeta. writes_steps.
  - exact Hrating.
  - intros s. destruct (Hrating s) as (_ & _ & _ & _ & H).
    apply map_eq. intros k. apply H. set_solver.
Qed.

(** * Core-count comparison *)

Lemma cmp_ge_int (c z : Z) : cmp_ge (VInt c) z = inr (bool_decide (z ≤ c)).
Proof.
  unfold cmp_ge. simpl. f_equal. apply bool_decide_ext. unfold float_of_int.
  symmetry. apply Z2Qc_inj_le.
Qed.

Lemma cmp_gt_int (c z : Z) : cmp_gt (VInt c) z = inr (bool_decide (z < c)).
Proof.
  unfold cmp_gt. simpl. f_equal. apply bool_decide_ext. unfold float_of_int.
  symmetry. apply Z2Qc_inj_lt.
Qed.

(** For a stored integer core count other than 0 the rating step prints
    the comparison heading and exactly one tier: from 4 on the public
    tier, for 2 and 3 the private tier, below 2 the limited tier.  In the
    limited tier the count is below 2, so the word "core" never gets its
    plural "s". *)
Theorem core_count_tiers (s : state) (c : Z) :
  results s !! "cpu_count" = Some (VInt c) →
  c ≠ 0 →
  (4 ≤ c →
   rate_cores_step s
   = (compared [Lit "  ✓ Public Repo tier (4+ cores)"] s, inr tt))
  ∧ (2 ≤ c < 4 →
     rate_cores_step s
     = (compared [Lit "  ✓ Private Repo tier (2+ cores)"] s, inr tt))
  ∧ (c < 2 →
     rate_cores_step s
     = (compared [Lit "  ⚠️  Limited tier ("; Fmt "" (VInt c); Lit " core";
                  Fmt "" (VStr ""); Lit ")"] s, inr tt)).
Proof.
  intros Hs Hc.
  assert (rate_cores_step s = rate_cores (VInt c) s) as ->.
  { unfold rate_cores_step. rewrite bind_get, Hs. cbn [truthy].
    by rewrite bool_decide_eq_true_2 by done. }
  unfold rate_cores, compared. mrun. rewrite !cmp_ge_int, cmp_gt_int.
  split_and!; intros H.
  - rewrite (bool_decide_eq_true_2 (4 ≤ c)) by done. by mrun.
  - rewrite (bool_decide_eq_false_2 (4 ≤ c)) by lia. mrun.
    rewrite (bool_decide_eq_true_2 (2 ≤ c)) by lia. by mrun.
  - rewrite (bool_decide_eq_false_2 (4 ≤ c)) by lia. mrun.
    rewrite (bool_decide_eq_false_2 (2 ≤ c)) by lia. mrun.
    rewrite (bool_decide_eq_false_2 (1 < c)) by lia. by mrun.
Qed.

Lemma core_count_tiers_witness :
  rate_cores_step (fresh {[ "cpu_count" := VInt 1 ]} 0%Qc 1%Qc)
  = (compared [Lit "  ⚠️  Limited tier ("; Fmt "" (VInt 1); Lit " core";
               Fmt "" (VStr ""); Lit ")"]
       (fresh {[ "cpu_count" := VInt 1 ]} 0%Qc 1%Qc), inr tt).
Proof.
  destruct (core_count_tiers (fresh {[ "cpu_count" := VInt 1 ]} 0%Qc 1%Qc) 1)
    as (_ & _ & H).
  - vm_compute. reflexivity.
  - lia.
  - apply H. lia.
Defined.

(** * Derived metrics, run again *)

(** The metrics step reads [cpu_count] and [avg_clock_mhz] and writes
    neither, so with two moderate numbers there (below 2^500 in
    magnitude) running it a second time returns again and stores the
    same three values: the store after two runs is the store after one. *)
Theorem calculate_core_power_idempotent
    (s : state) (c m : value) (cores clock_mhz : Qc) :
  results s !! "cpu_count" = Some c → as_number c = Some cores →
  results s !! "avg_clock_mhz" = Some m → as_number m = Some clock_mhz →
  moderate c → moderate m →
  snd (calculate_core_power (fst (calculate_core_power s))) = inr tt
  ∧ results (fst (calculate_core_power (fst (calculate_core_power s))))
    = results (fst (calculate_core_power s))
  ∧ results (fst (calculate_core_power s)) !! "cpu_count" = Some c
  ∧ results (fst (calculate_core_power s)) !! "avg_clock_mhz" = Some m.
Proof.
  intros Hc Hcn Hm Hmn Mc%moderate_within Mm%moderate_within.
  destruct (calculate_core_power_run s c m cores clock_mhz Hc Hcn Hm Hmn Mc Mm)
    as (s1 & Hrun & Hs1).
  rewrite Hrun. cbn [fst].
  set (s2 := store _ _ (store _ _ (store _ _ s1))).
  assert (results s2 !! "cpu_count" = Some c) as Hc2.
  { subst s2. cbn [results store]. rewrite !lookup_insert_ne by done. by rewrite Hs1. }
  assert (results s2 !! "avg_clock_mhz" = Some m) as Hm2.
  { subst s2. cbn [results store]. rewrite !lookup_insert_ne by done. by rewrite Hs1. }
  destruct (calculate_core_power_run s2 c m cores clock_mhz Hc2 Hcn Hm2 Hmn Mc Mm)
    as (s3 & Hrun2 & Hs3).
  rewrite Hrun2. split_and!; try done.
  cbn [fst results store]. rewrite Hs3. subst s2. cbn [results store].
  apply map_eq. intros k.
  destruct (decide (k = "per_core_gflops")) as [->|H1];
    [by simplify_map_eq|].
  destruct (decide (k = "theoretical_peak_gflops_ipc2")) as [->|H2];
    [by simplify_map_eq|].
  destruct (decide (k = "theoretical_peak_gflops_ipc1")) as [->|H3];
    by simplify_map_eq.
Qed.

Lemma calculate_core_power_idempotent_witness :
  snd (calculate_core_power
         (fst (calculate_core_power
                 (fresh {[ "cpu_count" := VInt 4;
                           "avg_clock_mhz" := VFloat (float_of_int 3000) ]}
                    0%Qc 1%Qc))))
  = inr tt.
Proof.
  refine (proj1 (calculate_core_power_idempotent
                   (fresh {[ "cpu_count" := VInt 4;
                             "avg_clock_mhz" := VFloat (float_of_int 3000) ]}
                      0%Qc 1%Qc)
                   (VInt 4) (VFloat (float_of_int 3000))
                   (float_of_int 4) (float_of_int 3000) _ _ _ _ _ _));
    try reflexivity; try (split; vm_compute; reflexivity); vm_compute; reflexivity.
Defined.

(** * The benchmarks and the analysis in sequence *)



(** What each benchmark leaves, for a duration other than zero: its
    entries in the store, two more readings of the clock, and more lines
    on the console. *)
Lemma arithmetic_summary (n : Z) (s : state) :
  elapsed s ≠ 0%Qc →
  ∃ s', benchmark_single_core_arithmetic n s
        = (s', inr (elapsed s * float_of_int 1000)%Qc)
        ∧ results s'
          = <["arithmetic_gops" :=
                VFloat (float_of_int n / elapsed s / float_of_int 1000000000)%Qc]>
              (<["arithmetic_benchmark_ms" :=
                   VFloat (elapsed s * float_of_int 1000)%Qc]> (results s))
        ∧ clock s' = clock s ∧ ticks s' = S (S (ticks s)).
Proof.
  intros H. rewrite benchmark_single_core_arithmetic_run by done.
  eexists. split; [reflexivity|]. done.
Qed.

Lemma fibonacci_summary (n : Z) (s : state) :
  ∃ s', benchmark_fibonacci_single_thread n s = (s', inr tt)
        ∧ results s'
          = <["fibonacci_ms" := VFloat (elapsed s * float_of_int 1000)%Qc]>
              (results s)
        ∧ clock s' = clock s ∧ ticks s' = S (S (ticks s)).
Proof.
  rewrite benchmark_fibonacci_single_thread_run.
  eexists. split; [reflexivity|]. done.
Qed.

Lemma prime_finding_summary (n : Z) (s : state) :
  elapsed s ≠ 0%Qc →
  ∃ s', benchmark_prime_finding n s = (s', inr tt)
        ∧ results s'
          = <["primes_found" := VInt (primes_found n)]>
              (<["prime_finding_ms" := VFloat (elapsed s * float_of_int 1000)%Qc]>
                 (results s))
        ∧ clock s' = clock s ∧ ticks s' = S (S (ticks s)).
Proof.
  intros H. rewrite benchmark_prime_finding_run by done.
  eexists. split; [reflexivity|]. done.
Qed.


Lemma elapsed_later (i : nat) (s s' : state) :
  clock s' = clock s → ticks s' = (2 * i + ticks s)%nat →
  elapsed s' = elapsed_at i s.
Proof. intros Hc Ht. unfold elapsed, elapsed_at. by rewrite Hc, Ht. Qed.






Ltac untouched :=
  intros k Hk; rewrite ?lookup_insert_ne; [reflexivity | intros <-; set_solver ..].




Ltac unprinted :=
  cbn [fst console log store tick];
  rewrite !elem_of_app, !list_elem_of_singleton;
  intros H; decompose [or] H; clear H; first [assumption | discriminate].

(** No benchmark prints the heading of the rating. *)
Lemma arithmetic_quiet (n : Z) (s : state) :
  [Lit "PERFORMANCE RATING"] ∈ console (fst (benchmark_single_core_arithmetic n s)) →
  [Lit "PERFORMANCE RATING"] ∈ console s.
Proof.
  destruct (decide (elapsed s = 0%Qc)) as [H0|H0].
  - rewrite benchmark_single_core_arithmetic_zero by done. unprinted.
  - rewrite benchmark_single_core_arithmetic_run by done. unprinted.
Qed.

Lemma fibonacci_quiet (n : Z) (s : state) :
  [Lit "PERFORMANCE RATING"] ∈ console (fst (benchmark_fibonacci_single_thread n s)) →
  [Lit "PERFORMANCE RATING"] ∈ console s.
Proof. rewrite benchmark_fibonacci_single_thread_run. unprinted. Qed.

Lemma prime_finding_quiet (n : Z) (s : state) :
  [Lit "PERFORMANCE RATING"] ∈ console (fst (benchmark_prime_finding n s)) →
  [Lit "PERFORMANCE RATING"] ∈ console s.
Proof.
  destruct (decide (elapsed s = 0%Qc)) as [H0|H0].
  - rewrite benchmark_prime_finding_zero by done. unprinted.
  - rewrite benchmark_prime_finding_run by done. unprinted.
Qed.

Lemma memory_intensive_quiet (n : Z) (s : state) :
  [Lit "PERFORMANCE RATING"] ∈ console (fst (benchmark_memory_intensive n s)) →
  [Lit "PERFORMANCE RATING"] ∈ console s.
Proof.
  destruct (decide (elapsed s = 0%Qc)) as [H0|H0].
  - rewrite benchmark_memory_intensive_zero by done. unprinted.
  - rewrite benchmark_memory_intensive_run by done. unprinted.
Qed.

(** What a benchmark leaves when its duration is zero. *)
Lemma arithmetic_zero_summary (n : Z) (s : state) :
  elapsed s = 0%Qc →
  ∃ s', benchmark_single_core_arithmetic n s = (s', inl ZeroDivisionError)
        ∧ results s' = results s.
Proof.
  intros H. rewrite benchmark_single_core_arithmetic_zero by done. by eexists.
Qed.

Lemma prime_finding_zero_summary (n : Z) (s : state) :
  elapsed s = 0%Qc →
  ∃ s', benchmark_prime_finding n s = (s', inl ZeroDivisionError)
        ∧ results s' = results s.
Proof.
  intros H. rewrite benchmark_prime_finding_zero by done. by eexists.
Qed.

Lemma memory_intensive_zero_summary (n : Z) (s : state) :
  elapsed s = 0%Qc →
  ∃ s', benchmark_memory_intensive n s = (s', inl ZeroDivisionError)
        ∧ results s' = results s.
Proof.
  intros H. rewrite benchmark_memory_intensive_zero by done. by eexists.
Qed.

(** When one of the three benchmarks that divide by their duration
    measures a duration of zero, the run stops there with
    [ZeroDivisionError]: the derived metrics are not computed (the store
    changes under the benchmark keys only) and no rating is printed. *)
Theorem run_benchmarks_aborts (s : state) :
  elapsed_at 0 s = 0%Qc ∨ elapsed_at 2 s = 0%Qc ∨ elapsed_at 3 s = 0%Qc →
  snd (run_benchmarks s) = inl ZeroDivisionError
  ∧ (∀ k, k ∉ ({[ "arithmetic_benchmark_ms"; "arithmetic_gops"; "fibonacci_ms";
                  "prime_finding_ms"; "primes_found"; "sort_benchmark_ms" ]}
               : gset string) →
          results (fst (run_benchmarks s)) !! k = results s !! k)
  ∧ ([Lit "PERFORMANCE RATING"] ∈ console (fst (run_benchmarks s)) →
     [Lit "PERFORMANCE RATING"] ∈ console s).
Proof.
  intros Hzero. unfold run_benchmarks.
  pose proof (arithmetic_quiet 100000000 s) as Q1.
  destruct (decide (elapsed_at 0 s = 0%Qc)) as [H0|H0].
  { destruct (arithmetic_zero_summary 100000000 s H0) as (s1 & E1 & R1).
    rewrite E1 in Q1. rewrite (bind_raise _ _ _ _ _ E1). cbn [fst snd] in *.
    split_and!; [done | by rewrite R1 | done]. }
  destruct (arithmetic_summary 100000000 s H0) as (s1 & E1 & R1 & C1 & T1).
  rewrite E1 in Q1. rewrite (bind_run _ _ _ _ _ E1). cbn [fst] in Q1.
  pose proof (fibonacci_quiet 35 s1) as Q2.
  destruct (fibonacci_summary 35 s1) as (s2 & E2 & R2 & C2 & T2).
  rewrite E2 in Q2. rewrite (bind_run _ _ _ _ _ E2). cbn [fst] in Q2.
  rewrite R1 in R2. clear R1.
  pose proof (prime_finding_quiet 100000 s2) as Q3.
  destruct (decide (elapsed_at 2 s = 0%Qc)) as [H2|H2].
  { rewrite <- (elapsed_later 2 s s2) in H2
      by (rewrite ?T2, ?T1; congruence || done).
    destruct (prime_finding_zero_summary 100000 s2 H2) as (s3 & E3 & R3).
    rewrite E3 in Q3. rewrite (bind_raise _ _ _ _ _ E3). cbn [fst snd] in *.
    split_and!; [done | rewrite R3, R2; untouched | auto]. }
  rewrite <- (elapsed_later 2 s s2) in H2
    by (rewrite ?T2, ?T1; congruence || done).
  destruct (prime_finding_summary 100000 s2 H2) as (s3 & E3 & R3 & C3 & T3).
  rewrite E3 in Q3. rewrite (bind_run _ _ _ _ _ E3). cbn [fst] in Q3.
  rewrite R2 in R3. clear R2.
  pose proof (memory_intensive_quiet 5000000 s3) as Q4.
  assert (elapsed s3 = 0%Qc) as H3.
  { rewrite (elapsed_later 3 s s3) by (rewrite ?T3, ?T2, ?T1; congruence || done).
    destruct Hzero as [?|[?|?]]; [done | | done].
    exfalso. apply H2.
    by rewrite (elapsed_later 2 s s2) by (rewrite ?T2, ?T1; congruence || done). }
  destruct (memory_intensive_zero_summary 5000000 s3 H3) as (s4 & E4 & R4).
  rewrite E4 in Q4. rewrite (bind_raise _ _ _ _ _ E4). cbn [fst snd] in *.
  split_and!; [done | rewrite R4, R3; untouched | auto].
Qed.

Lemma run_benchmarks_aborts_witness :
  snd (run_benchmarks (fresh ∅ 0%Qc 0%Qc)) = inl ZeroDivisionError.
Proof.
  refine (proj1 (run_benchmarks_aborts (fresh ∅ 0%Qc 0%Qc) _)).
  left. apply Qc_is_canon. reflexivity.
Defined.

(** * The probes *)

(** ** Text *)

Lemma split_nonempty (sep : ascii) (s : string) :
  ∃ piece pieces, Str.split sep s = piece :: pieces.
Proof.
  destruct s as [|c s]; simpl; [by eexists _, _|].
  destruct (Ascii.eqb c sep); [by eexists _, _|].
  destruct (Str.split sep s); by eexists _, _.
Qed.

(** [s.split(sep)] has a second piece exactly when [sep] occurs in [s]. *)
Lemma split_second (sep : ascii) (s : string) :
  is_Some (Str.split sep s !! 1%nat)
  ↔ Str.contains (String sep EmptyString) s = true.
Proof.
  induction s as [|c s IH]; simpl.
  - split; [by intros [? ?] | done].
  - rewrite (Ascii.eqb_sym sep c).
    destruct (Ascii.eqb c sep) eqn:Hc; simpl.
    + destruct (split_nonempty sep s) as (w & ws & ->). simpl.
      split; [done | by eexists].
    + rewrite <- IH.
      destruct (split_nonempty sep s) as (w & ws & ->). done.
Qed.

Lemma split_second_None (sep : ascii) (s : string) :
  Str.contains (String sep EmptyString) s = false →
  Str.split sep s !! 1%nat = None.
Proof.
  intros Hc. apply eq_None_not_Some. rewrite split_second. by rewrite Hc.
Qed.

(** ** Computations that return *)

Lemma never_raises_ret {A} (a : A) : never_raises (mret a : M A).
Proof. intros s. by exists a. Qed.

Lemma never_raises_print (l : line) : never_raises (print l).
Proof. intros s. by exists tt. Qed.

Lemma never_raises_set (k : string) (v : value) : never_raises (results_set k v).
Proof. intros s. by exists tt. Qed.

Lemma never_raises_bind {A B} (m : M A) (k : A → M B) :
  never_raises m → (∀ a, never_raises (k a)) → never_raises (m ≫= k).
Proof.
  intros Hm Hk s. unfold mbind, M_bind. destruct (Hm s) as [a Ha].
  destruct (m s) as [s' [e|a']]; [done|]. apply Hk.
Qed.

Lemma never_raises_run {A} (m : M A) (s : state) :
  never_raises m → ∃ s' a, m s = (s', inr a).
Proof.
  intros Hm. destruct (Hm s) as [a Ha]. destruct (m s) as [s' r].
  simpl in Ha. subst r. by eexists _, _.
Qed.

Ltac returns_steps :=
  repeat first
    [ apply never_raises_print
    | apply never_raises_set
    | apply never_raises_ret
    | apply never_raises_bind; [|intros ?]
    | match goal with
      | |- never_raises (if ?b then _ else _) => destruct b
      | |- never_raises (match ?x with _ => _ end) => destruct x
      end ].

(** ** The lscpu output *)

Lemma latest_nil {A} (reading : string → option A) (wrap : A → value)
    (before : option value) :
  latest reading wrap [] before = before.
Proof. reflexivity. Qed.

Lemma latest_cons {A} (reading : string → option A) (wrap : A → value)
    (line : string) (lines : list string) (before : option value) :
  latest reading wrap (line :: lines) before
  = latest reading wrap lines
      (match reading line with
       | Some x => Some (wrap x)
       | None => before
       end).
Proof.
  unfold latest. simpl. destruct (reading line) as [x|]; [|reflexivity].
  rewrite last_cons. fold (omap reading lines).
  destruct (last (omap reading lines)); reflexivity.
Qed.

Lemma latest_one {A} (reading : string → option A) (wrap : A → value)
    (line : string) (before : option value) :
  latest reading wrap [line] before
  = match reading line with
    | Some x => Some (wrap x)
    | None => before
    end.
Proof. by rewrite latest_cons. Qed.

Section CpuSpecs.
Context {builtins : Builtins}.

Lemma cpu_specs_line_raises (line : string) (s : state) :
  model_name_without_colon line = true →
  cpu_specs_line line s = (s, inr false).
Proof.
  unfold model_name_without_colon, cpu_specs_line.
  intros [Hm Hc%negb_true_iff]%andb_true_iff. rewrite Hm.
  by rewrite split_second_None.
Qed.

Lemma cpu_specs_line_completes (line : string) (s : state) :
  model_name_without_colon line = false →
  ∃ s', cpu_specs_line line s = (s', inr true)
        ∧ results s' !! "cpu_count"
          = latest cpu_count_of VInt [line] (results s !! "cpu_count")
        ∧ results s' !! "cpu_model"
          = latest cpu_model_of VStr [line] (results s !! "cpu_model").
Proof.
  unfold model_name_without_colon, cpu_specs_line, latest, cpu_count_of,
    cpu_model_of. simpl.
  intros Hok. destruct (Str.contains "Model name" line) eqn:Hm.
  - simpl in Hok. apply negb_false_iff in Hok.
    apply split_second in Hok as [field Hfield]. rewrite Hfield. simpl.
    eexists. split; [reflexivity|]. cbn [results log store].
    by rewrite lookup_insert_ne, lookup_insert_eq.
  - destruct (Str.contains "CPU(s)" line && Str.contains ":" line).
    + destruct (Str.split ":" line !! 1%nat ≫= _) as [cpus|]; simpl.
      * eexists. split; [reflexivity|]. cbn [results log store].
        by rewrite lookup_insert_eq, lookup_insert_ne.
      * by eexists.
    + destruct (Str.contains "Thread(s) per core" line); [|by eexists].
      destruct (Str.split ":" line !! 1%nat ≫= _); by eexists.
Qed.

Lemma cpu_specs_lines_complete (lines : list string) (s : state) :
  Forall (λ line, model_name_without_colon line = false) lines →
  ∃ s', cpu_specs_lines lines s = (s', inr true)
        ∧ results s' !! "cpu_count"
          = latest cpu_count_of VInt lines (results s !! "cpu_count")
        ∧ results s' !! "cpu_model"
          = latest cpu_model_of VStr lines (results s !! "cpu_model").
Proof.
  intros Hok. revert s. induction Hok as [|line lines Hline _ IH]; intros s.
  - by exists s.
  - destruct (cpu_specs_line_completes line s Hline) as (s1 & E1 & Hc1 & Hm1).
    destruct (IH s1) as (s2 & E2 & Hc2 & Hm2).
    exists s2. simpl. rewrite (bind_run _ _ _ _ _ E1).
    split; [done|]. rewrite !latest_cons.
    by rewrite Hc2, Hm2, Hc1, Hm1, !latest_one.
Qed.

Lemma cpu_specs_lines_stop (before after : list string) (bad : string) (s : state) :
  Forall (λ line, model_name_without_colon line = false) before →
  model_name_without_colon bad = true →
  ∃ s', cpu_specs_lines (before ++ bad :: after) s = (s', inr false)
        ∧ results s' !! "cpu_count"
          = latest cpu_count_of VInt before (results s !! "cpu_count")
        ∧ results s' !! "cpu_model"
          = latest cpu_model_of VStr before (results s !! "cpu_model").
Proof.
  intros Hok Hbad. revert s. induction Hok as [|line lines Hline _ IH]; intros s.
  - exists s. simpl. by rewrite (bind_run _ _ _ _ _ (cpu_specs_line_raises bad s Hbad)).
  - destruct (cpu_specs_line_completes line s Hline) as (s1 & E1 & Hc1 & Hm1).
    destruct (IH s1) as (s2 & E2 & Hc2 & Hm2).
    exists s2. simpl. rewrite (bind_run _ _ _ _ _ E1).
    split; [done|]. rewrite !latest_cons.
    by rewrite Hc2, Hm2, Hc1, Hm1, !latest_one.
Qed.

Lemma never_raises_cpu_specs_lines (lines : list string) :
  never_raises (cpu_specs_lines lines).
Proof.
  induction lines as [|line lines IH]; simpl; [apply never_raises_ret|].
  apply never_raises_bind.
  - unfold cpu_specs_line. returns_steps.
  - intros []; [done | apply never_raises_ret].
Qed.

Lemma writes_only_cpu_specs_lines (lines : list string) :
  writes_only {[ "cpu_model"; "cpu_count" ]} (cpu_specs_lines lines).
Proof.
  induction lines as [|line lines IH]; simpl; [apply writes_only_ret|].
  apply writes_only_bind.
  - unfold cpu_specs_line. writes_steps.
  - intros []; [done | apply writes_only_ret].
Qed.

(** [get_cpu_specs] returns whatever [lscpu] prints or raises: every
    exception is caught.  It writes under [cpu_model] and [cpu_count]
    only, and when [lscpu] cannot be run it reports the error and leaves
    the store as it was. *)
Theorem get_cpu_specs_catches_everything (lscpu : string + string) (s : state) :
  snd (get_cpu_specs lscpu s) = inr tt
  ∧ preserves {[ "cpu_model"; "cpu_count" ]} s (fst (get_cpu_specs lscpu s))
  ∧ ∀ message,
      get_cpu_specs (inl message) s
      = (log [Lit "Error running lscpu: "; Fmt "" (VStr message)]
           (log [Lit rule]
              (log [Lit "CPU SPECIFICATIONS"] (log [Lit (nl +:+ rule)] s))),
         inr tt).
Proof.
  split_and!.
  - assert (never_raises (get_cpu_specs lscpu)) as Hn.
    { unfold get_cpu_specs. destruct lscpu; returns_steps.
      apply never_raises_cpu_specs_lines. }
    destruct (Hn s) as [[] Hs]. exact Hs.
  - assert (writes_only {[ "cpu_model"; "cpu_count" ]} (get_cpu_specs lscpu)) as Hw.
    { unfold get_cpu_specs. destruct lscpu; writes_steps.
      apply writes_only_cpu_specs_lines. }
    apply Hw.
  - reflexivity.
Qed.

End CpuSpecs.

Section CpuSpecsResults.
Context {builtins : Builtins}.

Lemma get_cpu_specs_run (output : string) (s s' : state) (completed : bool) :
  cpu_specs_lines (Str.split "010" output)
    (log [Fmt "" (VStr output)]
       (log [Lit rule] (log [Lit "CPU SPECIFICATIONS"] (log [Lit (nl +:+ rule)] s))))
  = (s', inr completed) →
  get_cpu_specs (inr output) s
  = (if completed then s'
     else log [Lit "Error running lscpu: ";
               Fmt "" (VStr "list index out of range")] s',
     inr tt).
Proof.
  intros E. unfold get_cpu_specs. mrun. rewrite (bind_run _ _ _ _ _ E).
  by destruct completed.
Qed.

(** When no line of the output has "Model name" without a colon, every
    line is read, and later lines overwrite earlier ones: [cpu_count] is
    the number on the last line that has "CPU(s)" and a colon, has no
    "Model name", and whose text between the first and the second colon
    [int] accepts; [cpu_model] is that text, stripped, of the last line
    with "Model name".  Where no line gives one, the entry stays as it
    was. *)
Theorem cpu_count_is_last_match (output : string) (s : state) :
  Forall (λ line, model_name_without_colon line = false) (Str.split "010" output) →
  results (fst (get_cpu_specs (inr output) s)) !! "cpu_count"
  = latest cpu_count_of VInt (Str.split "010" output) (results s !! "cpu_count")
  ∧ results (fst (get_cpu_specs (inr output) s)) !! "cpu_model"
    = latest cpu_model_of VStr (Str.split "010" output) (results s !! "cpu_model").
Proof.
  intros Hok.
  destruct (cpu_specs_lines_complete (Str.split "010" output)
              (log [Fmt "" (VStr output)]
                 (log [Lit rule]
                    (log [Lit "CPU SPECIFICATIONS"] (log [Lit (nl +:+ rule)] s))))
              Hok) as (s' & E & Hc & Hm).
  rewrite (get_cpu_specs_run output s s' true E). by split.
Qed.

(** At the first line with "Model name" and no colon the loop ends with
    an [IndexError], which is caught and reported: the lines after it are
    not read, so [cpu_count] and [cpu_model] come from the lines before
    it only. *)
Theorem cpu_specs_stop_at_model_name_without_colon
    (output : string) (before after : list string) (bad : string) (s : state) :
  Str.split "010" output = before ++ bad :: after →
  Forall (λ line, model_name_without_colon line = false) before →
  model_name_without_colon bad = true →
  results (fst (get_cpu_specs (inr output) s)) !! "cpu_count"
  = latest cpu_count_of VInt before (results s !! "cpu_count")
  ∧ results (fst (get_cpu_specs (inr output) s)) !! "cpu_model"
    = latest cpu_model_of VStr before (results s !! "cpu_model")
  ∧ last (console (fst (get_cpu_specs (inr output) s)))
    = Some [Lit "Error running lscpu: "; Fmt "" (VStr "list index out of range")].
Proof.
  intros Hsplit Hok Hbad.
  destruct (cpu_specs_lines_stop before after bad
              (log [Fmt "" (VStr output)]
                 (log [Lit rule]
                    (log [Lit "CPU SPECIFICATIONS"] (log [Lit (nl +:+ rule)] s))))
              Hok Hbad) as (s' & E & Hc & Hm).
  rewrite <- Hsplit in E.
  rewrite (get_cpu_specs_run output s s' false E).
  split_and!; [done | done |]. cbn [fst console log]. apply last_snoc.
Qed.

End CpuSpecsResults.

(** Goals about the lines of an example, settled by evaluation. *)
Ltac each_line :=
  match goal with
  | |- Forall _ ?l => let l' := eval vm_compute in l in change l with l'
  end;
  repeat (apply Forall_cons_2; [vm_compute; reflexivity|]); apply Forall_nil_2.

Lemma cpu_count_is_last_match_witness :
  results (fst (@get_cpu_specs decimal_builtins
                  (inr ("CPU(s): 4" +:+ nl +:+ "NUMA node0 CPU(s): 0"))
                  (fresh ∅ 0%Qc 0%Qc))) !! "cpu_count"
  = Some (VInt 0).
Proof.
  refine (eq_trans
            (proj1 (@cpu_count_is_last_match decimal_builtins
                      ("CPU(s): 4" +:+ nl +:+ "NUMA node0 CPU(s): 0")
                      (fresh ∅ 0%Qc 0%Qc) _)) _).
  - each_line.
  - vm_compute. reflexivity.
Defined.

Lemma cpu_specs_stop_at_model_name_without_colon_witness :
  results (fst (@get_cpu_specs decimal_builtins
                  (inr ("CPU(s): 4" +:+ nl +:+ "Model name" +:+ nl +:+ "CPU(s): 8"))
                  (fresh ∅ 0%Qc 0%Qc))) !! "cpu_count"
  = Some (VInt 4).
Proof.
  refine (eq_trans
            (proj1 (@cpu_specs_stop_at_model_name_without_colon decimal_builtins
                      ("CPU(s): 4" +:+ nl +:+ "Model name" +:+ nl +:+ "CPU(s): 8")
                      ["CPU(s): 4"] ["CPU(s): 8"] "Model name"
                      (fresh ∅ 0%Qc 0%Qc) _ _ _)) _).
  - reflexivity.
  - each_line.
  - vm_compute. reflexivity.
  - vm_compute. reflexivity.
Defined.

(** ** Clock speeds *)

Section CpuFrequencies.
Context {builtins : Builtins}.

Lemma bind_ret {A B} (a : A) (k : A → M B) (s : state) :
  (mret a ≫= k) s = k a s.
Proof. reflexivity. Qed.

Lemma print_core_run (core : nat * Qc) (s : state) :
  ∃ l, print_core core s = (logs [l] s, inr tt).
Proof.
  unfold print_core. rewrite float_div_nonzero by apply thousand_nonzero.
  mrun. by eexists.
Qed.

Lemma print_cores_run (cores : list (nat * Qc)) (s : state) :
  ∃ ls, for_each cores print_core s = (logs ls s, inr tt).
Proof.
  revert s. induction cores as [|core cores IH]; intros s; simpl.
  - exists []. by rewrite logs_nil.
  - destruct (print_core_run core s) as (l & E).
    rewrite (bind_run _ _ _ _ _ E).
    destruct (IH (logs [l] s)) as (ls & ->).
    exists ([l] ++ ls). by rewrite logs_logs.
Qed.

Lemma length_nonzero {A} (l : list A) :
  l ≠ [] → float_of_int (Z.of_nat (length l)) ≠ 0%Qc.
Proof.
  intros Hl. apply float_of_int_nonzero. destruct l; [done|]. simpl. lia.
Qed.

(** With at least one clock speed read, the report stores the mean and
    the list and writes nothing else. *)
Lemma report_clocks_run (values : list Qc) (s : state) :
  values ≠ [] →
  ∃ s1, report_clocks values s
        = (store "all_clock_speeds" (VList values)
             (store "avg_clock_mhz" (VFloat (mean values)) s1), inr tt)
        ∧ results s1 = results s.
Proof.
  intros Hv. unfold report_clocks. cbn [truthy].
  rewrite bool_decide_eq_true_2 by done. mrun.
  destruct (print_cores_run (imap pair (take 8 values))
              (log [Lit (nl +:+ "Clock speeds for each core:")] s)) as (ls & E).
  rewrite (bind_run _ _ _ _ _ E).
  case_bool_decide; mrun; rewrite ?bind_ret; mrun;
    rewrite float_div_nonzero by (by apply length_nonzero); mrun;
    rewrite float_div_nonzero by apply thousand_nonzero; mrun;
    eexists; (split; [reflexivity|]); done.
Qed.

Lemma report_clocks_none (s : state) : report_clocks [] s = (s, inr tt).
Proof. reflexivity. Qed.

Lemma mhz_values_none (content : string) :
  (∀ line, line ∈ Str.split "010" content → Str.startswith "cpu MHz" line = false) →
  mhz_values content = [].
Proof.
  unfold mhz_values. generalize (Str.split "010" content), (@nil Qc).
  intros lines. induction lines as [|line lines IH]; intros values Hl; [done|].
  cbn [foldl]. rewrite (Hl line) by left. apply IH.
  intros l Hin. apply Hl. by right.
Qed.

Lemma max_frequency_skip (skipped rest : list (option string)) :
  Forall (λ policy, policy = None) skipped →
  max_frequency (skipped ++ rest) = max_frequency rest.
Proof. induction 1 as [|? ? -> _ IH]; [done|]. exact IH. Qed.

Lemma max_frequency_read
    (content : string) (rest : list (option string)) (khz : Z) (s : state) :
  py_int (Str.strip content) = Some khz →
  too_large (float_of_int khz / float_of_int 1000)%Qc = false →
  max_frequency (Some content :: rest) s
  = (store "max_freq_mhz" (VFloat (float_of_int khz / float_of_int 1000)%Qc)
       (log [Lit (nl +:+ "Max Frequency (sysfs): ");
             Fmt ".2f" (VFloat (float_of_int khz / float_of_int 1000)%Qc);
             Lit " MHz"] s),
     inr tt).
Proof.
  intros Hkhz Hfits. cbn [max_frequency]. rewrite Hkhz. mrun.
  rewrite int_truediv_run by done. by mrun.
Qed.

Lemma max_frequency_overflow
    (content : string) (rest : list (option string)) (khz : Z) (s : state) :
  py_int (Str.strip content) = Some khz →
  too_large (float_of_int khz / float_of_int 1000)%Qc = true →
  max_frequency (Some content :: rest) s = (s, inl OverflowError).
Proof.
  intros Hkhz Hlarge. cbn [max_frequency]. rewrite Hkhz. mrun.
  rewrite int_truediv_overflow by done. by mrun.
Qed.

Lemma max_frequency_unreadable
    (content : string) (rest : list (option string)) (s : state) :
  py_int (Str.strip content) = None →
  max_frequency (Some content :: rest) s = (s, inl ValueError).
Proof. intros Hkhz. cbn [max_frequency]. rewrite Hkhz. by mrun. Qed.

Lemma writes_only_max_frequency (policies : list (option string)) :
  writes_only {[ "max_freq_mhz" ]} (max_frequency policies).
Proof.
  induction policies as [|[content|] rest IH]; simpl;
    [apply writes_only_ret | | exact IH].
  writes_steps.
Qed.

Lemma max_frequency_outcome (policies : list (option string)) (s : state) :
  snd (max_frequency policies s) = inr tt
  ∨ snd (max_frequency policies s) = inl ValueError
  ∨ snd (max_frequency policies s) = inl OverflowError.
Proof.
  induction policies as [|[content|] rest IH]; [by left | | exact IH].
  destruct (py_int (Str.strip content)) as [khz|] eqn:Hkhz.
  - destruct (too_large (float_of_int khz / float_of_int 1000)%Qc) eqn:Hrange.
    + right. right. by rewrite (max_frequency_overflow _ _ khz).
    + left. by rewrite (max_frequency_read _ _ khz).
  - right. left. by rewrite max_frequency_unreadable.
Qed.

Lemma get_cpu_frequencies_unfold
    (cpuinfo : option string) (policies : list (option string)) (s : state) :
  get_cpu_frequencies cpuinfo policies s
  = (match cpuinfo with
     | Some content => report_clocks (mhz_values content)
     | None => mret tt
     end ≫= λ _, max_frequency policies)
      (log [Lit rule] (log [Lit "CPU CLOCK SPEEDS"] (log [Lit (nl +:+ rule)] s))).
Proof. reflexivity. Qed.

(** What the clock report leaves, as [get_cpu_frequencies] sees it. *)
Lemma get_cpu_frequencies_values
    (content : string) (policies : list (option string)) (s : state) :
  mhz_values content ≠ [] →
  results (fst (get_cpu_frequencies (Some content) policies s)) !! "avg_clock_mhz"
  = Some (VFloat (mean (mhz_values content)))
  ∧ results (fst (get_cpu_frequencies (Some content) policies s)) !! "all_clock_speeds"
    = Some (VList (mhz_values content))
  ∧ ∀ k, k ∉ ({[ "avg_clock_mhz"; "all_clock_speeds"; "max_freq_mhz" ]} : gset string) →
         results (fst (get_cpu_frequencies (Some content) policies s)) !! k
         = results s !! k.
Proof.
  intros Hv. rewrite get_cpu_frequencies_unfold.
  destruct (report_clocks_run (mhz_values content)
              (log [Lit rule] (log [Lit "CPU CLOCK SPEEDS"] (log [Lit (nl +:+ rule)] s)))
              Hv) as (s1 & E & R1).
  rewrite (bind_run _ _ _ _ _ E).
  destruct (writes_only_max_frequency policies
              (store "all_clock_speeds" (VList (mhz_values content))
                 (store "avg_clock_mhz" (VFloat (mean (mhz_values content))) s1)))
    as (_ & _ & _ & _ & Hk).
  split_and!.
  - rewrite Hk by set_solver. cbn [results store].
    by rewrite lookup_insert_ne, lookup_insert_eq.
  - rewrite Hk by set_solver. cbn [results store]. by rewrite lookup_insert_eq.
  - intros k Hin. rewrite Hk by set_solver. cbn [results store].
    rewrite !lookup_insert_ne by (intros <-; set_solver). by rewrite R1.
Qed.

(** When [/proc/cpuinfo] gives at least one clock speed, and only
    moderate ones (below 2^500 in magnitude, so that their sum is within
    the range of a float), the probe stores their mean, sum / count,
    under [avg_clock_mhz] and the list itself under [all_clock_speeds];
    the division is by a count that is not zero, so the probe returns, or
    raises what the maximum frequency file makes it raise, [ValueError]
    or [OverflowError], never [ZeroDivisionError]. *)
Theorem average_clock_speed
    (content : string) (policies : list (option string)) (s : state) :
  mhz_values content ≠ [] →
  Forall (λ mhz, moderate (VFloat mhz)) (mhz_values content) →
  results (fst (get_cpu_frequencies (Some content) policies s)) !! "avg_clock_mhz"
  = Some (VFloat (sum (mhz_values content)
                  / float_of_int (Z.of_nat (length (mhz_values content))))%Qc)
  ∧ results (fst (get_cpu_frequencies (Some content) policies s)) !! "all_clock_speeds"
    = Some (VList (mhz_values content))
  ∧ (snd (get_cpu_frequencies (Some content) policies s) = inr tt
     ∨ snd (get_cpu_frequencies (Some content) policies s) = inl ValueError
     ∨ snd (get_cpu_frequencies (Some content) policies s) = inl OverflowError).
Proof.
  intros Hv _.
  destruct (get_cpu_frequencies_values content policies s Hv) as (Ha & Hl & _).
  split_and!; [exact Ha | exact Hl |].
  rewrite get_cpu_frequencies_unfold.
  destruct (report_clocks_run (mhz_values content)
              (log [Lit rule] (log [Lit "CPU CLOCK SPEEDS"] (log [Lit (nl +:+ rule)] s)))
              Hv) as (s1 & E & R1).
  rewrite (bind_run _ _ _ _ _ E). apply max_frequency_outcome.
Qed.

End CpuFrequencies.

Section CpuFrequenciesResults.
Context {builtins : Builtins}.

(** The clock report returns, whatever [/proc/cpuinfo] holds, and leaves
    [max_freq_mhz] alone. *)
Lemma clock_report_returns (cpuinfo : option string) (s : state) :
  ∃ s1, match cpuinfo with
        | Some content => report_clocks (mhz_values content)
        | None => mret tt
        end s = (s1, inr tt)
        ∧ results s1 !! "max_freq_mhz" = results s !! "max_freq_mhz".
Proof.
  destruct cpuinfo as [content|]; [|by exists s].
  destruct (decide (mhz_values content = [])) as [->|Hv]; [by exists s|].
  destruct (report_clocks_run (mhz_values content) s Hv) as (s1 & -> & R1).
  eexists. split; [reflexivity|]. cbn [results store].
  rewrite !lookup_insert_ne by done. by rewrite R1.
Qed.

(** The maximum frequency is read from the first policy directory that
    has the file, and from no other: the directories after it do not
    matter.  What the file holds is stripped and read by [int]; the
    kilohertz are stored as megahertz when the quotient is within the
    range of a float, as it is for every number of kilohertz below
    [double_limit]; a larger quotient is an [OverflowError] and a text
    [int] rejects a [ValueError], and both leave [max_freq_mhz] as it
    was.  With no such file nothing is stored. *)
Theorem max_frequency_from_first_file
    (cpuinfo : option string) (skipped rest : list (option string))
    (content : string) (s : state) :
  Forall (λ policy, policy = None) skipped →
  get_cpu_frequencies cpuinfo (skipped ++ Some content :: rest) s
  = get_cpu_frequencies cpuinfo [Some content] s
  ∧ (∀ khz, py_int (Str.strip content) = Some khz →
       too_large (float_of_int khz / float_of_int 1000)%Qc = false →
       snd (get_cpu_frequencies cpuinfo (skipped ++ Some content :: rest) s) = inr tt
       ∧ results (fst (get_cpu_frequencies cpuinfo (skipped ++ Some content :: rest) s))
           !! "max_freq_mhz"
         = Some (VFloat (float_of_int khz / float_of_int 1000)%Qc))
  ∧ (∀ khz, Z.abs khz < double_limit →
       too_large (float_of_int khz / float_of_int 1000)%Qc = false)
  ∧ (∀ khz, py_int (Str.strip content) = Some khz →
       too_large (float_of_int khz / float_of_int 1000)%Qc = true →
       snd (get_cpu_frequencies cpuinfo (skipped ++ Some content :: rest) s)
       = inl OverflowError
       ∧ results (fst (get_cpu_frequencies cpuinfo (skipped ++ Some content :: rest) s))
           !! "max_freq_mhz"
         = results s !! "max_freq_mhz")
  ∧ (py_int (Str.strip content) = None →
       snd (get_cpu_frequencies cpuinfo (skipped ++ Some content :: rest) s)
       = inl ValueError
       ∧ results (fst (get_cpu_frequencies cpuinfo (skipped ++ Some content :: rest) s))
           !! "max_freq_mhz"
         = results s !! "max_freq_mhz")
  ∧ snd (get_cpu_frequencies cpuinfo skipped s) = inr tt
  ∧ results (fst (get_cpu_frequencies cpuinfo skipped s)) !! "max_freq_mhz"
    = results s !! "max_freq_mhz".
Proof.
  intros Hskip. rewrite !get_cpu_frequencies_unfold.
  destruct (clock_report_returns cpuinfo
              (log [Lit rule] (log [Lit "CPU CLOCK SPEEDS"] (log [Lit (nl +:+ rule)] s))))
    as (s1 & E & R1).
  rewrite !(bind_run _ _ _ _ _ E). cbn [results log] in R1.
  rewrite (max_frequency_skip skipped (Some content :: rest) Hskip).
  split_and!.
  - destruct (py_int (Str.strip content)) as [khz|] eqn:Hkhz.
    + destruct (too_large (float_of_int khz / float_of_int 1000)%Qc) eqn:Hrange.
      * by rewrite !(max_frequency_overflow _ _ khz).
      * by rewrite !(max_frequency_read _ _ khz).
    + by rewrite !max_frequency_unreadable.
  - intros khz Hkhz Hrange. rewrite (max_frequency_read _ _ khz) by done.
    split; [done|]. cbn [fst results store]. by rewrite lookup_insert_eq.
  - intros khz Hkhz. by apply too_large_quotient.
  - intros khz Hkhz Hrange. by rewrite (max_frequency_overflow _ _ khz).
  - intros Hkhz. by rewrite max_frequency_unreadable.
  - rewrite <- (app_nil_r skipped), (max_frequency_skip skipped [] Hskip). done.
  - rewrite <- (app_nil_r skipped), (max_frequency_skip skipped [] Hskip). done.
Qed.

Lemma calculate_core_power_skip (s : state) :
  results s !! "cpu_count" = None ∨ results s !! "avg_clock_mhz" = None →
  calculate_core_power s
  = (log [Lit "⚠️  Insufficient data for calculation"]
       (log [Lit rule]
          (log [Lit "CORE POWER CALCULATION"] (log [Lit (nl +:+ rule)] s))),
     inr tt).
Proof.
  intros Hmissing. unfold calculate_core_power. mrun.
  assert (negb (bool_decide (is_Some (results s !! "cpu_count")))
          || negb (bool_decide (is_Some (results s !! "avg_clock_mhz")))
          = true) as ->; [|reflexivity].
  destruct Hmissing as [-> | ->];
    rewrite (bool_decide_eq_false_2 (is_Some None)) by apply is_Some_None;
    [reflexivity | apply orb_true_r].
Qed.

(** Without a clock speed there are no derived metrics.  When
    [/proc/cpuinfo] does not exist or gives no clock speed (as where no
    line starts with "cpu MHz"), the probe stores no [avg_clock_mhz]; if
    none was stored before, the metrics step that follows prints its
    warning and leaves the store as it is. *)
Theorem no_clock_speed_no_metrics
    (cpuinfo : option string) (policies : list (option string)) (s : state) :
  results s !! "avg_clock_mhz" = None →
  (∀ content, cpuinfo = Some content → mhz_values content = []) →
  results (fst (get_cpu_frequencies cpuinfo policies s)) !! "avg_clock_mhz" = None
  ∧ snd (calculate_core_power (fst (get_cpu_frequencies cpuinfo policies s))) = inr tt
  ∧ results (fst (calculate_core_power (fst (get_cpu_frequencies cpuinfo policies s))))
    = results (fst (get_cpu_frequencies cpuinfo policies s))
  ∧ last (console (fst (calculate_core_power
                          (fst (get_cpu_frequencies cpuinfo policies s)))))
    = Some [Lit "⚠️  Insufficient data for calculation"]
  ∧ ∀ content,
      (∀ line, line ∈ Str.split "010" content →
               Str.startswith "cpu MHz" line = false) →
      mhz_values content = [].
Proof.
  intros Hs Hnone.
  assert (results (fst (get_cpu_frequencies cpuinfo policies s)) !! "avg_clock_mhz"
          = None) as Havg.
  { rewrite get_cpu_frequencies_unfold.
    assert (match cpuinfo with
            | Some content => report_clocks (mhz_values content)
            | None => mret tt
            end = (mret tt : M unit)) as ->.
    { destruct cpuinfo as [content|]; [|done]. by rewrite (Hnone content). }
    rewrite bind_ret.
    destruct (writes_only_max_frequency policies
                (log [Lit rule]
                   (log [Lit "CPU CLOCK SPEEDS"] (log [Lit (nl +:+ rule)] s))))
      as (_ & _ & _ & _ & Hk).
    rewrite Hk by set_solver. exact Hs. }
  rewrite (calculate_core_power_skip _ (or_intror Havg)).
  split_and!; [done | done | done | |].
  - cbn [fst console log]. apply last_snoc.
  - apply mhz_values_none.
Qed.

(** The two probes feed the metrics step: with a core count on the last
    matching line of the lscpu output and at least one clock speed in
    [/proc/cpuinfo], all of them moderate (below 2^500 in magnitude), the
    metrics step that follows returns and stores
    count × mean clock / 1000 as the IPC 1 peak and mean clock / 1000 per
    core. *)
Theorem probes_feed_core_power
    (output content : string) (policies : list (option string))
    (count : Z) (s : state) :
  Forall (λ line, model_name_without_colon line = false) (Str.split "010" output) →
  last (omap cpu_count_of (Str.split "010" output)) = Some count →
  moderate (VInt count) →
  mhz_values content ≠ [] →
  Forall (λ mhz, moderate (VFloat mhz)) (mhz_values content) →
  snd (calculate_core_power
         (fst (get_cpu_frequencies (Some content) policies
                 (fst (get_cpu_specs (inr output) s)))))
  = inr tt
  ∧ results (fst (calculate_core_power
                    (fst (get_cpu_frequencies (Some content) policies
                            (fst (get_cpu_specs (inr output) s))))))
      !! "theoretical_peak_gflops_ipc1"
    = Some (VFloat (float_of_int count * mean (mhz_values content)
                    / float_of_int 1000)%Qc)
  ∧ results (fst (calculate_core_power
                    (fst (get_cpu_frequencies (Some content) policies
                            (fst (get_cpu_specs (inr output) s))))))
      !! "per_core_gflops"
    = Some (VFloat (mean (mhz_values content) / float_of_int 1000)%Qc).
Proof.
  intros Hok Hcount Mc Hv _.
  destruct (cpu_specs_lines_complete (Str.split "010" output)
              (log [Fmt "" (VStr output)]
                 (log [Lit rule]
                    (log [Lit "CPU SPECIFICATIONS"] (log [Lit (nl +:+ rule)] s))))
              Hok) as (s1 & E1 & Hc1 & _).
  rewrite (get_cpu_specs_run output s s1 true E1). cbn [fst].
  unfold latest in Hc1. rewrite Hcount in Hc1.
  destruct (get_cpu_frequencies_values content policies s1 Hv) as (Ha & _ & Hk).
  assert (results (fst (get_cpu_frequencies (Some content) policies s1)) !! "cpu_count"
          = Some (VInt count)) as Hc2.
  { rewrite Hk; [exact Hc1|].
    rewrite !not_elem_of_union, !not_elem_of_singleton. done. }
  set (s2 := fst (get_cpu_frequencies (Some content) policies s1)) in *.
  destruct (calculate_core_power_run s2 (VInt count)
              (VFloat (mean (mhz_values content)))
              (float_of_int count) (mean (mhz_values content)) Hc2 eq_refl Ha eq_refl
              Mc I)
    as (s3 & -> & R3).
  split_and!; [done | |]; cbn [fst results store].
  - rewrite !lookup_insert_ne by done. by rewrite lookup_insert_eq.
  - by rewrite lookup_insert_eq.
Qed.

End CpuFrequenciesResults.

Lemma average_clock_speed_witness :
  results (fst (@get_cpu_frequencies decimal_builtins
                  (Some ("cpu MHz : 3000" +:+ nl +:+ "cpu MHz : 2000")) []
                  (fresh ∅ 0%Qc 0%Qc))) !! "avg_clock_mhz"
  = Some (VFloat (float_of_int 2500)).
Proof.
  refine (eq_trans
            (proj1 (@average_clock_speed decimal_builtins
                      ("cpu MHz : 3000" +:+ nl +:+ "cpu MHz : 2000") []
                      (fresh ∅ 0%Qc 0%Qc) _ _)) _).
  - vm_compute. discriminate.
  - match goal with
    | |- Forall _ ?l => let l' := eval vm_compute in l in change l with l'
    end.
    repeat (apply Forall_cons_2; [split; vm_compute; reflexivity|]).
    apply Forall_nil_2.
  - do 2 f_equal. apply Qc_is_canon. vm_compute. reflexivity.
Defined.

Lemma max_frequency_from_first_file_witness :
  @get_cpu_frequencies decimal_builtins None [None; Some "3500000"; Some "x"]
    (fresh ∅ 0%Qc 0%Qc)
  = @get_cpu_frequencies decimal_builtins None [Some "3500000"] (fresh ∅ 0%Qc 0%Qc).
Proof.
  refine (proj1 (@max_frequency_from_first_file decimal_builtins None [None]
                   [Some "x"] "3500000" (fresh ∅ 0%Qc 0%Qc) _)).
  repeat constructor.
Defined.

Lemma no_clock_speed_no_metrics_witness :
  results (fst (@get_cpu_frequencies decimal_builtins
                  (Some ("processor : 0" +:+ nl +:+ "BogoMIPS : 50.00")) []
                  (fresh ∅ 0%Qc 0%Qc))) !! "avg_clock_mhz"
  = None.
Proof.
  refine (proj1 (@no_clock_speed_no_metrics decimal_builtins
                   (Some ("processor : 0" +:+ nl +:+ "BogoMIPS : 50.00")) []
                   (fresh ∅ 0%Qc 0%Qc) _ _)).
  - reflexivity.
  - intros content [= <-]. vm_compute. reflexivity.
Defined.

Lemma probes_feed_core_power_witness :
  snd (calculate_core_power
         (fst (@get_cpu_frequencies decimal_builtins
                 (Some ("cpu MHz : 3000" +:+ nl +:+ "cpu MHz : 2000")) []
                 (fst (@get_cpu_specs decimal_builtins
                         (inr ("CPU(s): 4" +:+ nl +:+ "Model name: X"))
                         (fresh ∅ 0%Qc 0%Qc))))))
  = inr tt.
Proof.
  refine (proj1 (@probes_feed_core_power decimal_builtins
                   ("CPU(s): 4" +:+ nl +:+ "Model name: X")
                   ("cpu MHz : 3000" +:+ nl +:+ "cpu MHz : 2000") [] 4
                   (fresh ∅ 0%Qc 0%Qc) _ _ _ _ _)).
  - each_line.
  - vm_compute. reflexivity.
  - vm_compute. reflexivity.
  - vm_compute. discriminate.
  - match goal with
    | |- Forall _ ?l => let l' := eval vm_compute in l in change l with l'
    end.
    repeat (apply Forall_cons_2; [split; vm_compute; reflexivity|]).
    apply Forall_nil_2.
Defined.

(** ** Memory and system information *)

Lemma pbind_run {A B} (m : Probe A) (k : A → Probe B) (s s' : state) (a : A) :
  m s = (s', inr a) → (m ≫= k) s = k a s'.
Proof. intros E. unfold mbind, Probe_bind. by rewrite E. Qed.

Lemma pbind_raise {A B} (m : Probe A) (k : A → Probe B) (s s' : state) (e : raised) :
  m s = (s', inl e) → (m ≫= k) s = (s', inl e).
Proof. intros E. unfold mbind, Probe_bind. by rewrite E. Qed.

Lemma pbind_print {B} (l : line) (k : unit → Probe B) (s : state) :
  (io (print l) ≫= k) s = k tt (log l s).
Proof. reflexivity. Qed.

Lemma pbind_set {B} (key : string) (v : value) (k : unit → Probe B) (s : state) :
  (io (results_set key v) ≫= k) s = k tt (store key v s).
Proof. reflexivity. Qed.

Lemma io_set (key : string) (v : value) (s : state) :
  io (results_set key v) s = (store key v s, inr tt).
Proof. reflexivity. Qed.

Lemma pbind_ret {A B} (a : A) (k : A → Probe B) (s : state) :
  (mret a ≫= k) s = k a s.
Proof. reflexivity. Qed.

Lemma pbind_item {A B} (l : list A) (i : nat) (x : A) (k : A → Probe B) (s : state) :
  l !! i = Some x → (item l i ≫= k) s = k x s.
Proof. intros E. unfold mbind, Probe_bind, item. by rewrite E. Qed.

Lemma pbind_item_raise {A B} (l : list A) (i : nat) (k : A → Probe B) (s : state) :
  l !! i = None → (item l i ≫= k) s = (s, inl IndexError).
Proof. intros E. unfold mbind, Probe_bind, item. by rewrite E. Qed.

Lemma pbind_check_output {B} (text : string) (k : string → Probe B) (s : state) :
  (check_output (Some text) ≫= k) s = k text s.
Proof. reflexivity. Qed.

Lemma pbind_gigabytes {B} (kb : Z) (k : Qc → Probe B) (s : state) :
  too_large (gigabytes kb) = false →
  (io (lift (int_truediv kb (1024 * 1024))) ≫= k) s = k (gigabytes kb) s.
Proof. intros Hfits. by rewrite int_truediv_run. Qed.

Ltac prun :=
  repeat (first [ rewrite pbind_print | rewrite pbind_set
                | rewrite pbind_check_output | rewrite pbind_ret ];
          cbv beta).

Section MemoryInfo.
Context {builtins : Builtins}.

Lemma pbind_int {B} (text : string) (z : Z) (k : Z → Probe B) (s : state) :
  py_int text = Some z → (int text ≫= k) s = k z s.
Proof. intros E. unfold mbind, Probe_bind, int. by rewrite E. Qed.

Lemma pbind_int_raise {B} (text : string) (k : Z → Probe B) (s : state) :
  py_int text = None → (int text ≫= k) s = (s, inl (Exn ValueError)).
Proof. intros E. unfold mbind, Probe_bind, int. by rewrite E. Qed.

(** What the loop body does on a line it gets past. *)
Lemma memory_line_run (line : string) (s : state) :
  memory_line_ok line →
  ∃ s', memory_line line s = (s', inr tt)
        ∧ results s' !! "total_mem_gb"
          = latest total_kb_of (λ kb, VFloat (gigabytes kb)) [line]
              (results s !! "total_mem_gb")
        ∧ results s' !! "avail_mem_gb"
          = latest avail_kb_of (λ kb, VFloat (gigabytes kb)) [line]
              (results s !! "avail_mem_gb").
Proof.
  unfold memory_line_ok, memory_line. rewrite !latest_one.
  unfold total_kb_of, avail_kb_of. intros Hok.
  destruct (Str.startswith "MemTotal" line).
  - destruct Hok as (word & kb & Hword & Hkb & Hfits); [done|].
    rewrite Hword. simpl. rewrite Hkb.
    rewrite (pbind_item _ _ word) by done. rewrite (pbind_int _ kb) by done.
    rewrite pbind_gigabytes by done. rewrite pbind_print.
    eexists. split; [reflexivity|]. cbn [results store log].
    by rewrite lookup_insert_eq, lookup_insert_ne.
  - destruct (Str.startswith "MemAvailable" line); [|by eexists].
    destruct Hok as (word & kb & Hword & Hkb & Hfits); [done|].
    rewrite Hword. simpl. rewrite Hkb.
    rewrite (pbind_item _ _ word) by done. rewrite (pbind_int _ kb) by done.
    rewrite pbind_gigabytes by done. rewrite pbind_print.
    eexists. split; [reflexivity|]. cbn [results store log].
    by rewrite lookup_insert_eq, lookup_insert_ne.
Qed.

(** What it raises on a line that starts with one of the two names and
    has no second word, or one that [int] rejects. *)
Lemma memory_line_raises (line : string) (s : state) :
  Str.startswith "MemTotal" line || Str.startswith "MemAvailable" line = true →
  Str.split_whitespace line !! 1%nat ≫= py_int = None →
  memory_line line s
  = (s, inl (match Str.split_whitespace line !! 1%nat with
             | None => IndexError
             | Some _ => Exn ValueError
             end)).
Proof.
  unfold memory_line. intros Hname Hbad.
  destruct (Str.split_whitespace line !! 1%nat) as [word|] eqn:Hword;
    simpl in Hbad.
  - destruct (Str.startswith "MemTotal" line);
      [|destruct (Str.startswith "MemAvailable" line); [|done]];
      rewrite (pbind_item _ _ word) by done; by rewrite pbind_int_raise.
  - destruct (Str.startswith "MemTotal" line);
      [|destruct (Str.startswith "MemAvailable" line); [|done]];
      by rewrite pbind_item_raise.
Qed.

Lemma memory_lines_run (lines : list string) (s : state) :
  Forall memory_line_ok lines →
  ∃ s', for_lines lines memory_line s = (s', inr tt)
        ∧ results s' !! "total_mem_gb"
          = latest total_kb_of (λ kb, VFloat (gigabytes kb)) lines
              (results s !! "total_mem_gb")
        ∧ results s' !! "avail_mem_gb"
          = latest avail_kb_of (λ kb, VFloat (gigabytes kb)) lines
              (results s !! "avail_mem_gb").
Proof.
  intros Hok. revert s. induction Hok as [|line lines Hline _ IH]; intros s.
  - by exists s.
  - destruct (memory_line_run line s Hline) as (s1 & E1 & Ht1 & Ha1).
    destruct (IH s1) as (s2 & E2 & Ht2 & Ha2).
    exists s2. simpl. rewrite (pbind_run _ _ _ _ _ E1).
    split; [done|]. rewrite !latest_cons.
    by rewrite Ht2, Ha2, Ht1, Ha1, !latest_one.
Qed.

Lemma memory_lines_stop
    (before after : list string) (bad : string) (e : raised) (s : state) :
  Forall memory_line_ok before →
  (∀ s', memory_line bad s' = (s', inl e)) →
  ∃ s', for_lines (before ++ bad :: after) memory_line s = (s', inl e)
        ∧ results s' !! "total_mem_gb"
          = latest total_kb_of (λ kb, VFloat (gigabytes kb)) before
              (results s !! "total_mem_gb")
        ∧ results s' !! "avail_mem_gb"
          = latest avail_kb_of (λ kb, VFloat (gigabytes kb)) before
              (results s !! "avail_mem_gb").
Proof.
  intros Hok Hbad. revert s. induction Hok as [|line lines Hline _ IH]; intros s.
  - exists s. simpl. by rewrite (pbind_raise _ _ _ _ _ (Hbad s)).
  - destruct (memory_line_run line s Hline) as (s1 & E1 & Ht1 & Ha1).
    destruct (IH s1) as (s2 & E2 & Ht2 & Ha2).
    exists s2. simpl. rewrite (pbind_run _ _ _ _ _ E1).
    split; [done|]. rewrite !latest_cons.
    by rewrite Ht2, Ha2, Ht1, Ha1, !latest_one.
Qed.

Lemma get_memory_info_unfold (meminfo : option (list string)) (s : state) :
  get_memory_info meminfo s
  = match meminfo with
    | Some lines => for_lines lines memory_line
    | None => mret tt
    end (log [Lit rule] (log [Lit "MEMORY INFORMATION"] (log [Lit (nl +:+ rule)] s))).
Proof. reflexivity. Qed.

(** When every line of [/proc/meminfo] that starts with "MemTotal" or
    "MemAvailable" has a second word that [int] accepts as a number of
    kilobytes whose gigabytes are within the range of a float, the probe
    returns, and the store holds the kilobytes of the last such line,
    divided by 1024 × 1024, under [total_mem_gb] and [avail_mem_gb]; an
    entry no line gives stays as it was.  Every number of kilobytes below
    [double_limit] is within that range.  Without the file the probe
    prints its heading and nothing else. *)
Theorem memory_info_reads_kilobytes (lines : list string) (s : state) :
  Forall memory_line_ok lines →
  snd (get_memory_info (Some lines) s) = inr tt
  ∧ results (fst (get_memory_info (Some lines) s)) !! "total_mem_gb"
    = latest total_kb_of (λ kb, VFloat (gigabytes kb)) lines
        (results s !! "total_mem_gb")
  ∧ results (fst (get_memory_info (Some lines) s)) !! "avail_mem_gb"
    = latest avail_kb_of (λ kb, VFloat (gigabytes kb)) lines
        (results s !! "avail_mem_gb")
  ∧ (∀ kb, Z.abs kb < double_limit → too_large (gigabytes kb) = false)
  ∧ get_memory_info None s
    = (log [Lit rule] (log [Lit "MEMORY INFORMATION"] (log [Lit (nl +:+ rule)] s)),
       inr tt).
Proof.
  intros Hok. rewrite get_memory_info_unfold.
  destruct (memory_lines_run lines
              (log [Lit rule] (log [Lit "MEMORY INFORMATION"]
                                 (log [Lit (nl +:+ rule)] s))) Hok)
    as (s' & -> & Ht & Ha).
  split_and!; [done | done | done | | done].
  intros kb Hkb. by apply too_large_quotient.
Qed.

(** The two list accesses and the two calls of [int] are not guarded:
    after lines the loop gets past ([memory_line_ok]), at the first
    "MemTotal" or "MemAvailable" line without a second word the probe
    raises [IndexError], at the first whose second word [int] rejects it
    raises [ValueError].  The lines after it are not read, and what the
    lines before it stored stays in the store. *)
Theorem memory_info_stops_at_malformed_line
    (before after : list string) (bad : string) (s : state) :
  Forall memory_line_ok before →
  Str.startswith "MemTotal" bad || Str.startswith "MemAvailable" bad = true →
  Str.split_whitespace bad !! 1%nat ≫= py_int = None →
  snd (get_memory_info (Some (before ++ bad :: after)) s)
  = inl (match Str.split_whitespace bad !! 1%nat with
         | None => IndexError
         | Some _ => Exn ValueError
         end)
  ∧ results (fst (get_memory_info (Some (before ++ bad :: after)) s)) !! "total_mem_gb"
    = latest total_kb_of (λ kb, VFloat (gigabytes kb)) before
        (results s !! "total_mem_gb")
  ∧ results (fst (get_memory_info (Some (before ++ bad :: after)) s)) !! "avail_mem_gb"
    = latest avail_kb_of (λ kb, VFloat (gigabytes kb)) before
        (results s !! "avail_mem_gb").
Proof.
  intros Hok Hname Hbad. rewrite get_memory_info_unfold.
  destruct (memory_lines_stop before after bad _
              (log [Lit rule] (log [Lit "MEMORY INFORMATION"]
                                 (log [Lit (nl +:+ rule)] s)))
              Hok (λ s', memory_line_raises bad s' Hname Hbad))
    as (s' & -> & Ht & Ha).
  by split_and!.
Qed.

End MemoryInfo.

Lemma memory_info_reads_kilobytes_witness :
  results (fst (@get_memory_info decimal_builtins
                  (Some ["MemTotal:       16777216 kB" +:+ nl;
                         "MemFree:         1000 kB" +:+ nl])
                  (fresh ∅ 0%Qc 0%Qc))) !! "total_mem_gb"
  = Some (VFloat (float_of_int 16)).
Proof.
  destruct (@memory_info_reads_kilobytes decimal_builtins
              ["MemTotal:       16777216 kB" +:+ nl;
               "MemFree:         1000 kB" +:+ nl]
              (fresh ∅ 0%Qc 0%Qc)) as (_ & Ht & _).
  - repeat constructor.
    + intros _. by exists "16777216", 16777216.
    + intros Hname. vm_compute in Hname. discriminate Hname.
  - rewrite Ht. unfold latest. simpl. do 2 f_equal.
    apply Qc_is_canon. vm_compute. reflexivity.
Defined.

Lemma memory_info_stops_at_malformed_line_witness :
  snd (@get_memory_info decimal_builtins
         (Some ["MemTotal:       16777216 kB" +:+ nl; "MemAvailable:" +:+ nl])
         (fresh ∅ 0%Qc 0%Qc))
  = inl IndexError.
Proof.
  refine (proj1 (@memory_info_stops_at_malformed_line decimal_builtins
                   ["MemTotal:       16777216 kB" +:+ nl] [] ("MemAvailable:" +:+ nl)
                   (fresh ∅ 0%Qc 0%Qc) _ _ _)).
  - repeat constructor. intros _. by exists "16777216", 16777216.
  - reflexivity.
  - reflexivity.
Defined.

(** *** System information *)

Lemma os_release_line_found (line field : string) (s : state) :
  Str.startswith "PRETTY_NAME" line = true →
  Str.split "=" line !! 1%nat = Some field →
  os_release_line line s
  = (log [Lit "OS: "; Fmt "" (VStr (Str.strip_char "034" (Str.strip field)))] s,
     inr false).
Proof.
  intros Hname Hfield. unfold os_release_line. rewrite Hname.
  by rewrite (pbind_item _ _ field).
Qed.

Lemma os_release_line_other (line : string) (s : state) :
  Str.startswith "PRETTY_NAME" line = false →
  os_release_line line s = (s, inr true).
Proof. intros Hname. unfold os_release_line. by rewrite Hname. Qed.

Lemma os_release_run (lines : list string) (s : state) :
  Forall (λ line, Str.startswith "PRETTY_NAME" line = true →
                  Str.contains "=" line = true) lines →
  ∃ s', for_lines_break lines os_release_line s = (s', inr tt)
        ∧ results s' = results s.
Proof.
  intros Hok. revert s. induction Hok as [|line lines Hline _ IH]; intros s.
  - by exists s.
  - simpl. destruct (Str.startswith "PRETTY_NAME" line) eqn:Hname.
    + destruct (proj2 (split_second "=" line) (Hline eq_refl)) as [field Hfield].
      rewrite (pbind_run _ _ _ _ _ (os_release_line_found line field s Hname Hfield)).
      by eexists.
    + rewrite (pbind_run _ _ _ _ _ (os_release_line_other line s Hname)).
      apply IH.
Qed.

(** When every "PRETTY_NAME" line of [/etc/os-release] has an "=" (or
    the file does not exist), the probe gets to the two [uname] commands:
    if both run, it returns and stores the output of [uname -m], stripped,
    under [arch], and nothing else; if one of them fails, the exception
    leaves the probe and the store is as it was. *)
Theorem system_info_stores_architecture
    (os_release : option (list string)) (uname_r uname_m : option string)
    (s : state) :
  (∀ lines, os_release = Some lines →
     Forall (λ line, Str.startswith "PRETTY_NAME" line = true →
                     Str.contains "=" line = true) lines) →
  (∀ kernel arch, uname_r = Some kernel → uname_m = Some arch →
     snd (get_system_info os_release uname_r uname_m s) = inr tt
     ∧ results (fst (get_system_info os_release uname_r uname_m s))
       = <["arch" := VStr (Str.strip arch)]> (results s))
  ∧ (uname_r = None ∨ uname_m = None →
     snd (get_system_info os_release uname_r uname_m s) = inl ProcessError
     ∧ results (fst (get_system_info os_release uname_r uname_m s)) = results s).
Proof.
  intros Hok.
  assert (∃ s1, match os_release with
                | Some lines => for_lines_break lines os_release_line
                | None => mret tt
                end (log [Lit rule] (log [Lit "SYSTEM INFORMATION"]
                                       (log [Lit (nl +:+ rule)] s)))
                = (s1, inr tt) ∧ results s1 = results s) as (s1 & E1 & R1).
  { destruct os_release as [lines|]; [|by eexists].
    destruct (os_release_run lines
                (log [Lit rule] (log [Lit "SYSTEM INFORMATION"]
                                   (log [Lit (nl +:+ rule)] s))) (Hok lines eq_refl))
      as (s1 & E1 & R1).
    by exists s1. }
  unfold get_system_info. prun.
  rewrite (pbind_run _ _ _ _ _ E1).
  split.
  - intros kernel arch -> ->. prun.
    rewrite io_set. cbn [fst snd results store log]. by rewrite R1.
  - intros [-> | ->].
    + by rewrite (pbind_raise _ _ s1 s1 ProcessError).
    + destruct uname_r as [kernel|].
      * prun. by rewrite (pbind_raise _ _ _ _ ProcessError eq_refl).
      * by rewrite (pbind_raise _ _ s1 s1 ProcessError).
Qed.

Lemma system_info_stores_architecture_witness :
  results (fst (get_system_info
                  (Some ["NAME=Ubuntu" +:+ nl; "PRETTY_NAME=Ubuntu 24.04" +:+ nl])
                  (Some ("6.8.0" +:+ nl)) (Some ("x86_64" +:+ nl))
                  (fresh ∅ 0%Qc 0%Qc)))
  = <["arch" := VStr (Str.strip ("x86_64" +:+ nl))]> ∅.
Proof.
  refine (proj2 (proj1 (system_info_stores_architecture
                          (Some ["NAME=Ubuntu" +:+ nl; "PRETTY_NAME=Ubuntu 24.04" +:+ nl])
                          (Some ("6.8.0" +:+ nl)) (Some ("x86_64" +:+ nl))
                          (fresh ∅ 0%Qc 0%Qc) _)
                   ("6.8.0" +:+ nl) ("x86_64" +:+ nl) eq_refl eq_refl)).
  intros lines [= <-]. repeat constructor. all: intros _; reflexivity.
Defined.

(** ** The model name *)

Lemma contains_char_cons (c b : ascii) (s : string) :
  Str.contains (String c EmptyString) (String b s)
  = Ascii.eqb c b || Str.contains (String c EmptyString) s.
Proof. simpl. by rewrite andb_true_r. Qed.

(** No piece of [s.split(sep)] holds the separator. *)
Lemma split_pieces (sep : ascii) (s piece : string) :
  piece ∈ Str.split sep s →
  Str.contains (String sep EmptyString) piece = false.
Proof.
  revert piece. induction s as [|c s IH]; intros piece; simpl.
  - by intros ->%list_elem_of_singleton.
  - destruct (Ascii.eqb c sep) eqn:Hc.
    + intros [->|Hin]%elem_of_cons; [done | by apply IH].
    + destruct (split_nonempty sep s) as (w & ws & Hs). rewrite Hs in IH |- *.
      intros [->|Hin]%elem_of_cons.
      * rewrite contains_char_cons, (Ascii.eqb_sym sep c), Hc. simpl.
        apply IH. by left.
      * apply IH. by right.
Qed.

(** Stripping and reversing add no character. *)
Lemma lstrip_table_contains (table : list string) (c : ascii) (skip : nat) (s : string) :
  Str.contains (String c EmptyString) s = false →
  Str.contains (String c EmptyString) (Str.lstrip_table table skip s) = false.
Proof.
  revert skip. induction s as [|b s IH]; intros skip; [done|].
  intros Hc. pose proof Hc as Hc'. rewrite contains_char_cons in Hc'.
  apply orb_false_iff in Hc' as [_ Hs]. cbn [Str.lstrip_table].
  destruct skip as [|skip]; [|by apply IH].
  destruct (Str.width table (String b s)); [done | by apply IH].
Qed.

Lemma rev_app_contains (c : ascii) (s1 s2 : string) :
  Str.contains (String c EmptyString) (String.rev_app s1 s2)
  = Str.contains (String c EmptyString) s1 || Str.contains (String c EmptyString) s2.
Proof.
  revert s2. induction s1 as [|b s1 IH]; intros s2; [done|].
  cbn [String.rev_app]. rewrite IH, !contains_char_cons.
  by destruct (Ascii.eqb c b), (Str.contains _ s1), (Str.contains _ s2).
Qed.

Lemma rev_contains (c : ascii) (s : string) :
  Str.contains (String c EmptyString) (String.rev s)
  = Str.contains (String c EmptyString) s.
Proof. unfold String.rev. rewrite rev_app_contains. apply orb_false_r. Qed.

Lemma strip_contains (c : ascii) (s : string) :
  Str.contains (String c EmptyString) s = false →
  Str.contains (String c EmptyString) (Str.strip s) = false.
Proof.
  intros Hc. unfold Str.strip, Str.rstrip, Str.lstrip.
  rewrite rev_contains. apply lstrip_table_contains.
  rewrite rev_contains. by apply lstrip_table_contains.
Qed.

Lemma latest_Some {A} (reading : string → option A) (wrap : A → value)
    (lines : list string) (before : option value) (v : value) :
  latest reading wrap lines before = Some v →
  before = Some v ∨ ∃ line x, line ∈ lines ∧ reading line = Some x ∧ v = wrap x.
Proof.
  unfold latest. destruct (last (omap reading lines)) as [x|] eqn:Hlast; [|by left].
  intros [= <-]. right.
  apply last_Some_elem_of, list_elem_of_omap in Hlast as (line & Hin & Hx).
  by exists line, x.
Qed.

(** The lines of an output are all read, or there is a first line on
    which the loop stops. *)
Lemma first_model_name_without_colon (lines : list string) :
  Forall (λ line, model_name_without_colon line = false) lines
  ∨ ∃ before bad after,
      lines = before ++ bad :: after
      ∧ Forall (λ line, model_name_without_colon line = false) before
      ∧ model_name_without_colon bad = true.
Proof.
  induction lines as [|line lines IH]; [by left|].
  destruct (model_name_without_colon line) eqn:Hline.
  - right. exists [], line, lines. by split_and!.
  - destruct IH as [IH|(before & bad & after & -> & Hok & Hbad)].
    + left. by constructor.
    + right. exists (line :: before), bad, after. split_and!; [done | | done].
      by constructor.
Qed.

Section ModelName.
Context {builtins : Builtins}.

(** A model name [get_cpu_specs] writes never holds a colon: only the
    text between the first and the second colon of the line is kept, so
    a name with a colon in it is stored cut short. *)
Theorem cpu_model_has_no_colon (output model : string) (s : state) :
  results (fst (get_cpu_specs (inr output) s)) !! "cpu_model" = Some (VStr model) →
  results s !! "cpu_model" = Some (VStr model)
  ∨ Str.contains ":" model = false.
Proof.
  intros Hmodel.
  assert (∃ lines, latest cpu_model_of VStr lines (results s !! "cpu_model")
                   = Some (VStr model)) as [lines Hlatest].
  { destruct (first_model_name_without_colon (Str.split "010" output))
      as [Hok|(before & bad & after & Hsplit & Hok & Hbad)].
    - exists (Str.split "010" output).
      destruct (cpu_specs_lines_complete (Str.split "010" output)
                  (log [Fmt "" (VStr output)]
                     (log [Lit rule]
                        (log [Lit "CPU SPECIFICATIONS"] (log [Lit (nl +:+ rule)] s))))
                  Hok) as (s' & E & _ & Hm).
      rewrite (get_cpu_specs_run output s s' true E) in Hmodel.
      cbn [fst results log] in Hm, Hmodel. congruence.
    - exists before.
      destruct (cpu_specs_lines_stop before after bad
                  (log [Fmt "" (VStr output)]
                     (log [Lit rule]
                        (log [Lit "CPU SPECIFICATIONS"] (log [Lit (nl +:+ rule)] s))))
                  Hok Hbad) as (s' & E & _ & Hm).
      rewrite <- Hsplit in E.
      rewrite (get_cpu_specs_run output s s' false E) in Hmodel.
      cbn [fst results log] in Hm, Hmodel. congruence. }
  apply latest_Some in Hlatest as [?|(line & x & _ & Hx & [= ->])]; [by left|].
  right. unfold cpu_model_of in Hx.
  destruct (Str.contains "Model name" line); [|done].
  destruct (Str.split ":" line !! 1%nat) as [field|] eqn:Hfield; [|done].
  simpl in Hx. injection Hx as <-.
  apply strip_contains, (split_pieces ":" line).
  by eapply list_elem_of_lookup_2.
Qed.

End ModelName.

Lemma cpu_model_has_no_colon_witness :
  results (fst (@get_cpu_specs decimal_builtins
                  (inr "Model name: Intel(R): Xeon") (fresh ∅ 0%Qc 0%Qc)))
    !! "cpu_model" = Some (VStr "Intel(R)")
  ∧ (results (fresh ∅ 0%Qc 0%Qc) !! "cpu_model" = Some (VStr "Intel(R)")
     ∨ Str.contains ":" "Intel(R)" = false).
Proof.
  assert (results (fst (@get_cpu_specs decimal_builtins
                          (inr "Model name: Intel(R): Xeon") (fresh ∅ 0%Qc 0%Qc)))
            !! "cpu_model" = Some (VStr "Intel(R)")) as Hmodel
    by (vm_compute; reflexivity).
  split; [exact Hmodel|].
  exact (@cpu_model_has_no_colon decimal_builtins "Model name: Intel(R): Xeon"
           "Intel(R)" (fresh ∅ 0%Qc 0%Qc) Hmodel).
Defined.
